(** * Resumable URL validation: a model of [eduValidUrlChecking.py]

    The development follows the script:
    - [PyStr]: the handful of Python [str] methods the script calls;
    - [Frame]: the slice of the pandas [DataFrame] interface it relies on;
    - [RowStore]: [find_url_column] and the start-up reconciliation of the
      input with a previous output;
    - [Runtime]: the settings, the calls that leave the process, and
      computations with state and Python exceptions;
    - [Checkpoint]: [atomic_write_csv], [save_checkpoint_meta] and
      [load_checkpoint_meta], on a small file system;
    - [Verifier]: [try_requests_head_or_get], [wait_for_page_complete] and
      [check_with_selenium];
    - [Driver]: the body of [main], its row loop and its [try]/[finally];
    - [Makaut]: the second script, [MAKAUT_AffiliatedCollege_List.py], which
      reads the table of one page into a spreadsheet.

    Characters are 8-bit code points, clock readings are whole milliseconds,
    and data-frame cells are missing values, integers or strings; floats other
    than NaN, column dtypes and what the script prints are outside the model. *)

From Stdlib Require Import ZArith Ascii String List Bool Lia.
From stdpp Require Import base option list strings gmap fin_maps pretty.

Local Open Scope string_scope.

(** ** Python strings *)

Module PyStr.

(** [str.isspace] on code points below 256. *)
Definition isspace (c : ascii) : bool :=
  let n := nat_of_ascii c in
  (((9 <=? n) && (n <=? 13)) || ((28 <=? n) && (n <=? 32))
   || (n =? 133) || (n =? 160))%nat.

(** [str.lower] on one code point below 256: A-Z and the Latin-1 capitals. *)
Definition lower_char (c : ascii) : ascii :=
  let n := nat_of_ascii c in
  if (((65 <=? n) && (n <=? 90))
      || ((192 <=? n) && (n <=? 222) && negb (n =? 215)))%nat
  then ascii_of_nat (n + 32) else c.

Fixpoint lower (s : string) : string :=
  match s with
  | EmptyString => EmptyString
  | String c s' => String (lower_char c) (lower s')
  end.

Fixpoint lstrip (s : string) : string :=
  match s with
  | EmptyString => EmptyString
  | String c s' => if isspace c then lstrip s' else s
  end.

(** [rstrip] keeps a character when it is not a space or when something
    survives to its right. *)
Fixpoint rstrip (s : string) : string :=
  match s with
  | EmptyString => EmptyString
  | String c s' =>
      match rstrip s' with
      | EmptyString => if isspace c then EmptyString else String c EmptyString
      | t => String c t
      end
  end.

Definition strip (s : string) : string := rstrip (lstrip s).

Definition startswith (s p : string) : bool := String.prefix p s.

Definition endswith (s p : string) : bool :=
  let n := String.length s in
  let k := String.length p in
  (k <=? n)%nat && bool_decide (String.substring (n - k) k s = p).

(** [p in s] for strings. *)
Fixpoint contains (s p : string) : bool :=
  String.prefix p s ||
  match s with
  | EmptyString => false
  | String _ s' => contains s' p
  end.

Definition of_bool (b : bool) : string := if b then "True" else "False".

End PyStr.

(** ** Exceptions

    The script relies on the split between [Exception] (caught by every
    [except Exception]) and [BaseException] ([KeyboardInterrupt], which only
    the [finally] block sees). *)

Inductive exn :=
  | KeyError (label : string)
  | ValueError (msg : string)
  | MergeError
  | StopIteration
  | OSError (msg : string)
  | RequestException (msg : string)
  | TimeoutException (msg : string)
  | InvalidArgumentException (msg : string)
  | WebDriverException (msg : string)
  | KeyboardInterrupt.

(** [isinstance(e, Exception)] *)
Definition is_Exception (e : exn) : bool :=
  match e with KeyboardInterrupt => false | _ => true end.

(** [isinstance(e, WebDriverException)]: the Selenium base class. *)
Definition is_WebDriverException (e : exn) : bool :=
  match e with
  | TimeoutException _ | InvalidArgumentException _ | WebDriverException _ => true
  | _ => false
  end.

(** [str(e)] *)
Definition exn_str (e : exn) : string :=
  match e with
  | KeyError l => "'" +:+ l +:+ "'"
  | ValueError m | OSError m | RequestException m | TimeoutException m
  | InvalidArgumentException m | WebDriverException m => m
  | MergeError | StopIteration | KeyboardInterrupt => ""
  end.

Inductive res (A : Type) :=
  | Ok (a : A)
  | Raise (e : exn).
Arguments Ok {A} a.
Arguments Raise {A} e.

Definition res_bind {A B} (m : res A) (k : A → res B) : res B :=
  match m with Ok a => k a | Raise e => Raise e end.

Notation "x ←! m ; k" := (res_bind m (λ x, k))
  (at level 20, m at level 100, k at level 200, right associativity,
   only parsing).

(** ** Data frames *)

Module Frame.

(** What a cell holds: a missing value as [read_csv] leaves it, [None] (only
    ever assigned by the merge branch of [main]), an integer, or a string. *)
Inductive cell :=
  | NaN
  | PyNone
  | Int (z : Z)
  | Str (s : string).

#[global] Instance cell_eq_dec : EqDecision cell.
Proof. solve_decision. Defined.

(** [str(value)] *)
Definition str (c : cell) : string :=
  match c with
  | NaN => "nan"
  | PyNone => "None"
  | Int z => pretty z
  | Str s => s
  end.

(** [pd.isna(value)] *)
Definition isna (c : cell) : bool :=
  match c with NaN | PyNone => true | _ => false end.

(** A frame is its column labels, in order, and its rows under the default
    integer index; a row maps each label to a cell. *)
Record DataFrame := { columns : list string; rows : list (gmap string cell) }.

(** Every row is defined exactly on the labels, and labels are unique (as
    [read_csv] makes them). *)
Definition wf (df : DataFrame) : Prop :=
  NoDup (columns df) ∧
  Forall (λ r : gmap string cell, dom r = list_to_set (columns df)) (rows df).

#[global] Instance wf_dec df : Decision (wf df).
Proof. unfold wf. apply _. Defined.

(** [len(df)] *)
Definition len (df : DataFrame) : nat := length (rows df).

(** [label in df.columns] *)
Definition has_column (c : string) (df : DataFrame) : bool :=
  bool_decide (c ∈ columns df).

(** The cell of a row under a label. *)
Definition value (r : gmap string cell) (c : string) : cell :=
  default NaN (r !! c).

Definition add_label (c : string) (cs : list string) : list string :=
  if bool_decide (c ∈ cs) then cs else cs ++ [c].

(** [df[c] = v] with a scalar [v] *)
Definition setitem_scalar (c : string) (v : cell) (df : DataFrame) : DataFrame :=
  {| columns := add_label c (columns df);
     rows := (λ r, <[c := v]> r) <$> rows df |}.

(** [df[c] = df.index] *)
Definition setitem_index (c : string) (df : DataFrame) : DataFrame :=
  {| columns := add_label c (columns df);
     rows := imap (λ i r, <[c := Int (Z.of_nat i)]> r) (rows df) |}.

(** [df[c] = df.get(src)]: [get] gives the column when it exists and [None]
    otherwise, and assigning [None] fills the column with it. *)
Definition setitem_get (c src : string) (df : DataFrame) : DataFrame :=
  if has_column src df then
    {| columns := add_label c (columns df);
       rows := (λ r, <[c := value r src]> r) <$> rows df |}
  else setitem_scalar c PyNone df.

(** [df[[c1, ..., cn]]] *)
Definition getitem_list (cs : list string) (df : DataFrame) : res DataFrame :=
  match List.find (λ c, negb (has_column c df)) cs with
  | Some c => Raise (KeyError c)
  | None =>
      Ok {| columns := cs;
            rows := (λ r, filter (λ kv : string * cell, kv.1 ∈ cs) r) <$> rows df |}
  end.

(** [df.drop(columns=[c for c in df.columns if p c], errors="ignore")] *)
Definition drop_columns (p : string → bool) (df : DataFrame) : DataFrame :=
  {| columns := List.filter (λ c, negb (p c)) (columns df);
     rows := (λ r, filter (λ kv : string * cell, p kv.1 = false) r) <$> rows df |}.

(** Join keys: missing values match each other, anything else by equality. *)
Definition key_eqb (a b : cell) : bool :=
  (isna a && isna b) || bool_decide (a = b).

Section merge.
Context (on suffix : string) (left right : DataFrame).

Definition right_labels : list string :=
  List.filter (λ c, negb (bool_decide (c = on))) (columns right).

(** The left suffix is empty in the only call, so left labels are kept and
    a clashing right label takes [suffix]. *)
Definition rename (c : string) : string :=
  if has_column c left then c +:+ suffix else c.

Definition merged_labels : list string :=
  columns left ++ (rename <$> right_labels).

Definition extend (l : gmap string cell) (r : option (gmap string cell))
  : gmap string cell :=
  foldr (λ c acc, <[rename c := from_option (λ r, value r c) NaN r]> acc)
        l right_labels.

Definition matches (l : gmap string cell) : list (gmap string cell) :=
  List.filter (λ r, key_eqb (value l on) (value r on)) (rows right).

(** The rows a left row contributes to a left join: one per match, in the
    order of the right frame, or a single row padded with NaN. *)
Definition join_row (l : gmap string cell) : list (gmap string cell) :=
  match matches l with
  | [] => [extend l None]
  | ms => (λ r, extend l (Some r)) <$> ms
  end.

(** [left.merge(right, on=on, how="left", suffixes=("", suffix))]; pandas
    refuses suffixes that leave two columns with one label.  The two key
    columns are taken to be of one dtype, as two columns of text are: pandas
    also refuses to join a column of numbers with a column of text. *)
Definition merge_left : res DataFrame :=
  if negb (has_column on left && has_column on right) then Raise (KeyError on)
  else if bool_decide (NoDup merged_labels) then
    Ok {| columns := merged_labels; rows := rows left ≫= join_row |}
  else Raise MergeError.
End merge.

(** [df.at[idx, c]] *)
Definition at_ (df : DataFrame) (idx : nat) (c : string) : res cell :=
  match rows df !! idx with
  | Some r => match r !! c with Some v => Ok v | None => Raise (KeyError c) end
  | None => Raise (KeyError (pretty idx))
  end.

(** [df.at[idx, c] = v], for [idx] inside the index and a column whose dtype
    takes [v], as a column of text takes a string (from version 3 on pandas
    refuses a string for a column it holds as numbers, which an empty column
    read from a file is); a new label becomes a column that is NaN on the
    other rows. *)
Definition set_at (df : DataFrame) (idx : nat) (c : string) (v : cell) : DataFrame :=
  if has_column c df then
    {| columns := columns df; rows := alter (λ r, <[c := v]> r) idx (rows df) |}
  else
    {| columns := columns df ++ [c];
       rows := imap (λ i r, <[c := if bool_decide (i = idx) then v else NaN]> r)
                    (rows df) |}.

(** [df[c].tolist()] *)
Definition column_tolist (c : string) (df : DataFrame) : res (list cell) :=
  if has_column c df then Ok ((λ r, value r c) <$> rows df)
  else Raise (KeyError c).

End Frame.

(** ** Row store: column detection and start-up reconciliation *)

Module RowStore.
Import PyStr Frame.

(** The pattern [^https?://]. *)
Definition is_http (s : string) : bool :=
  startswith s "http://" || startswith s "https://".

(** The message of the [ValueError] of [find_url_column]. *)
Definition no_url_column : string :=
  "Could not find a URL column. Make sure there is a column named 'URL' "
  +:+ "or containing http(s) links.".

(** A column named url, link or website, else the first column with a link
    among its first 20 values. *)
Definition find_url_column (df : DataFrame) : res string :=
  match List.find (λ col, bool_decide (lower (strip col) ∈ ["url"; "link"; "website"]))
                  (columns df) with
  | Some col => Ok col
  | None =>
      match List.find (λ col, existsb (λ r, is_http (str (value r col)))
                                      (take 20 (rows df)))
                      (columns df) with
      | Some col => Ok col
      | None => Raise (ValueError no_url_column)
      end
  end.

(** What [main] finds at [OUTPUT_CSV]. *)
Inductive previous_output :=
  | NoFile
  | Unreadable (e : exn)
  | Loaded (prev : DataFrame).

(** [df = original_df.copy(); df["status"] = ""; df["status_detail"] = ""] *)
Definition fresh (original_df : DataFrame) : DataFrame :=
  setitem_scalar "status_detail" (Str "") (setitem_scalar "status" (Str "") original_df).

(** The branch of [main] that merges by URL content. *)
Definition merge_by_url (url_col : string) (original_df prev : DataFrame)
  : res DataFrame :=
  let merged := setitem_index "__orig_index__" original_df in
  prev_subset ←! (if has_column "status" prev
                  then getitem_list [url_col; "status"; "status_detail"] prev
                  else getitem_list [url_col] prev);
  merged ←! merge_left url_col "_prev" merged prev_subset;
  let merged := if has_column "status" merged then merged
                else setitem_get "status" "status_prev" merged in
  let merged := if has_column "status_detail" merged then merged
                else setitem_get "status_detail" "status_detail_prev" merged in
  let merged := drop_columns (λ c, endswith c "_prev") merged in
  let merged := drop_columns (λ c, bool_decide (c = "__orig_index__")) merged in
  Ok merged.

(** The working table [df] built at the start of [main]. *)
Definition reconcile (url_col : string) (original_df : DataFrame)
    (out : previous_output) : res DataFrame :=
  let start_fresh e :=
    if is_Exception e then Ok (fresh original_df) else Raise e in
  match out with
  | NoFile => Ok (fresh original_df)
  | Unreadable e => start_fresh e
  | Loaded prev =>
      if has_column url_col prev then
        if (len prev =? len original_df)%nat then Ok prev
        else match merge_by_url url_col original_df prev with
             | Ok merged => Ok merged
             | Raise e => start_fresh e
             end
      else Ok (fresh original_df)
  end.

(** [pd.isna(val) or str(val).strip() == ""] *)
Definition is_unprocessed (val : cell) : bool :=
  isna val || bool_decide (strip (str val) = "").

Fixpoint first_index {A} (p : A → bool) (l : list A) : option nat :=
  match l with
  | [] => None
  | x :: l' => if p x then Some 0 else S <$> first_index p l'
  end.

(** [next(i for i, v in enumerate(df["status"].tolist()) if is_unprocessed(v))] *)
Definition first_unprocessed (df : DataFrame) : res nat :=
  statuses ←! column_tolist "status" df;
  match first_index is_unprocessed statuses with
  | Some i => Ok i
  | None => Raise StopIteration
  end.

End RowStore.

(** ** The world outside the script

    Calls into [requests], Selenium and the file system are answered by an
    environment that sees the calls made so far.  Every answer comes with the
    time the call took; the clock only moves inside such calls. *)

Module Runtime.
Import Frame.

(** The values of the checkpoint record. *)
Inductive json :=
  | JNull
  | JNum (z : Z)
  | JStr (s : string).

(** The settings at the top of the script; timeouts are in seconds. *)
Record Config := {
  INPUT_PATH : string;
  OUTPUT_CSV : string;
  OUTPUT_XLSX : string;
  CHECKPOINT_JSON : string;
  REQUESTS_TIMEOUT : Z;
  SELENIUM_PAGE_LOAD_TIMEOUT : Z;
  SELENIUM_WAIT_SHORT : Z;
  SELENIUM_WAIT_LONG : Z;
  SELENIUM_MAX_WAIT_PER_URL : Z;
  BODY_MIN_LENGTH : Z;
  EXTRA_JS_SETTLE : Z;  (* milliseconds *)
  AUTOSAVE_EVERY : Z;
  FORCE_RESTART : bool
}.

Definition source_config : Config := {|
  INPUT_PATH := "D:\Education - Valid Url\IRINS Dashboard.csv";
  OUTPUT_CSV := "D:\Education - Valid Url\IRINS_Dashboard_with_status.csv";
  OUTPUT_XLSX := "D:\Education - Valid Url\IRINS_Dashboard_with_status.xlsx";
  CHECKPOINT_JSON := "D:\Education - Valid Url\IRINS_Dashboard_checkpoint.json";
  REQUESTS_TIMEOUT := 8;
  SELENIUM_PAGE_LOAD_TIMEOUT := 30;
  SELENIUM_WAIT_SHORT := 10;
  SELENIUM_WAIT_LONG := 45;
  SELENIUM_MAX_WAIT_PER_URL := 70;
  BODY_MIN_LENGTH := 20;
  EXTRA_JS_SETTLE := 1000;
  AUTOSAVE_EVERY := 1;
  FORCE_RESTART := false
|}.

(** Calls that leave the process. *)
Inductive event :=
  | EvRequestsGet (url : string)
  | EvSetupDriver
  | EvDriverGet (url : string)
  | EvUntilReady (timeout : Z)
  | EvUntilBody (timeout : Z)
  | EvSleep (ms : Z)
  | EvBodyLength
  | EvDriverQuit
  | EvAtomicWriteCsv (df : DataFrame) (path : string)
  | EvSaveCheckpointMeta (meta : gmap string json) (path : string)
  | EvToExcel (df : DataFrame) (path : string).

(** Where a file write stops. *)
Inductive fault :=
  | NoFault
  | WriteFails (written : nat) (e : exn)
  | ReplaceFails (e : exn).

(** What the script can observe and change outside its own variables. *)
Record World := {
  now : Z;                       (* [time.time()], in milliseconds *)
  log : list event;
  fs : gmap string string        (* path to file content *)
}.

(** How the world answers: each call gets the log so far, and returns or
    raises after some milliseconds.  The serialisers and parsers of pandas and
    [json] are taken as given. *)
Record Env := {
  requests_get : list event → string → res Z * Z;
  webdriver_chrome : list event → res () * Z;
  driver_get : list event → string → res () * Z;
  until_ready : list event → Z → res () * Z;
  until_body : list event → Z → res () * Z;
  body_length : list event → res (option Z) * Z;
  driver_quit : list event → res () * Z;
  mkstemp : list event → string → string;
  write_fault : list event → fault;
  to_csv : DataFrame → string;
  to_excel_bytes : DataFrame → string;
  json_dumps : gmap string json → string;
  read_csv : string → res DataFrame;
  json_loads : string → res (gmap string json);
  format_1f : Z → string         (* [f"{ms/1000:.1f}"] *)
}.

(** Computations: state passing with Python exceptions.  The state reached
    when an exception is raised is kept, as mutations are in Python. *)
Definition St (S A : Type) : Type := S → res A * S.

Definition ret {S A} (a : A) : St S A := λ s, (Ok a, s).
Definition raise {S A} (e : exn) : St S A := λ s, (Raise e, s).
Definition lift {S A} (r : res A) : St S A := λ s, (r, s).
Definition bind {S A B} (m : St S A) (k : A → St S B) : St S B :=
  λ s, match m s with
       | (Ok a, s') => k a s'
       | (Raise e, s') => (Raise e, s')
       end.

(** [try: m except <classes matched by handles> as e: h e] *)
Definition try_except {S A} (m : St S A) (handles : exn → bool)
    (h : exn → St S A) : St S A :=
  λ s, match m s with
       | (Ok a, s') => (Ok a, s')
       | (Raise e, s') => if handles e then h e s' else (Raise e, s')
       end.

(** [try: m finally: f] *)
Definition try_finally {S A} (m : St S A) (f : St S ()) : St S A :=
  λ s, match m s with
       | (r, s') =>
           match f s' with
           | (Ok _, s'') => (r, s'')
           | (Raise e, s'') => (Raise e, s'')
           end
       end.

Definition M : Type → Type := St World.

(** One call answered by the environment: it is logged, takes [d]
    milliseconds and returns or raises. *)
Definition call {A} (ev : event) (answer : list event → res A * Z) : M A :=
  λ w, let '(r, d) := answer (log w) in
       (r, {| now := now w + d; log := log w ++ [ev]; fs := fs w |}).

Definition time_time : M Z := λ w, (Ok (now w), w).

Definition time_sleep (ms : Z) : M () :=
  call (EvSleep ms) (λ _, (Ok (), ms)).

End Runtime.

Notation "'let*' x ':=' m 'in' k" := (Runtime.bind m (λ x, k))
  (at level 10, x pattern, m at level 100, k at level 200, only parsing).

(** ** Checkpoint manager: the two atomic-replace writers *)

Module Checkpoint.
Import Runtime.

(** *** [os.path], Windows flavour without drive letters *)

Definition is_sep (c : ascii) : bool :=
  bool_decide (c = "/"%char) || bool_decide (c = "\"%char).

Definition has_sep (s : string) : bool :=
  existsb is_sep (list_ascii_of_string s).

(** The path up to and including its last separator. *)
Fixpoint head_of (p : string) : string :=
  match p with
  | EmptyString => EmptyString
  | String c p' =>
      if has_sep p' then String c (head_of p')
      else if is_sep c then String c EmptyString else EmptyString
  end.

Fixpoint rstrip_sep (s : string) : string :=
  match s with
  | EmptyString => EmptyString
  | String c s' =>
      match rstrip_sep s' with
      | EmptyString => if is_sep c then EmptyString else String c EmptyString
      | t => String c t
      end
  end.

(** [os.path.dirname(p)] *)
Definition dirname (p : string) : string :=
  let head := head_of p in
  match rstrip_sep head with
  | EmptyString => head
  | stripped => stripped
  end.

(** *** File-system states of a write

    A write to [p] is visible byte by byte: the file is created or truncated
    and then holds each prefix of the data in turn. *)

Definition prefix_of (data : string) (k : nat) : string :=
  String.substring 0 k data.

Definition written (p data : string) (upto : nat) (fs0 : gmap string string)
  : list (gmap string string) :=
  (λ k, <[p := prefix_of data k]> fs0) <$> seq 0 (S upto).

(** [os.replace(src, dst)], one step. *)
Definition os_replace (src dst : string) (fs0 : gmap string string)
  : gmap string string :=
  match fs0 !! src with
  | Some data => <[dst := data]> (delete src fs0)
  | None => fs0
  end.

Definition final (states : list (gmap string string)) (fs0 : gmap string string)
  : gmap string string :=
  List.last states fs0.

(** [atomic_write_csv], with [data = df.to_csv()] and [tmp] the name
    [mkstemp] picked: every file-system state from the call to its return,
    and how it returns. *)
Definition atomic_write_csv_steps (data path tmp : string) (flt : fault)
    (fs0 : gmap string string) : list (gmap string string) * res () :=
  let created := <[tmp := ""]> fs0 in                           (* mkstemp *)
  let n := String.length data in
  let cleanup st := if bool_decide (is_Some (st !! tmp)) then [delete tmp st] else [] in
  match flt with
  | NoFault =>
      let w := written tmp data n created in
      let installed := os_replace tmp path (final w created) in
      (fs0 :: created :: w ++ installed :: cleanup installed, Ok ())
  | WriteFails k e =>
      let w := written tmp data (Nat.min k n) created in
      (fs0 :: created :: w ++ cleanup (final w created), Raise e)
  | ReplaceFails e =>
      let w := written tmp data n created in
      (fs0 :: created :: w ++ cleanup (final w created), Raise e)
  end.

(** [save_checkpoint_meta], with [data = json.dumps(meta)]. *)
Definition save_checkpoint_meta_steps (data path : string) (flt : fault)
    (fs0 : gmap string string) : list (gmap string string) * res () :=
  let tmp := path +:+ ".tmp" in
  let n := String.length data in
  match flt with
  | NoFault =>
      let w := written tmp data n fs0 in
      (fs0 :: w ++ [os_replace tmp path (final w fs0)], Ok ())
  | WriteFails k e => (fs0 :: written tmp data (Nat.min k n) fs0, Raise e)
  | ReplaceFails e => (fs0 :: written tmp data n fs0, Raise e)
  end.

(** [df.to_excel(path, index=False)] writes the target in place. *)
Definition to_excel_steps (data path : string) (flt : fault)
    (fs0 : gmap string string) : list (gmap string string) * res () :=
  let n := String.length data in
  match flt with
  | NoFault | ReplaceFails _ => (fs0 :: written path data n fs0, Ok ())
  | WriteFails k e => (fs0 :: written path data (Nat.min k n) fs0, Raise e)
  end.

Section with_env.
Context (env : Env).

Definition run_steps (ev : event)
    (steps : fault → gmap string string → list (gmap string string) * res ())
  : M () :=
  λ w, let '(states, r) := steps (write_fault env (log w)) (fs w) in
       (r, {| now := now w; log := log w ++ [ev]; fs := final states (fs w) |}).

Definition atomic_write_csv (df : Frame.DataFrame) (path : string) : M () :=
  λ w, let dirn := match dirname path with EmptyString => "." | d => d end in
       let tmp := mkstemp env (log w) dirn in
       run_steps (EvAtomicWriteCsv df path)
                 (atomic_write_csv_steps (to_csv env df) path tmp) w.

Definition save_checkpoint_meta (meta : gmap string json) (path : string) : M () :=
  run_steps (EvSaveCheckpointMeta meta path)
            (save_checkpoint_meta_steps (json_dumps env meta) path).

Definition to_excel (df : Frame.DataFrame) (path : string) : M () :=
  run_steps (EvToExcel df path) (to_excel_steps (to_excel_bytes env df) path).

(** [None] for a missing or unreadable file. *)
Definition load_checkpoint_meta (path : string) : M (option (gmap string json)) :=
  λ w, match fs w !! path with
       | None => (Ok None, w)
       | Some data =>
           match json_loads env data with
           | Ok meta => (Ok (Some meta), w)
           | Raise e => if is_Exception e then (Ok None, w) else (Raise e, w)
           end
       end.
End with_env.

End Checkpoint.

(** ** Verifier: probe stage and render stage *)

Module Verifier.
Import PyStr Runtime.

Section with_env.
Context (cfg : Config) (env : Env).

Definition try_requests_head_or_get (url : string) : M (bool * (Z + string)) :=
  try_except
    (let* status_code := call (EvRequestsGet url) (λ l, requests_get env l url) in
     ret (true, inl status_code))
    is_Exception
    (λ e, ret (false, inr (exn_str e))).

Definition setup_driver : M () :=
  call EvSetupDriver (webdriver_chrome env).

Definition wait_for_page_complete (wait_seconds : Z) : M (bool * string) :=
  try_except
    (let* _ := call (EvUntilReady wait_seconds) (λ l, until_ready env l wait_seconds) in
     let* _ := call (EvUntilBody wait_seconds) (λ l, until_body env l wait_seconds) in
     let* _ := time_sleep (EXTRA_JS_SETTLE cfg) in
     let* r := call EvBodyLength (body_length env) in
     let body_len := default 0%Z r in
     if (BODY_MIN_LENGTH cfg <=? body_len)%Z
     then ret (true, "ready; body_len=" +:+ pretty body_len)
     else ret (true, "ready_but_small_body; body_len=" +:+ pretty body_len))
    is_Exception
    (λ e, match e with
          | TimeoutException _ => ret (false, "timeout_waiting:" +:+ exn_str e)
          | _ => if is_WebDriverException e
                 then ret (false, "webdriver_error:" +:+ exn_str e)
                 else ret (false, "other_error:" +:+ exn_str e)
          end).

Definition elapsed_s (ms : Z) : string := "; elapsed=" +:+ format_1f env ms +:+ "s".

(** [driver.get(url)] under its four [except] clauses: [None] when the
    explicit waits are to follow. *)
Definition navigate (url : string) : M (option (bool * string)) :=
  try_except
    (let* _ := call (EvDriverGet url) (λ l, driver_get env l url) in ret None)
    is_Exception
    (λ e, match e with
          | TimeoutException _ => ret None
          | InvalidArgumentException _ =>
              ret (Some (false, "invalid_url:" +:+ exn_str e))
          | _ => if is_WebDriverException e
                 then ret (Some (false, "webdriver_get_error:" +:+ exn_str e))
                 else ret (Some (false, "get_exception:" +:+ exn_str e))
          end).

(** [int(x)] for [x] in milliseconds: whole seconds, towards zero. *)
Definition int_seconds (ms : Z) : Z := ms ÷ 1000.

Definition check_with_selenium (url : string) : M (bool * string) :=
  let* start_ts := time_time in
  let* early := navigate url in
  match early with
  | Some result => ret result
  | None =>
      let* (ok, detail) := wait_for_page_complete (SELENIUM_WAIT_SHORT cfg) in
      if ok then
        let* t := time_time in
        ret (true, "short_wait_ok:" +:+ detail +:+ elapsed_s (t - start_ts))
      else
        let* t := time_time in
        let elapsed := (t - start_ts)%Z in
        if (elapsed <? 1000 * SELENIUM_MAX_WAIT_PER_URL cfg)%Z then
          let remaining := Z.min (1000 * SELENIUM_WAIT_LONG cfg)
                                 (1000 * SELENIUM_MAX_WAIT_PER_URL cfg - elapsed) in
          let* (ok2, detail2) := wait_for_page_complete (int_seconds remaining) in
          let* t2 := time_time in
          if ok2 then
            ret (true, "long_wait_ok:" +:+ detail2 +:+ elapsed_s (t2 - start_ts))
          else
            ret (false, "both_waits_failed: short_detail=" +:+ detail
                        +:+ "; long_detail=" +:+ detail2 +:+ elapsed_s (t2 - start_ts))
        else
          ret (false, "short_wait_failed_and_no_time_for_long_wait; detail="
                      +:+ detail +:+ elapsed_s elapsed)
  end.

(** The test at the top of the loop body of [main]. *)
Definition is_placeholder (raw : string) : bool :=
  bool_decide (raw = "") || bool_decide (lower raw ∈ ["nan"; "none"; ""]).

Definition effective_url (raw : string) : string :=
  if startswith (lower raw) "http://" || startswith (lower raw) "https://"
  then raw else "http://" +:+ raw.

Definition req_ok_flag (ok_req : bool) (req_info : Z + string) : bool :=
  match req_info with
  | inl status_code => ok_req && (status_code <? 400)%Z
  | inr _ => false
  end.

(** The status and detail the loop body writes for the cell under the URL
    column. *)
Definition verify (value : Frame.cell) : M (string * string) :=
  let raw := strip (Frame.str value) in
  if is_placeholder raw then ret ("invalid", "empty url")
  else
    let url := effective_url raw in
    let* (ok_req, req_info) := try_requests_head_or_get url in
    let flag := req_ok_flag ok_req req_info in
    let* (selenium_ok, detail) := check_with_selenium url in
    if selenium_ok
    then ret ("valid", "selenium:" +:+ detail +:+ "; requests_ok:" +:+ of_bool flag)
    else ret ("invalid", "selenium_error:" +:+ detail +:+ "; requests_ok:" +:+ of_bool flag).
End with_env.

End Verifier.

(** ** Driver loop *)

Module Driver.
Import PyStr Frame Runtime RowStore.

(** The objects [main] mutates while the loop runs. *)
Record Locals := {
  df : DataFrame;
  meta : gmap string json;
  processed_since_save : Z
}.

Definition D : Type → Type := St (Locals * World).

(** A computation on the world, run from inside [main]. *)
Definition io {A} (m : M A) : D A :=
  λ '(l, w), let '(r, w') := m w in (r, (l, w')).

Definition get_df : D DataFrame := λ s, (Ok (df s.1), s).
Definition get_meta : D (gmap string json) := λ s, (Ok (meta s.1), s).
Definition get_counter : D Z := λ s, (Ok (processed_since_save s.1), s).

Definition set_cell (idx : nat) (c : string) (v : cell) : D () :=
  λ '(l, w), (Ok (), ({| df := set_at (df l) idx c v; meta := meta l;
                         processed_since_save := processed_since_save l |}, w)).

Definition set_meta (m : gmap string json) : D () :=
  λ '(l, w), (Ok (), ({| df := df l; meta := m;
                         processed_since_save := processed_since_save l |}, w)).

Definition set_counter (n : Z) : D () :=
  λ '(l, w), (Ok (), ({| df := df l; meta := meta l; processed_since_save := n |}, w)).

Section with_env.
Context (cfg : Config) (env : Env).

(** The in-loop save: the table, then the metadata record. *)
Definition checkpoint : D () :=
  let* d := get_df in
  let* _ := io (Checkpoint.atomic_write_csv env d (OUTPUT_CSV cfg)) in
  let* m := get_meta in
  io (Checkpoint.save_checkpoint_meta env m (CHECKPOINT_JSON cfg)).

(** The body of [for idx in range(first_unprocessed, len(df))]. *)
Definition loop_body (url_col : string) (idx : nat) : D () :=
  let* d := get_df in
  let* value := lift (at_ d idx url_col) in
  let* (status, detail) := io (Verifier.verify cfg env value) in
  let* _ := set_cell idx "status" (Str status) in
  let* _ := set_cell idx "status_detail" (Str detail) in
  let* m := get_meta in
  let* _ := set_meta (<["last_processed_index" := JNum (Z.of_nat idx)]> m) in
  let* n := get_counter in
  let* _ := set_counter (n + 1) in
  if (AUTOSAVE_EVERY cfg <=? n + 1)%Z then
    let* _ := try_except checkpoint is_Exception (λ _, ret ()) in
    set_counter 0
  else ret ().

Fixpoint for_each (url_col : string) (idxs : list nat) : D () :=
  match idxs with
  | [] => ret ()
  | idx :: rest => let* _ := loop_body url_col idx in for_each url_col rest
  end.

(** The [finally] block of [main]. *)
Definition final_save : D () :=
  let* _ := try_except (io (call EvDriverQuit (driver_quit env)))
                       is_Exception (λ _, ret ()) in
  try_except
    (let* d := get_df in
     let* _ := io (Checkpoint.atomic_write_csv env d (OUTPUT_CSV cfg)) in
     let* _ := io (Checkpoint.to_excel env d (OUTPUT_XLSX cfg)) in
     let* m := get_meta in
     let* _ := set_meta (<["last_processed_index" :=
                            default JNull (m !! "last_processed_index")]> m) in
     let* m := get_meta in
     io (Checkpoint.save_checkpoint_meta env m (CHECKPOINT_JSON cfg)))
    is_Exception (λ _, ret ()).

(** [main] from [try:] to the end of [finally:]. *)
Definition run_loop (url_col : string) (first_unprocessed : nat) : D () :=
  let* d := get_df in
  try_finally (for_each url_col (seq first_unprocessed (len d - first_unprocessed)))
              final_save.

(** The exit taken when no row is unprocessed. *)
Definition all_processed : D () :=
  let* d := get_df in
  try_except (io (Checkpoint.to_excel env d (OUTPUT_XLSX cfg)))
             is_Exception (λ _, ret ()).

(** [meta = load_checkpoint_meta(CHECKPOINT_JSON) or {}] and the
    [setdefault] after it. *)
Definition load_meta : D () :=
  let* loaded := io (Checkpoint.load_checkpoint_meta env (CHECKPOINT_JSON cfg)) in
  let m := default ∅ loaded in
  set_meta (match m !! "last_processed_index" with
            | Some _ => m
            | None => <["last_processed_index" := JNull]> m
            end).

(** [main] once the working table is built. *)
Definition resume (url_col : string) : D () :=
  let* d := get_df in
  match first_unprocessed d with
  | Raise StopIteration => all_processed
  | Raise e => raise e
  | Ok first =>
      let* _ := io (Verifier.setup_driver env) in
      let* _ := load_meta in
      run_loop url_col first
  end.

(** What [main] finds at [OUTPUT_CSV], after the [FORCE_RESTART] removal. *)
Definition previous (files : gmap string string) : previous_output :=
  match files !! OUTPUT_CSV cfg with
  | None => NoFile
  | Some data =>
      match read_csv env data with
      | Ok prev => Loaded prev
      | Raise e => Unreadable e
      end
  end.

Definition force_restart : M () :=
  λ w, (Ok (), {| now := now w; log := log w;
                  fs := if FORCE_RESTART cfg
                        then delete (CHECKPOINT_JSON cfg) (delete (OUTPUT_CSV cfg) (fs w))
                        else fs w |}).

Definition read_input : M DataFrame :=
  λ w, match fs w !! INPUT_PATH cfg with
       | Some data => (read_csv env data, w)
       | None => (Raise (OSError "No such file or directory"), w)
       end.

Definition start (d : DataFrame) : Locals :=
  {| df := d; meta := ∅; processed_since_save := 0 |}.

Definition main (w : World) : res () * (Locals * World) :=
  match read_input w with
  | (Raise e, w) => (Raise e, (start {| columns := []; rows := [] |}, w))
  | (Ok original_df, w) =>
      match find_url_column original_df with
      | Raise e => (Raise e, (start original_df, w))
      | Ok url_col =>
          let w := (force_restart w).2 in
          match reconcile url_col original_df (previous (fs w)) with
          | Raise e => (Raise e, (start original_df, w))
          | Ok d => resume url_col (start d, w)
          end
      end
  end.
End with_env.

End Driver.

(** ** The college list: a model of [MAKAUT_AffiliatedCollege_List.py]

    The script opens one page, reads the rows of its table and writes them to
    a spreadsheet.  The page is taken as Selenium shows it once the table is
    there: it does not change while it is read. *)

Module Makaut.
Import PyStr Frame Runtime.

(** The first [<a>] inside a cell: its text and its [href], if it has one. *)
Record a_tag := { a_text : string; href : option string }.

(** A [<td>]: its text and the first anchor inside it, if any. *)
Record td := { text : string; anchor : option a_tag }.

(** [s.replace(old, new)] for a pattern [old] of one character. *)
Fixpoint replace (old : ascii) (new : string) (s : string) : string :=
  match s with
  | EmptyString => EmptyString
  | String c s' =>
      if bool_decide (c = old) then new +:+ replace old new s'
      else String c (replace old new s')
  end.

Definition newline : ascii := "010"%char.

(** [cols[2].find_element(By.TAG_NAME, "a")] *)
Definition find_element_a (col : td) : res a_tag :=
  match anchor col with
  | Some link => Ok link
  | None => Raise (WebDriverException "Message: no such element")
  end.

(** The name and URL of a college: from the anchor of the third cell, or,
    whatever goes wrong with that, from the text of the cell. *)
Definition name_and_url (col : td) : cell * cell :=
  match find_element_a col with
  | Ok link =>
      (Str (strip (replace newline " " (a_text link))),
       match href link with Some u => Str u | None => PyNone end)
  | Raise _ => (Str (strip (replace newline " " (text col))), Str "")
  end.

(** The dictionary appended for a row, its keys in order; [None] for a row
    that is skipped. *)
Definition record_of (cols : list td) : option (list (string * cell)) :=
  if (length cols <? 3)%nat then None
  else
    match cols with
    | c0 :: c1 :: c2 :: _ =>
        let sr_no := strip (text c0) in
        let college_code := strip (text c1) in
        let '(college_name, college_url) := name_and_url c2 in
        Some [("Sr No", Str sr_no); ("College Code", Str college_code);
              ("College Name", college_name); ("College Website URL", college_url)]
    | _ => None
    end.

(** The loop over the rows: [data] grows by one dictionary per row kept. *)
Definition collect (rows : list (list td)) : list (list (string * cell)) :=
  foldl (λ data cols, match record_of cols with
                      | Some record => (data ++ [record])%list
                      | None => data
                      end) [] rows.

(** [pd.DataFrame(data)] for a list of dictionaries: the labels are the keys
    in the order they first appear, and a key a dictionary lacks is NaN. *)
Definition DataFrame_of (data : list (list (string * cell))) : DataFrame :=
  let labels := foldl (λ cs c, add_label c cs) [] (data ≫= fmap fst) in
  {| columns := labels;
     rows := (λ record : list (string * cell),
                list_to_map ((λ c, (c, default NaN
                                         ((list_to_map record : gmap string cell) !! c)))
                             <$> labels)) <$> data |}.

Definition URL : string := "https://makautwb.ac.in/page.php?id=363".

Definition OUTPUT : string := "MAKAUT_College_List.xlsx".

(** Calls that leave the process. *)
Inductive event :=
  | EvChrome
  | EvGet (url : string)
  | EvUntilTbody (timeout : Z)
  | EvFindRows
  | EvToExcel (df : DataFrame) (path : string)
  | EvQuit.

Record World := { log : list event; fs : gmap string string }.

(** How the browser and the disk answer. *)
Record Site := {
  chrome : res ();                       (* [uc.Chrome(options=options)] *)
  get : string → res ();
  until_tbody : Z → res ();
  table : list (list td);                (* the [<tr>] of the body, cell by cell *)
  quit : res ();
  write_fault : fault;
  to_excel_bytes : DataFrame → string
}.

Section with_site.
Context (site : Site).

Definition call {A} (ev : event) (answer : res A) : St World A :=
  λ w, (answer, {| log := (log w ++ [ev])%list; fs := fs w |}).

Definition to_excel (df : DataFrame) (path : string) : St World () :=
  λ w, let '(states, r) :=
         Checkpoint.to_excel_steps (to_excel_bytes site df) path (write_fault site) (fs w) in
       (r, {| log := (log w ++ [EvToExcel df path])%list;
              fs := Checkpoint.final states (fs w) |}).

(** The body of the [try]. *)
Definition scrape : St World () :=
  let* _ := call (EvGet URL) (get site URL) in
  let* _ := call (EvUntilTbody 30) (until_tbody site 30) in
  let* rows := call EvFindRows (Ok (table site)) in
  let data := collect rows in
  let df := DataFrame_of data in
  to_excel df OUTPUT.

(** The script from the creation of the driver to the end of [finally]. *)
Definition script : St World () :=
  let* _ := call EvChrome (chrome site) in
  try_finally scrape (call EvQuit (quit site)).
End with_site.

End Makaut.

(** * Vocabulary of the statements *)

Import PyStr Frame RowStore Runtime.

(** ** Reconciliation by URL, as the specification words it

    For each original row: if its URL matches a previously recorded URL, carry
    over that row's status and detail; otherwise mark it unresolved. *)

Definition carry (l r : gmap string cell) : gmap string cell :=
  <["status_detail" := value r "status_detail"]> (<["status" := value r "status"]> l).

Definition unresolved (l : gmap string cell) : gmap string cell :=
  <["status_detail" := NaN]> (<["status" := NaN]> l).

Definition same_url (url_col : string) (l r : gmap string cell) : bool :=
  key_eqb (value l url_col) (value r url_col).

Definition by_url (url_col : string) (prev : DataFrame) (l : gmap string cell)
  : list (gmap string cell) :=
  match List.filter (same_url url_col l) (rows prev) with
  | [] => [unresolved l]
  | ms => carry l <$> ms
  end.

(** The same with one row per original row, for a previous output in which
    a URL stands at most once: the first match is the only one. *)
Definition first_by_url (url_col : string) (prev : DataFrame) (l : gmap string cell)
  : gmap string cell :=
  match List.find (same_url url_col l) (rows prev) with
  | Some r => carry l r
  | None => unresolved l
  end.

(** No original row has two previous rows with its URL. *)
Definition urls_unique (url_col : string) (original_df prev : DataFrame) : Prop :=
  Forall (λ l, (length (List.filter (same_url url_col l) (rows prev)) ≤ 1)%nat)
         (rows original_df).

#[global] Instance urls_unique_dec url_col original_df prev :
  Decision (urls_unique url_col original_df prev).
Proof. unfold urls_unique. apply _. Defined.

(** The input carries none of the labels the script reserves for itself. *)
Definition plain_input (df : DataFrame) : Prop :=
  Forall (λ c, c ≠ "status" ∧ c ≠ "status_detail" ∧ c ≠ "__orig_index__"
               ∧ endswith c "_prev" = false) (columns df).

#[global] Instance plain_input_dec df : Decision (plain_input df).
Proof. unfold plain_input. apply _. Defined.

(** ** The merge, step by step *)

Definition indexed (i : nat) (l : gmap string cell) : gmap string cell :=
  <["__orig_index__" := Int (Z.of_nat i)]> l.

Definition cleanup (m : gmap string cell) : gmap string cell :=
  filter (λ kv : string * cell, bool_decide (kv.1 = "__orig_index__") = false)
         (filter (λ kv : string * cell, endswith kv.1 "_prev" = false) m).

Definition prev_subset (url_col : string) (prev : DataFrame) : DataFrame :=
  {| columns := [url_col; "status"; "status_detail"];
     rows := (λ r, filter (λ kv : string * cell,
                             kv.1 ∈ [url_col; "status"; "status_detail"]) r)
             <$> rows prev |}.

Definition indexed_df (original_df : DataFrame) : DataFrame :=
  setitem_index "__orig_index__" original_df.

Definition restrict (url_col : string) (r : gmap string cell) : gmap string cell :=
  filter (λ kv : string * cell, kv.1 ∈ [url_col; "status"; "status_detail"]) r.

(** ** Worked tables *)

Definition url_row (u : string) : gmap string cell := {[ "url" := Str u ]}.

Definition done_row (u status detail : string) : gmap string cell :=
  <["status_detail" := Str detail]> (<["status" := Str status]> (url_row u)).

Definition input_of (urls : list string) : DataFrame :=
  {| columns := ["url"]; rows := url_row <$> urls |}.

Definition output_of (rs : list (gmap string cell)) : DataFrame :=
  {| columns := ["url"; "status"; "status_detail"]; rows := rs |}.

(** Original rows A, B, C and a previous output holding A and C. *)
Definition abc : DataFrame :=
  input_of ["http://a.example"; "http://b.example"; "http://c.example"].

Definition ac_valid : DataFrame :=
  output_of [done_row "http://a.example" "valid" "selenium:ok";
             done_row "http://c.example" "valid" "selenium:ok"].

(** A previous output written when the input listed A twice, and the input
    after one of the two lines was removed. *)
Definition aab_valid : DataFrame :=
  output_of [done_row "http://a.example" "valid" "selenium:ok";
             done_row "http://a.example" "valid" "selenium:ok";
             done_row "http://b.example" "valid" "selenium:ok"].

Definition ab : DataFrame := input_of ["http://a.example"; "http://b.example"].

(** An input that lists A, B and C with a status column of its own: the
    state of the institution, not a verdict. *)
Definition listed_row (u : string) : gmap string cell :=
  <["status" := Str "Active"]> (url_row u).

Definition abc_listed : DataFrame :=
  {| columns := ["url"; "status"];
     rows := listed_row
             <$> ["http://a.example"; "http://b.example"; "http://c.example"] |}.

(** ** Logs, clocks and runs *)

(** [m] only appends events satisfying [P] and leaves the files alone. *)
Definition appends {A} (P : event → Prop) (m : M A) : Prop :=
  ∀ w, ∃ tl, log (m w).2 = (log w ++ tl)%list ∧ Forall P tl ∧ fs (m w).2 = fs w.

(** The Selenium calls of the render stage for [url]. *)
Definition render_event (url : string) (ev : event) : Prop :=
  match ev with
  | EvDriverGet u => u = url
  | EvUntilReady _ | EvUntilBody _ | EvSleep _ | EvBodyLength => True
  | _ => False
  end.

(** No character of [s] is white space. *)
Fixpoint no_space (s : string) : bool :=
  match s with
  | EmptyString => true
  | String c s' => negb (isspace c) && no_space s'
  end.

(** Two worlds with the same history whose clocks differ by [δ]. *)
Definition shifted (δ : Z) (w w' : World) : Prop :=
  log w' = log w ∧ now w' = (now w + δ)%Z.

(** Two outcomes: the same exception, or results related by [R]. *)
Definition res_rel {A} (R : A → A → Prop) (r r' : res A) : Prop :=
  match r, r' with
  | Ok a, Ok a' => R a a'
  | Raise e, Raise e' => e = e'
  | _, _ => False
  end.

(** Run from shifted worlds, [m] and [m'] end in shifted worlds with
    related results. *)
Definition sim {A} (δ : Z) (R : A → A → Prop) (m m' : M A) : Prop :=
  ∀ w w', shifted δ w w' →
          res_rel R (m w).1 (m' w').1 ∧ shifted δ (m w).2 (m' w').2.

(** The environment [env] with another answer to [requests.get]. *)
Definition with_probe (env : Env) (probe : list event → string → res Z * Z) : Env :=
  {| requests_get := probe;
     webdriver_chrome := webdriver_chrome env;
     driver_get := driver_get env;
     until_ready := until_ready env;
     until_body := until_body env;
     body_length := body_length env;
     driver_quit := driver_quit env;
     mkstemp := mkstemp env;
     write_fault := write_fault env;
     to_csv := to_csv env;
     to_excel_bytes := to_excel_bytes env;
     json_dumps := json_dumps env;
     read_csv := read_csv env;
     json_loads := json_loads env;
     format_1f := format_1f env |}.

(** The probe returned: it completed with a status code or the request failed. *)
Definition probe_returns (answer : res Z * Z) : Prop :=
  match answer.1 with
  | Ok _ => True
  | Raise e => is_Exception e = true
  end.

(** Same status, and details that differ at most in the [requests_ok] flag. *)
Definition same_verdict (r1 r2 : string * string) : Prop :=
  r1.1 = r2.1 ∧
  ∃ render f1 f2, r1.2 = render +:+ "; requests_ok:" +:+ of_bool f1
                ∧ r2.2 = render +:+ "; requests_ok:" +:+ of_bool f2.

(** ** A scripted environment for worked runs *)

Definition nl : string := String "010"%char "".

Definition csv_line (cells : list string) : string := String.concat "," cells.

Definition csv_of (df : DataFrame) : string :=
  String.concat nl
    (csv_line (columns df)
     :: ((λ r, csv_line ((λ c, str (value r c)) <$> columns df)) <$> rows df)).

Definition json_of (meta : gmap string json) : string :=
  match meta !! "last_processed_index" with
  | Some (JNum z) => "{last_processed_index: " +:+ pretty z +:+ "}"
  | _ => "{last_processed_index: null}"
  end.

(** How a site answers the browser: navigation time, time until
    [document.readyState] is complete ([None]: never), length of the body. *)
Record page := { nav_ms : Z; ready_after : option Z; body_chars : Z }.

(** The URL of the last [driver.get] in a history: the page the browser is on. *)
Fixpoint last_get (l : list event) : string :=
  match l with
  | [] => ""
  | ev :: l' =>
      match last_get l', ev with
      | EmptyString, EvDriverGet u => u
      | u, _ => u
      end
  end.

(** Milliseconds as seconds with one decimal. *)
Definition tenths (ms : Z) : string :=
  let t := ((ms + 50) / 100)%Z in pretty (t / 10)%Z +:+ "." +:+ pretty (t mod 10)%Z.

(** Every probe answers 200 after 0.12 s, the browser follows [site], writes
    never fail, and [read_csv] knows the files listed in [files]. *)
Definition scripted (site : string → page) (files : list (string * DataFrame)) : Env :=
  {| requests_get := λ _ _, (Ok 200%Z, 120%Z);
     webdriver_chrome := λ _, (Ok (), 0%Z);
     driver_get := λ _ u, (Ok (), nav_ms (site u));
     until_ready := λ l t,
       match ready_after (site (last_get l)) with
       | Some d => if (d <=? 1000 * t)%Z then (Ok (), d)
                   else (Raise (TimeoutException "Message: "), (1000 * t)%Z)
       | None => (Raise (TimeoutException "Message: "), (1000 * t)%Z)
       end;
     until_body := λ _ _, (Ok (), 0%Z);
     body_length := λ l, (Ok (Some (body_chars (site (last_get l)))), 5%Z);
     driver_quit := λ _, (Ok (), 0%Z);
     mkstemp := λ _ dir, dir +:+ "\tmpk3v9x2aq.tmp";
     write_fault := λ _, NoFault;
     to_csv := csv_of;
     to_excel_bytes := csv_of;
     json_dumps := json_of;
     read_csv := λ data,
       match List.find (λ kv, bool_decide (kv.1 = data)) files with
       | Some kv => Ok kv.2
       | None => Raise (ValueError "No columns to parse from file")
       end;
     json_loads := λ _, Raise (ValueError "Expecting value");
     format_1f := tenths |}.

Definition quick : page := {| nav_ms := 800; ready_after := Some 300%Z; body_chars := 5120 |}.

Definition hung : page := {| nav_ms := 20500; ready_after := None; body_chars := 0 |}.


(** A site where only [http://b.example] never finishes loading. *)
Definition b_hangs (u : string) : page :=
  if bool_decide (u = "http://b.example") then hung else quick.

Definition boot : World := {| now := 0; log := []; fs := ∅ |}.

(** A run directory: the input file and a previous output. *)
Definition disk (input previous : string) : World :=
  {| now := 0; log := [];
     fs := {[ INPUT_PATH source_config := input;
              OUTPUT_CSV source_config := previous ]} |}.

Definition a_only : DataFrame := input_of ["http://a.example"].

Definition ab_valid : DataFrame :=
  output_of [done_row "http://a.example" "valid" "selenium:ok";
             done_row "http://b.example" "valid" "selenium:ok"].

Definition b_valid : DataFrame :=
  output_of [done_row "http://b.example" "valid" "selenium:ok"].

(** The temporary file [atomic_write_csv] gets from [mkstemp] for [path]. *)
Definition tmp_for (env : Env) (path : string) (hist : list event) : string :=
  mkstemp env hist (match Checkpoint.dirname path with EmptyString => "." | d => d end).

(** The driver's [quit] returned, or failed with an [Exception]. *)
Definition quit_returns (env : Env) (hist : list event) : Prop :=
  match (driver_quit env hist).1 with
  | Ok _ => True
  | Raise e => is_Exception e = true
  end.

(** The three files the final save writes do not overwrite the table. *)
Definition separate_paths (cfg : Config) : Prop :=
  OUTPUT_XLSX cfg ≠ OUTPUT_CSV cfg
  ∧ CHECKPOINT_JSON cfg ≠ OUTPUT_CSV cfg
  ∧ CHECKPOINT_JSON cfg +:+ ".tmp" ≠ OUTPUT_CSV cfg.

#[global] Instance separate_paths_dec cfg : Decision (separate_paths cfg).
Proof. unfold separate_paths. apply _. Defined.

(** A run interrupted (Ctrl-C during the probe) while it processes B. *)
Definition interrupted_at_b : Env :=
  with_probe (scripted b_hangs [("input", ab)])
    (λ _ u, if bool_decide (u = "http://b.example")
            then (Raise KeyboardInterrupt, 40%Z) else (Ok 200%Z, 120%Z)).

(** The locals of [main] just before its [try:], on an empty disk. *)
Definition from_row_0 (d : DataFrame) : Driver.Locals * World :=
  ({| Driver.df := d; Driver.meta := {[ "last_processed_index" := JNull ]};
      Driver.processed_since_save := 0 |}, boot).

(** Relative to the table [d0] the loop started from, the locals still have
    its columns and its rows outside the index set [S]. *)
Definition outside (d0 : DataFrame) (S : nat → Prop) (l : Driver.Locals) : Prop :=
  columns (Driver.df l) = columns d0
  ∧ ∀ j, ¬ S j → rows (Driver.df l) !! j = rows d0 !! j.

(** [m] changes no column and no row outside [S]. *)
Definition keeps {A} (d0 : DataFrame) (S : nat → Prop) (m : Driver.D A) : Prop :=
  ∀ s, outside d0 S s.1 → outside d0 S (m s).2.1.

(** ** Column detection *)

(** The label is url, link or website, up to case and surrounding white space. *)
Definition named_url (col : string) : bool :=
  bool_decide (lower (strip col) ∈ ["url"; "link"; "website"]).

(** One of the first 20 values of the column starts with http:// or https://. *)
Definition links_in_head (df : DataFrame) (col : string) : bool :=
  existsb (λ r, is_http (str (value r col))) (take 20 (rows df)).

(** [x] is the first element of [l] that satisfies [p]. *)
Definition first_with {A} (p : A → bool) (l : list A) (x : A) : Prop :=
  ∃ before after, l = (before ++ x :: after)%list ∧ p x = true
                  ∧ Forall (λ y, p y = false) before.

(** The frame [df] with other rows under the same labels. *)
Definition with_rows (df : DataFrame) (rs : list (gmap string cell)) : DataFrame :=
  {| columns := columns df; rows := rs |}.

(** A table of one column [site] whose only link stands in row 20, after
    twenty rows without one. *)
Definition late_link : DataFrame :=
  {| columns := ["site"];
     rows := replicate 20 {[ "site" := Str "a.example" ]}
             ++ [ {[ "site" := Str "http://b.example" ]} ] |}.

(** A table whose first column holds links and whose second is named for them. *)
Definition two_candidates : DataFrame :=
  {| columns := ["homepage"; " Link "];
     rows := [ {[ "homepage" := Str "http://a.example"; " Link " := Str "a.example" ]} ] |}.

(** ** Cells of the working table *)

(** Every character of [s] is white space. *)
Fixpoint blank (s : string) : bool :=
  match s with
  | EmptyString => true
  | String c s' => isspace c && blank s'
  end.

(** The status cell of row [j], if the table has such a row. *)
Definition status_of (d : DataFrame) (j : nat) : option cell :=
  (λ r, value r "status") <$> rows d !! j.

(** The cell of row [j] under the label [c], if the table has one. *)
Definition cell_at (d : DataFrame) (j : nat) (c : string) : option cell :=
  rows d !! j ≫= λ r, r !! c.

(** A final status. *)
Definition terminal (v : cell) : Prop := v = Str "valid" ∨ v = Str "invalid".

(** Every row of the table has a cell under [url_col]. *)
Definition has_url_cells (url_col : string) (d : DataFrame) : Prop :=
  Forall (λ r : gmap string cell, is_Some (r !! url_col)) (rows d).

#[global] Instance has_url_cells_dec url_col d : Decision (has_url_cells url_col d).
Proof. unfold has_url_cells. apply _. Defined.


(** The URL row [idx] of the table is to be verified with, if the row has a
    cell under [url_col] that is no placeholder. *)
Definition to_verify (url_col : string) (d : DataFrame) (idx : nat) : option string :=
  match cell_at d idx url_col with
  | Some v =>
      let raw := strip (str v) in
      if Verifier.is_placeholder raw then None else Some (Verifier.effective_url raw)
  | None => None
  end.

(** ** Outcomes and calls of a computation *)

(** The outcome is a return, or an exception that is no [Exception] (in this
    model: [KeyboardInterrupt]). *)
Definition no_Exception {A} (r : res A) : Prop :=
  match r with
  | Ok _ => True
  | Raise e => is_Exception e = false
  end.


Definition is_probe (ev : event) : bool :=
  match ev with EvRequestsGet _ => true | _ => false end.

Definition is_navigation (ev : event) : bool :=
  match ev with EvDriverGet _ => true | _ => false end.

Definition is_ready_wait (ev : event) : bool :=
  match ev with EvUntilReady _ => true | _ => false end.

Definition is_csv_write (ev : event) : bool :=
  match ev with EvAtomicWriteCsv _ _ => true | _ => false end.

Definition is_quit (ev : event) : bool :=
  match ev with EvDriverQuit => true | _ => false end.

(** How many events of a history satisfy [f]. *)
Definition count (f : event → bool) (l : list event) : nat :=
  length (List.filter f l).

(** [m] makes at most [n] calls that satisfy [f]. *)
Definition at_most {A} (f : event → bool) (n : nat) (m : M A) : Prop :=
  ∀ w, ∃ tl, log (m w).2 = (log w ++ tl)%list ∧ (count f tl ≤ n)%nat.

(** The calls of one readiness check that runs to its end. *)
Definition wait_events (cfg : Config) (t : Z) : list event :=
  [EvUntilReady t; EvUntilBody t; EvSleep (EXTRA_JS_SETTLE cfg); EvBodyLength].

(** The URL a network call is made with, if the event is one. *)
Definition url_of (ev : event) : option string :=
  match ev with
  | EvRequestsGet u | EvDriverGet u => Some u
  | _ => None
  end.

(** The URLs of the requests in a history, in order. *)
Definition probed (l : list event) : list string :=
  omap (λ ev, match ev with EvRequestsGet u => Some u | _ => None end) l.

(** Two results of a readiness check or of the render stage with the same flag. *)
Definition same_flag (r r' : bool * string) : Prop := r.1 = r'.1.

(** ** The locals of the row loop *)

(** The locals of [main] once row [idx] has its verdict. *)
Definition recorded (idx : nat) (status detail : string) (l : Driver.Locals)
  : Driver.Locals :=
  {| Driver.df := set_at (set_at (Driver.df l) idx "status" (Str status))
                         idx "status_detail" (Str detail);
     Driver.meta := <["last_processed_index" := JNum (Z.of_nat idx)]> (Driver.meta l);
     Driver.processed_since_save := Driver.processed_since_save l + 1 |}.

(** The locals after a checkpoint: the counter starts again. *)
Definition counted_from_0 (l : Driver.Locals) : Driver.Locals :=
  {| Driver.df := Driver.df l; Driver.meta := Driver.meta l;
     Driver.processed_since_save := 0 |}.

(** ** Other settings, other answers *)

(** The settings [cfg] with another [BODY_MIN_LENGTH]. *)
Definition with_body_min (cfg : Config) (n : Z) : Config :=
  {| INPUT_PATH := INPUT_PATH cfg;
     OUTPUT_CSV := OUTPUT_CSV cfg;
     OUTPUT_XLSX := OUTPUT_XLSX cfg;
     CHECKPOINT_JSON := CHECKPOINT_JSON cfg;
     REQUESTS_TIMEOUT := REQUESTS_TIMEOUT cfg;
     SELENIUM_PAGE_LOAD_TIMEOUT := SELENIUM_PAGE_LOAD_TIMEOUT cfg;
     SELENIUM_WAIT_SHORT := SELENIUM_WAIT_SHORT cfg;
     SELENIUM_WAIT_LONG := SELENIUM_WAIT_LONG cfg;
     SELENIUM_MAX_WAIT_PER_URL := SELENIUM_MAX_WAIT_PER_URL cfg;
     BODY_MIN_LENGTH := n;
     EXTRA_JS_SETTLE := EXTRA_JS_SETTLE cfg;
     AUTOSAVE_EVERY := AUTOSAVE_EVERY cfg;
     FORCE_RESTART := FORCE_RESTART cfg |}.

(** The settings [cfg] with another [AUTOSAVE_EVERY]. *)
Definition with_autosave (cfg : Config) (k : Z) : Config :=
  {| INPUT_PATH := INPUT_PATH cfg;
     OUTPUT_CSV := OUTPUT_CSV cfg;
     OUTPUT_XLSX := OUTPUT_XLSX cfg;
     CHECKPOINT_JSON := CHECKPOINT_JSON cfg;
     REQUESTS_TIMEOUT := REQUESTS_TIMEOUT cfg;
     SELENIUM_PAGE_LOAD_TIMEOUT := SELENIUM_PAGE_LOAD_TIMEOUT cfg;
     SELENIUM_WAIT_SHORT := SELENIUM_WAIT_SHORT cfg;
     SELENIUM_WAIT_LONG := SELENIUM_WAIT_LONG cfg;
     SELENIUM_MAX_WAIT_PER_URL := SELENIUM_MAX_WAIT_PER_URL cfg;
     BODY_MIN_LENGTH := BODY_MIN_LENGTH cfg;
     EXTRA_JS_SETTLE := EXTRA_JS_SETTLE cfg;
     AUTOSAVE_EVERY := k;
     FORCE_RESTART := FORCE_RESTART cfg |}.

(** The settings [cfg] with another [FORCE_RESTART]. *)
Definition with_force_restart (cfg : Config) (b : bool) : Config :=
  {| INPUT_PATH := INPUT_PATH cfg;
     OUTPUT_CSV := OUTPUT_CSV cfg;
     OUTPUT_XLSX := OUTPUT_XLSX cfg;
     CHECKPOINT_JSON := CHECKPOINT_JSON cfg;
     REQUESTS_TIMEOUT := REQUESTS_TIMEOUT cfg;
     SELENIUM_PAGE_LOAD_TIMEOUT := SELENIUM_PAGE_LOAD_TIMEOUT cfg;
     SELENIUM_WAIT_SHORT := SELENIUM_WAIT_SHORT cfg;
     SELENIUM_WAIT_LONG := SELENIUM_WAIT_LONG cfg;
     SELENIUM_MAX_WAIT_PER_URL := SELENIUM_MAX_WAIT_PER_URL cfg;
     BODY_MIN_LENGTH := BODY_MIN_LENGTH cfg;
     EXTRA_JS_SETTLE := EXTRA_JS_SETTLE cfg;
     AUTOSAVE_EVERY := AUTOSAVE_EVERY cfg;
     FORCE_RESTART := b |}.

(** The environment [env] with another answer to [driver.get]. *)
Definition with_navigation (env : Env) (answer : list event → string → res () * Z) : Env :=
  {| requests_get := requests_get env;
     webdriver_chrome := webdriver_chrome env;
     driver_get := answer;
     until_ready := until_ready env;
     until_body := until_body env;
     body_length := body_length env;
     driver_quit := driver_quit env;
     mkstemp := mkstemp env;
     write_fault := write_fault env;
     to_csv := to_csv env;
     to_excel_bytes := to_excel_bytes env;
     json_dumps := json_dumps env;
     read_csv := read_csv env;
     json_loads := json_loads env;
     format_1f := format_1f env |}.

(** The environment [env] with another answer to the start of the browser. *)
Definition with_chrome (env : Env) (answer : list event → res () * Z) : Env :=
  {| requests_get := requests_get env;
     webdriver_chrome := answer;
     driver_get := driver_get env;
     until_ready := until_ready env;
     until_body := until_body env;
     body_length := body_length env;
     driver_quit := driver_quit env;
     mkstemp := mkstemp env;
     write_fault := write_fault env;
     to_csv := to_csv env;
     to_excel_bytes := to_excel_bytes env;
     json_dumps := json_dumps env;
     read_csv := read_csv env;
     json_loads := json_loads env;
     format_1f := format_1f env |}.

(** The environment [env] in which writes stop as [faults] says. *)
Definition with_write_fault (env : Env) (faults : list event → fault) : Env :=
  {| requests_get := requests_get env;
     webdriver_chrome := webdriver_chrome env;
     driver_get := driver_get env;
     until_ready := until_ready env;
     until_body := until_body env;
     body_length := body_length env;
     driver_quit := driver_quit env;
     mkstemp := mkstemp env;
     write_fault := faults;
     to_csv := to_csv env;
     to_excel_bytes := to_excel_bytes env;
     json_dumps := json_dumps env;
     read_csv := read_csv env;
     json_loads := json_loads env;
     format_1f := format_1f env |}.

(** The environment [env] with another parser for the checkpoint record. *)
Definition with_json_loads (env : Env) (loads : string → res (gmap string json)) : Env :=
  {| requests_get := requests_get env;
     webdriver_chrome := webdriver_chrome env;
     driver_get := driver_get env;
     until_ready := until_ready env;
     until_body := until_body env;
     body_length := body_length env;
     driver_quit := driver_quit env;
     mkstemp := mkstemp env;
     write_fault := write_fault env;
     to_csv := to_csv env;
     to_excel_bytes := to_excel_bytes env;
     json_dumps := json_dumps env;
     read_csv := read_csv env;
     json_loads := loads;
     format_1f := format_1f env |}.



(** The exception a write stops with, if it does. *)
Definition fault_exn (f : fault) : option exn :=
  match f with
  | NoFault => None
  | WriteFails _ e | ReplaceFails e => Some e
  end.

(** A disk that fills up just before the final save. *)
Definition full_after_quit (hist : list event) : fault :=
  if existsb is_quit hist then WriteFails 10 (OSError "No space left on device")
  else NoFault.

(** A checkpoint record as the loop leaves it after row 1. *)
Definition after_row_1 : gmap string json := {[ "last_processed_index" := JNum 1 ]}.

(** A parser that reads back what [json_of] writes for [after_row_1]. *)
Definition loads_after_row_1 (data : string) : res (gmap string json) :=
  if bool_decide (data = json_of after_row_1) then Ok after_row_1
  else Raise (ValueError "Expecting value").

(** A run directory that holds the input file and nothing else. *)
Definition input_only (input : string) : World :=
  {| now := 0; log := []; fs := {[ INPUT_PATH source_config := input ]} |}.

(** ** The college list *)

(** The labels of the spreadsheet, in order. *)
Definition college_labels : list string :=
  ["Sr No"; "College Code"; "College Name"; "College Website URL"].

(** No character of [s] is a line feed. *)
Fixpoint one_line (s : string) : bool :=
  match s with
  | EmptyString => true
  | String c s' => negb (bool_decide (c = Makaut.newline)) && one_line s'
  end.

(** The calls of the scraping up to its first failure. *)
Definition scrape_trace (site : Makaut.Site) : list Makaut.event :=
  match Makaut.get site Makaut.URL, Makaut.until_tbody site 30 with
  | Raise _, _ => [Makaut.EvGet Makaut.URL]
  | Ok _, Raise _ => [Makaut.EvGet Makaut.URL; Makaut.EvUntilTbody 30]
  | Ok _, Ok _ =>
      [Makaut.EvGet Makaut.URL; Makaut.EvUntilTbody 30; Makaut.EvFindRows;
       Makaut.EvToExcel (Makaut.DataFrame_of (Makaut.collect (Makaut.table site)))
                        Makaut.OUTPUT]
  end.

(** A row of the page whose college has a link, the name broken over two
    lines. *)
Definition linked_row : list Makaut.td :=
  [ {| Makaut.text := " 1 "; Makaut.anchor := None |};
    {| Makaut.text := "101"; Makaut.anchor := None |};
    {| Makaut.text := "A College";
       Makaut.anchor :=
         Some {| Makaut.a_text := String "A" (String Makaut.newline "College ");
                 Makaut.href := Some "http://a.example" |} |} ].

(** A page with a heading row, a college with a link and one without. *)
Definition sample_table : list (list Makaut.td) :=
  [ [ {| Makaut.text := "Affiliated Colleges"; Makaut.anchor := None |} ];
    linked_row;
    [ {| Makaut.text := "2"; Makaut.anchor := None |};
      {| Makaut.text := "102"; Makaut.anchor := None |};
      {| Makaut.text := "B College"; Makaut.anchor := None |};
      {| Makaut.text := "closed"; Makaut.anchor := None |} ] ].

(** A browser that starts and navigates, on a page whose table never appears. *)
Definition no_table_site : Makaut.Site :=
  {| Makaut.chrome := Ok ();
     Makaut.get := λ _, Ok ();
     Makaut.until_tbody := λ _, Raise (TimeoutException "Message: ");
     Makaut.table := [];
     Makaut.quit := Ok ();
     Makaut.write_fault := NoFault;
     Makaut.to_excel_bytes := csv_of |}.

Definition empty_disk : Makaut.World := {| Makaut.log := []; Makaut.fs := ∅ |}.

(** * Properties *)

(** ** Data frames *)

Section frame_lemmas.
Implicit Types (l r : gmap string cell) (c : string) (df : DataFrame).

Lemma has_column_true c df : c ∈ columns df → has_column c df = true.
Proof. intros. by apply bool_decide_eq_true_2. Qed.

Lemma has_column_false c df : c ∉ columns df → has_column c df = false.
Proof. intros. by apply bool_decide_eq_false_2. Qed.

Lemma add_label_new c (cs : list string) : c ∉ cs → add_label c cs = (cs ++ [c])%list.
Proof. intros. unfold add_label. by rewrite bool_decide_eq_false_2. Qed.

Lemma wf_lookup df l c :
  wf df → l ∈ rows df → is_Some (l !! c) ↔ c ∈ columns df.
Proof.
  intros [_ Hdom] Hl. rewrite Forall_forall in Hdom.
  rewrite <- elem_of_dom, (Hdom _ Hl). apply elem_of_list_to_set.
Qed.

Lemma value_insert_ne l c c' v : c ≠ c' → value (<[c := v]> l) c' = value l c'.
Proof. intros. unfold value. by rewrite lookup_insert_ne. Qed.

Lemma value_restrict (cs : list string) l c :
  c ∈ cs → value (filter (λ kv : string * cell, kv.1 ∈ cs) l) c = value l c.
Proof.
  intros Hc. unfold value. rewrite map_lookup_filter.
  destruct (l !! c) as [v|]; simpl; [|done].
  by rewrite option_guard_True.
Qed.

Lemma filter_all {A} (p : A → bool) (xs : list A) :
  Forall (λ x, p x = true) xs → List.filter p xs = xs.
Proof.
  induction 1 as [|x xs Hx _ IH]; [done|].
  cbn [List.filter]. by rewrite Hx, IH.
Qed.

Lemma fmap_bind_imap {A B C} (h : nat → A → A) (g : A → list B) (f : B → C)
    (b : A → list C) (xs : list A) :
  (∀ i x, x ∈ xs → f <$> g (h i x) = b x) →
  f <$> (imap h xs ≫= g) = xs ≫= b.
Proof.
  revert h. induction xs as [|x xs IH]; intros h Hh; [done|].
  rewrite imap_cons. cbn [mbind list_bind]. rewrite fmap_app.
  rewrite Hh by apply list_elem_of_here. f_equal.
  apply IH. intros i y Hy. apply Hh. by apply list_elem_of_further.
Qed.
End frame_lemmas.

Section merge_by_url_lemmas.
Context (url_col : string) (original_df prev : DataFrame).
Context (Hwf : wf original_df) (Hplain : plain_input original_df).
Context (Hurl : url_col ∈ columns original_df) (Hurl' : url_col ∈ columns prev).
Context (Hst : "status" ∈ columns prev) (Hsd : "status_detail" ∈ columns prev).

Lemma plain_in c :
  c ∈ columns original_df →
  c ≠ "status" ∧ c ≠ "status_detail" ∧ c ≠ "__orig_index__"
           ∧ endswith c "_prev" = false.
Proof.
  intros Hc. unfold plain_input in Hplain.
  by rewrite Forall_forall in Hplain; apply Hplain.
Qed.

Lemma reserved_notin :
  "status" ∉ columns original_df ∧ "status_detail" ∉ columns original_df
  ∧ "__orig_index__" ∉ columns original_df.
Proof. repeat split; intros H%plain_in; naive_solver. Qed.

Lemma url_col_plain :
  url_col ≠ "status" ∧ url_col ≠ "status_detail" ∧ url_col ≠ "__orig_index__".
Proof. destruct (plain_in _ Hurl) as (?&?&?&?). done. Qed.

Lemma prev_subset_ok :
  (if has_column "status" prev
   then getitem_list [url_col; "status"; "status_detail"] prev
   else getitem_list [url_col] prev)
  = Ok {| columns := [url_col; "status"; "status_detail"];
          rows := (λ r, filter (λ kv : string * cell,
                                  kv.1 ∈ [url_col; "status"; "status_detail"]) r)
                  <$> rows prev |}.
Proof.
  rewrite (has_column_true "status") by done.
  unfold getitem_list. simpl.
  by rewrite !has_column_true.
Qed.

Lemma guard_false_eq {A} (b : bool) (x : A) :
  (guard (b = false) ≫= λ _, Some x) = if b then None else Some x.
Proof. destruct b; by case_guard. Qed.

Lemma cleanup_lookup m k :
  cleanup m !! k =
  if decide (k = "__orig_index__" ∨ endswith k "_prev" = true) then None else m !! k.
Proof.
  unfold cleanup. rewrite !map_lookup_filter.
  destruct (m !! k) as [v|]; cbn [mbind option_bind fst]; [|by case_decide].
  rewrite guard_false_eq.
  destruct (endswith k "_prev") eqn:He; cbn [mbind option_bind fst].
  - by rewrite decide_True by auto.
  - rewrite guard_false_eq. case_bool_decide as Hi; case_decide as Hk; try done.
    + tauto.
    + destruct Hk; congruence.
Qed.

Lemma cleanup_row l i a b :
  dom l = list_to_set (columns original_df) →
  cleanup (<["status" := a]> (<["status_detail" := b]> (indexed i l)))
  = <["status_detail" := b]> (<["status" := a]> l).
Proof.
  intros Hdom. apply map_eq. intros k. rewrite cleanup_lookup. unfold indexed.
  rewrite !lookup_insert.
  destruct (decide ("status" = k)) as [<-|]; [by case_decide as H; [destruct H|]|].
  destruct (decide ("status_detail" = k)) as [<-|]; [by case_decide as H; [destruct H|]|].
  destruct (decide ("__orig_index__" = k)) as [<-|].
  - rewrite decide_True by auto. symmetry. apply not_elem_of_dom.
    rewrite Hdom, elem_of_list_to_set. apply reserved_notin.
  - case_decide as H; [|done]. destruct H as [->|He]; [done|].
    symmetry. apply not_elem_of_dom. rewrite Hdom, elem_of_list_to_set.
    intros Hin%plain_in. destruct Hin as (_&_&_&Hp). congruence.
Qed.

Lemma indexed_columns :
  columns (indexed_df original_df) = (columns original_df ++ ["__orig_index__"])%list.
Proof. apply add_label_new, reserved_notin. Qed.

Lemma right_labels_eq :
  right_labels url_col (prev_subset url_col prev) = ["status"; "status_detail"].
Proof.
  destruct url_col_plain as (?&?&?).
  unfold right_labels. cbn [columns prev_subset List.filter].
  rewrite bool_decide_eq_true_2 by done.
  by rewrite !bool_decide_eq_false_2 by done.
Qed.

Lemma rename_status c :
  c = "status" ∨ c = "status_detail" → rename "_prev" (indexed_df original_df) c = c.
Proof.
  intros Hc. unfold rename. rewrite has_column_false; [done|].
  rewrite indexed_columns, elem_of_app, list_elem_of_singleton.
  destruct reserved_notin as (?&?&?).
  intros [?|?]; destruct Hc; congruence.
Qed.

Lemma extend_eq l ro :
  extend url_col "_prev" (indexed_df original_df) (prev_subset url_col prev) l ro
  = <["status" := from_option (λ r, value r "status") NaN ro]>
      (<["status_detail" := from_option (λ r, value r "status_detail") NaN ro]> l).
Proof.
  unfold extend. rewrite right_labels_eq. cbn [foldr].
  by rewrite !rename_status by auto.
Qed.

Lemma matches_eq i l :
  matches url_col (prev_subset url_col prev) (indexed i l)
  = restrict url_col <$> List.filter (same_url url_col l) (rows prev).
Proof.
  destruct url_col_plain as (?&?&?).
  unfold matches. cbn [rows prev_subset].
  change (list_fmap _ _ ?f ?l) with (map f l). fold (restrict url_col).
  rewrite filter_map_swap. f_equal. apply filter_ext. intros r.
  unfold same_url, indexed, restrict. rewrite value_insert_ne by done.
  rewrite value_restrict; [done|]. apply list_elem_of_here.
Qed.

Lemma cleanup_extend i l r :
  dom l = list_to_set (columns original_df) →
  cleanup (extend url_col "_prev" (indexed_df original_df) (prev_subset url_col prev)
             (indexed i l) (Some (restrict url_col r)))
  = carry l r.
Proof.
  intros Hdom. rewrite extend_eq. cbn [from_option]. unfold restrict.
  rewrite !value_restrict by set_solver. by rewrite cleanup_row.
Qed.

Lemma join_row_eq i l :
  dom l = list_to_set (columns original_df) →
  cleanup <$> join_row url_col "_prev" (indexed_df original_df)
                       (prev_subset url_col prev) (indexed i l)
  = by_url url_col prev l.
Proof.
  intros Hdom. unfold join_row, by_url. rewrite matches_eq.
  destruct (List.filter (same_url url_col l) (rows prev)) as [|m ms].
  - cbn [fmap list_fmap]. rewrite extend_eq. cbn [from_option]. by rewrite cleanup_row.
  - change (restrict url_col <$> m :: ms)
      with (restrict url_col m :: (restrict url_col <$> ms)).
    cbv iota beta.
    change (restrict url_col m :: (restrict url_col <$> ms))
      with (restrict url_col <$> m :: ms).
    rewrite <- !list_fmap_compose. apply list_fmap_ext. intros _ r _.
    cbn [compose]. by apply cleanup_extend.
Qed.

Lemma merged_labels_eq :
  merged_labels url_col "_prev" (indexed_df original_df) (prev_subset url_col prev)
  = ((columns original_df ++ ["__orig_index__"]) ++ ["status"; "status_detail"])%list.
Proof.
  unfold merged_labels. rewrite right_labels_eq, indexed_columns.
  cbn [fmap list_fmap]. by rewrite !rename_status by auto.
Qed.

Lemma merged_labels_NoDup :
  NoDup ((columns original_df ++ ["__orig_index__"]) ++ ["status"; "status_detail"])%list.
Proof.
  destruct reserved_notin as (?&?&?). destruct Hwf as [Hnd _].
  apply NoDup_app. split_and!.
  - apply NoDup_app. split_and!; [done| |apply NoDup_singleton].
    intros c Hc ->%list_elem_of_singleton. done.
  - intros c [Hc| ->%list_elem_of_singleton]%elem_of_app Hc'.
    + apply plain_in in Hc as (?&?&?&?). set_solver.
    + set_solver.
  - apply NoDup_cons. split; [set_solver|apply NoDup_singleton].
Qed.

Lemma kept_labels :
  List.filter (λ c, negb (bool_decide (c = "__orig_index__")))
    (List.filter (λ c, negb (endswith c "_prev"))
       ((columns original_df ++ ["__orig_index__"]) ++ ["status"; "status_detail"]))
  = (columns original_df ++ ["status"; "status_detail"])%list.
Proof.
  rewrite !List.filter_app.
  rewrite (filter_all _ (columns original_df)); last first.
  { apply Forall_forall. intros c (_&_&_&->)%plain_in. done. }
  rewrite (filter_all _ (columns original_df)); last first.
  { apply Forall_forall. intros c (_&_&?&_)%plain_in.
    by rewrite bool_decide_eq_false_2. }
  by rewrite app_nil_r.
Qed.

Lemma merge_by_url_eq :
  merge_by_url url_col original_df prev
  = Ok {| columns := columns original_df ++ ["status"; "status_detail"];
          rows := rows original_df ≫= by_url url_col prev |}.
Proof.
  unfold merge_by_url. rewrite prev_subset_ok.
  fold (prev_subset url_col prev) (indexed_df original_df).
  cbn [res_bind]. unfold merge_left.
  rewrite (has_column_true url_col (indexed_df original_df)); last first.
  { rewrite indexed_columns. set_solver. }
  rewrite (has_column_true url_col (prev_subset url_col prev)) by apply list_elem_of_here.
  cbn [andb negb]. rewrite merged_labels_eq.
  rewrite bool_decide_eq_true_2 by apply merged_labels_NoDup.
  cbn [res_bind].
  rewrite (has_column_true "status") by (cbn [columns]; set_solver).
  rewrite (has_column_true "status_detail") by (cbn [columns]; set_solver).
  unfold drop_columns. cbn [columns rows]. rewrite kept_labels.
  do 2 f_equal. rewrite <- list_fmap_compose.
  apply (fmap_bind_imap indexed).
  intros i l Hl. apply join_row_eq.
  destruct Hwf as [_ Hdom]. rewrite Forall_forall in Hdom. by apply Hdom.
Qed.
End merge_by_url_lemmas.

(** ** Row store: reconciliation *)

Section reconcile_theorems.
Implicit Types (url_col : string) (original_df prev : DataFrame).

Lemma by_url_cases url_col prev l m :
  m ∈ by_url url_col prev l →
  (m = unresolved l ∧ ∀ r, r ∈ rows prev → same_url url_col l r = false)
  ∨ (∃ r, r ∈ rows prev ∧ same_url url_col l r = true ∧ m = carry l r).
Proof.
  unfold by_url.
  destruct (List.filter (same_url url_col l) (rows prev)) as [|r0 rs] eqn:Hf.
  - intros ->%list_elem_of_singleton. left. split; [done|].
    intros r Hr. destruct (same_url url_col l r) eqn:Hs; [|done].
    assert (In r []) as []. rewrite <- Hf. apply filter_In.
    split; [by apply list_elem_of_In|done].
  - intros (r & -> & Hr)%list_elem_of_fmap. right. exists r.
    rewrite <- Hf in Hr. apply list_elem_of_In, filter_In in Hr as [Hr ?].
    by apply list_elem_of_In in Hr.
Qed.

Lemma by_url_carry url_col prev l r :
  r ∈ rows prev → same_url url_col l r = true → carry l r ∈ by_url url_col prev l.
Proof.
  intros Hr Hs. unfold by_url.
  assert (r ∈ List.filter (same_url url_col l) (rows prev)) as Hin.
  { apply list_elem_of_In, filter_In. by rewrite <- list_elem_of_In. }
  destruct (List.filter (same_url url_col l) (rows prev)); [by inversion Hin|].
  by apply list_elem_of_fmap_2.
Qed.

Lemma by_url_unresolved url_col prev l :
  (∀ r, r ∈ rows prev → same_url url_col l r = false) →
  by_url url_col prev l = [unresolved l].
Proof.
  intros Hno. unfold by_url.
  destruct (List.filter (same_url url_col l) (rows prev)) as [|r rs] eqn:Hf; [done|].
  assert (In r (List.filter (same_url url_col l) (rows prev))) as Hin
    by (rewrite Hf; left; done).
  apply filter_In in Hin as [Hin Hs]. apply list_elem_of_In in Hin.
  rewrite Hno in Hs; done.
Qed.

Lemma by_url_first url_col prev l :
  (length (List.filter (same_url url_col l) (rows prev)) ≤ 1)%nat →
  by_url url_col prev l = [first_by_url url_col prev l].
Proof.
  unfold by_url, first_by_url.
  assert (List.find (same_url url_col l) (rows prev)
          = head (List.filter (same_url url_col l) (rows prev))) as ->.
  { induction (rows prev) as [|r rs IH]; [done|].
    cbn [List.find List.filter]. by destruct (same_url url_col l r). }
  destruct (List.filter (same_url url_col l) (rows prev)) as [|r [|r' rs]];
    cbn; [done|done|lia].
Qed.

Lemma bind_by_url_first url_col original_df prev :
  urls_unique url_col original_df prev →
  rows original_df ≫= by_url url_col prev
  = first_by_url url_col prev <$> rows original_df.
Proof.
  unfold urls_unique. induction 1 as [|l ls Hl _ IH]; [done|].
  cbn [mbind list_bind fmap list_fmap]. by rewrite by_url_first, IH.
Qed.
End reconcile_theorems.

(** The merge by URL on frames of the shape the script produces and expects:
    an input that carries no status columns of its own and a previous output
    that has them, with a different row count.  The working table is the
    original rows, in order, each carrying the status and detail of the
    previous row with the same URL, or unresolved (missing status and detail)
    when no previous row has that URL; rows of the previous output whose URL is
    not in the input do not appear.  Where the previous output repeats a URL,
    the original row is carried once for each of these previous rows; where it
    does not, the table has exactly one row per original row.  Original rows
    [A, B, C] with previous output [A(valid), C(valid)] give
    [A(valid), B(unresolved), C(valid)]. *)
Theorem reconcile_merges_by_url :
  (∀ url_col original_df prev,
     wf original_df → plain_input original_df →
     url_col ∈ columns original_df → url_col ∈ columns prev →
     "status" ∈ columns prev → "status_detail" ∈ columns prev →
     len prev ≠ len original_df →
     ∃ d, reconcile url_col original_df (Loaded prev) = Ok d
        ∧ rows d = rows original_df ≫= by_url url_col prev
        ∧ (∀ l r, l ∈ rows original_df → r ∈ rows prev →
                  same_url url_col l r = true → carry l r ∈ rows d)
        ∧ (∀ l, l ∈ rows original_df →
                (∀ r, r ∈ rows prev → same_url url_col l r = false) →
                unresolved l ∈ rows d)
        ∧ (∀ m, m ∈ rows d →
                ∃ l, l ∈ rows original_df ∧ m !! url_col = l !! url_col
                     ∧ (m = unresolved l ∨ ∃ r, r ∈ rows prev ∧ m = carry l r))
        ∧ (urls_unique url_col original_df prev →
           rows d = first_by_url url_col prev <$> rows original_df))
  ∧ reconcile "url" abc (Loaded ac_valid)
    = Ok (output_of [done_row "http://a.example" "valid" "selenium:ok";
                     unresolved (url_row "http://b.example");
                     done_row "http://c.example" "valid" "selenium:ok"]).
Proof.
  split; [|reflexivity].
  intros url_col original_df prev Hwf Hplain Hurl Hurl' Hst Hsd Hlen.
  eexists. split.
  { unfold reconcile. rewrite has_column_true by done.
    rewrite (proj2 (Nat.eqb_neq _ _)) by done.
    by rewrite merge_by_url_eq. }
  cbn [rows]. split; [done|].
  destruct (url_col_plain _ _ Hplain Hurl) as (Hs & Hd & _).
  split_and!.
  - intros l r Hl Hr Hsame. apply list_elem_of_bind. exists l.
    split; [|done]. by apply by_url_carry.
  - intros l Hl Hno. apply list_elem_of_bind. exists l.
    split; [|done]. rewrite by_url_unresolved by done. apply list_elem_of_here.
  - intros m (l & Hm & Hl)%list_elem_of_bind. exists l. split; [done|].
    apply by_url_cases in Hm as [[-> _]|(r & Hr & _ & ->)].
    + split; [|by left]. unfold unresolved. by rewrite !lookup_insert_ne.
    + split; [|right; eauto]. unfold carry. by rewrite !lookup_insert_ne.
  - apply bind_by_url_first.
Qed.

Lemma reconcile_merges_by_url_witness :
  ∃ d, reconcile "url" abc (Loaded ac_valid) = Ok d
     ∧ rows d = first_by_url "url" ac_valid <$> rows abc.
Proof.
  destruct (proj1 reconcile_merges_by_url "url" abc ac_valid)
    as (d & Hd & _ & _ & _ & _ & Hrows);
    try (by apply (bool_decide_unpack _)).
  exists d. split; [exact Hd|]. apply Hrows. by apply (bool_decide_unpack _).
Defined.

(** C2, at an input with a status column of its own: original rows [A, B, C],
    each with the status Active, and previous output [A(valid), C(valid)].  The
    row counts differ, the merge by URL runs, and the status column of the
    input clashes with the one of the previous output: the merge keeps the
    input's column and renames the previous one to [status_prev], which the
    script then drops.  The working table carries the previous detail of A and
    C but the status Active on every row; no status is blank, so [main] finds
    nothing to process, writes the spreadsheet and returns without verifying
    B. *)
Theorem merge_prefers_status_of_input :
  let env := scripted b_hangs [("input", abc_listed); ("previous", ac_valid)] in
  let out := Driver.main source_config env (disk "input" "previous") in
  len abc_listed = 3%nat ∧ len ac_valid = 2%nat
  ∧ reconcile "url" abc_listed (Loaded ac_valid)
    = Ok (output_of [done_row "http://a.example" "Active" "selenium:ok";
                     <["status_detail" := NaN]> (listed_row "http://b.example");
                     done_row "http://c.example" "Active" "selenium:ok"])
  ∧ out.1 = Ok ()
  ∧ (λ r, value r "status") <$> rows (Driver.df out.2.1)
    = [Str "Active"; Str "Active"; Str "Active"]
  ∧ first_unprocessed (Driver.df out.2.1) = Raise StopIteration
  ∧ log out.2.2 = [EvToExcel (Driver.df out.2.1) (OUTPUT_XLSX source_config)].
Proof. cbv zeta. split_and!; vm_compute; reflexivity. Qed.

(** C7, at a previous output that lists one URL twice: the input has two rows,
    the previous output three, and the merged working table has three rows, the
    row of A once per previous row of A. *)
Theorem reconcile_duplicate_urls_add_rows :
  len ab = 2%nat ∧ len aab_valid = 3%nat ∧
  reconcile "url" ab (Loaded aab_valid)
  = Ok (output_of [done_row "http://a.example" "valid" "selenium:ok";
                   done_row "http://a.example" "valid" "selenium:ok";
                   done_row "http://b.example" "valid" "selenium:ok"]).
Proof. split_and!; reflexivity. Qed.

(** When no two previous rows carry the same URL the working table has as
    many rows as the input. *)
Theorem reconcile_keeps_length_when_urls_unique url_col original_df prev d :
  wf original_df → plain_input original_df →
  url_col ∈ columns original_df → url_col ∈ columns prev →
  "status" ∈ columns prev → "status_detail" ∈ columns prev →
  urls_unique url_col original_df prev →
  reconcile url_col original_df (Loaded prev) = Ok d →
  len d = len original_df.
Proof.
  intros Hwf Hplain Hurl Hurl' Hst Hsd Huniq. unfold reconcile.
  rewrite has_column_true by done.
  destruct (len prev =? len original_df)%nat eqn:Hlen.
  - intros [= <-]. by apply Nat.eqb_eq.
  - rewrite merge_by_url_eq by done. intros [= <-]. unfold len at 1. cbn [rows].
    by rewrite bind_by_url_first, length_fmap.
Qed.

Lemma reconcile_keeps_length_when_urls_unique_witness :
  ∃ d, reconcile "url" abc (Loaded ac_valid) = Ok d ∧ len d = len abc.
Proof.
  eexists. split; [reflexivity|].
  apply (reconcile_keeps_length_when_urls_unique "url" abc ac_valid);
    try (by apply (bool_decide_unpack _)).
  reflexivity.
Defined.

(** C10. A previous output that cannot be parsed, or that lacks the detected
    URL column, is ignored: reconciliation returns the original rows, in order
    and unchanged but for an empty-string status and detail on every row, no
    error is raised, and the first unprocessed row is row 0 (the table has no
    unprocessed row only when the input has no rows at all). *)
Theorem reconcile_ignores_unusable_output url_col original_df out :
  (∃ e, out = Unreadable e ∧ is_Exception e = true)
  ∨ (∃ prev, out = Loaded prev ∧ url_col ∉ columns prev) →
  reconcile url_col original_df out = Ok (fresh original_df)
  ∧ rows (fresh original_df)
    = (λ l, <["status_detail" := Str ""]> (<["status" := Str ""]> l)) <$> rows original_df
  ∧ Forall (λ m, m !! "status" = Some (Str "") ∧ m !! "status_detail" = Some (Str ""))
           (rows (fresh original_df))
  ∧ first_unprocessed (fresh original_df)
    = match rows original_df with [] => Raise StopIteration | _ => Ok 0%nat end.
Proof.
  intros Hout.
  assert (rows (fresh original_df)
          = (λ l, <["status_detail" := Str ""]> (<["status" := Str ""]> l))
            <$> rows original_df) as Hrows.
  { unfold fresh, setitem_scalar. cbn [rows]. by rewrite <- list_fmap_compose. }
  split_and!.
  - destruct Hout as [(e & -> & He)|(prev & -> & Hcol)].
    + unfold reconcile. by rewrite He.
    + unfold reconcile. by rewrite has_column_false.
  - done.
  - rewrite Hrows. apply Forall_fmap, Forall_true. intros l. cbn [compose].
    by rewrite lookup_insert_ne, !lookup_insert_eq.
  - unfold first_unprocessed, column_tolist.
    rewrite has_column_true; last first.
    { unfold fresh, setitem_scalar, add_label. cbn [columns].
      repeat case_bool_decide; set_solver. }
    cbn [res_bind]. rewrite Hrows.
    destruct (rows original_df) as [|l ls]; [done|].
    cbn [fmap list_fmap first_index]. unfold value.
    by rewrite lookup_insert_ne, lookup_insert_eq.
Qed.

Lemma reconcile_ignores_unusable_output_witness :
  reconcile "url" abc (Unreadable (ValueError "No columns to parse from file"))
  = Ok (fresh abc)
  ∧ first_unprocessed (fresh abc) = Ok 0%nat.
Proof.
  destruct (reconcile_ignores_unusable_output "url" abc
              (Unreadable (ValueError "No columns to parse from file")))
    as (H1 & _ & _ & H2).
  - left. eexists. split; reflexivity.
  - split; [exact H1|exact H2].
Defined.

(** ** What a computation adds to the log *)

Section appends.
Import Verifier.

Lemma appends_ret {A} P (a : A) : appends P (ret a).
Proof. intros w. exists []. by rewrite app_nil_r. Qed.

Lemma appends_time P : appends P time_time.
Proof. intros w. exists []. by rewrite app_nil_r. Qed.

Lemma appends_call {A} (P : event → Prop) ev (answer : list event → res A * Z) :
  P ev → appends P (call ev answer).
Proof.
  intros Hev w. exists [ev]. unfold call.
  destruct (answer (log w)) as [r d]. cbn. split_and!; [done| |done].
  by apply Forall_singleton.
Qed.

Lemma appends_bind {A B} P (m : M A) (k : A → M B) :
  appends P m → (∀ a, appends P (k a)) → appends P (bind m k).
Proof.
  intros Hm Hk w. unfold bind. destruct (Hm w) as (tl & Hl & HP & Hfs).
  destruct (m w) as [[a|e] w1]; cbn in *; [|by exists tl].
  destruct (Hk a w1) as (tl' & Hl' & HP' & Hfs').
  exists (tl ++ tl')%list. rewrite Hl', Hl, Hfs', Hfs, app_assoc.
  split_and!; [done| |done]. by apply Forall_app.
Qed.

Lemma appends_try_except {A} P (m : M A) handles (h : exn → M A) :
  appends P m → (∀ e, appends P (h e)) → appends P (try_except m handles h).
Proof.
  intros Hm Hh w. unfold try_except. destruct (Hm w) as (tl & Hl & HP & Hfs).
  destruct (m w) as [[a|e] w1]; cbn in *; [by exists tl|].
  destruct (handles e); [|by exists tl].
  destruct (Hh e w1) as (tl' & Hl' & HP' & Hfs').
  exists (tl ++ tl')%list. rewrite Hl', Hl, Hfs', Hfs, app_assoc.
  split_and!; [done| |done]. by apply Forall_app.
Qed.

Lemma appends_after {A B} P ev (m : M A) (k : A → M B) :
  (∀ w, log (m w).2 = (log w ++ [ev])%list ∧ fs (m w).2 = fs w) →
  (∀ a, appends P (k a)) →
  ∀ w, ∃ tl, log (bind m k w).2 = (log w ++ ev :: tl)%list
           ∧ Forall P tl ∧ fs (bind m k w).2 = fs w.
Proof.
  intros Hm Hk w. unfold bind. destruct (Hm w) as [Hl Hfs].
  destruct (m w) as [[a|e] w1]; cbn [snd] in *.
  - destruct (Hk a w1) as (tl & Hl' & HP & Hfs'). exists tl.
    by rewrite Hl', Hl, <- app_assoc, Hfs', Hfs.
  - exists []. split_and!; [done|apply Forall_nil_2|done].
Qed.

Context (cfg : Config) (env : Env).

Lemma appends_wait url t : appends (render_event url) (wait_for_page_complete cfg env t).
Proof.
  unfold wait_for_page_complete, time_sleep.
  apply appends_try_except.
  - repeat (apply appends_bind; [by apply appends_call|intros ?]).
    case_match; apply appends_ret.
  - intros e. repeat case_match; apply appends_ret.
Qed.

Lemma appends_navigate url : appends (render_event url) (navigate env url).
Proof.
  unfold navigate. apply appends_try_except.
  - apply appends_bind; [by apply appends_call|intros ?]. apply appends_ret.
  - intros e. repeat case_match; apply appends_ret.
Qed.

Lemma appends_check url : appends (render_event url) (check_with_selenium cfg env url).
Proof.
  unfold check_with_selenium.
  apply appends_bind; [apply appends_time|intros start_ts].
  apply appends_bind; [apply appends_navigate|intros [result|]]; [apply appends_ret|].
  apply appends_bind; [apply appends_wait|intros [[] detail]].
  { apply appends_bind; [apply appends_time|intros ?]. apply appends_ret. }
  apply appends_bind; [apply appends_time|intros t].
  case_match; [|apply appends_ret].
  apply appends_bind; [apply appends_wait|intros [ok2 detail2]].
  apply appends_bind; [apply appends_time|intros ?].
  destruct ok2; apply appends_ret.
Qed.

Lemma probe_log url w :
  log (try_requests_head_or_get env url w).2 = (log w ++ [EvRequestsGet url])%list
  ∧ fs (try_requests_head_or_get env url w).2 = fs w.
Proof.
  unfold try_requests_head_or_get, try_except, bind, call, ret.
  destruct (requests_get env (log w) url) as [[code|e] d]; cbn; [done|].
  by destruct (is_Exception e).
Qed.
End appends.

(** ** Verifier: normalisation of the URL cell *)

Section strings.
Lemma isspace_lower_char c : isspace c = true → lower_char c = c.
Proof.
  destruct c as [[] [] [] [] [] [] [] []]; vm_compute; intros; congruence.
Qed.

Lemma isspace_of_lower c : isspace (lower_char c) = false → isspace c = false.
Proof.
  intros H. destruct (isspace c) eqn:Hc; [|done].
  by rewrite (isspace_lower_char _ Hc), Hc in H.
Qed.

Lemma no_space_lower s : no_space (lower s) = true → no_space s = true.
Proof.
  induction s as [|c s IH]; [done|]. cbn [lower no_space].
  intros [Hc Hs]%andb_prop. apply negb_true_iff, isspace_of_lower in Hc.
  by rewrite Hc, IH.
Qed.

Lemma rstrip_no_space s : no_space s = true → rstrip s = s.
Proof.
  induction s as [|c s IH]; [done|]. cbn [no_space rstrip].
  intros [Hc Hs]%andb_prop. apply negb_true_iff in Hc.
  rewrite IH, Hc by done. by destruct s.
Qed.

Lemma strip_no_space s : no_space s = true → strip s = s.
Proof.
  intros Hs. unfold strip.
  assert (lstrip s = s) as ->; [|by apply rstrip_no_space].
  destruct s as [|c s]; [done|]. cbn [no_space] in Hs. cbn [lstrip].
  apply andb_prop in Hs as [Hc _]. apply negb_true_iff in Hc. by rewrite Hc.
Qed.

Lemma lower_empty s : lower s = "" → s = "".
Proof. by destruct s. Qed.
End strings.

Section placeholder.
Import Verifier.

Lemma is_placeholder_spec raw :
  is_placeholder raw = true ↔ raw = "" ∨ lower raw = "nan" ∨ lower raw = "none".
Proof.
  unfold is_placeholder. rewrite orb_true_iff, !bool_decide_eq_true.
  rewrite !elem_of_cons, elem_of_nil. split.
  - intros [?|[?|[?|[?%lower_empty|[]]]]]; auto.
  - intros [?|[?|?]]; auto.
Qed.

(** A cell whose string is a placeholder before stripping is one after. *)
Lemma placeholder_before_strip s :
  lower s ∈ [""; "nan"; "none"] → is_placeholder (strip s) = true.
Proof.
  rewrite !elem_of_cons, elem_of_nil. intros Hs.
  assert (no_space (lower s) = true) as Hns
    by (destruct Hs as [->|[->|[->|[]]]]; reflexivity).
  rewrite strip_no_space by by apply no_space_lower.
  apply is_placeholder_spec.
  destruct Hs as [?%lower_empty|[?|[?|[]]]]; auto.
Qed.
End placeholder.

Section verify_lemmas.
Import Verifier.
Context (cfg : Config) (env : Env).

Lemma verify_placeholder v w :
  is_placeholder (strip (str v)) = true →
  verify cfg env v w = (Ok ("invalid", "empty url"), w).
Proof. intros H. unfold verify. by rewrite H. Qed.

Lemma verify_network v w :
  is_placeholder (strip (str v)) = false →
  ∃ tl, log (verify cfg env v w).2
        = (log w ++ EvRequestsGet (effective_url (strip (str v))) :: tl)%list
      ∧ Forall (render_event (effective_url (strip (str v)))) tl
      ∧ fs (verify cfg env v w).2 = fs w.
Proof.
  intros H. unfold verify. rewrite H.
  apply appends_after; [apply probe_log|].
  intros [ok_req req_info].
  apply appends_bind; [apply appends_check|intros [[] ?]]; apply appends_ret.
Qed.
End verify_lemmas.

(** C8, amended.  With [raw] the cell converted to a string and stripped of
    surrounding white space: when [raw] is empty or, in lower case, "nan" or
    "none", the row is invalid with detail "empty url" and nothing is called,
    no time passes and no file changes; otherwise the probe and then the
    renderer are called with [raw] itself when its lower-case form starts with
    "http://" or "https://", and with "http://" put in front of [raw] when it
    does not.  A cell that is a placeholder before stripping is one after. *)
Theorem verify_normalises_url cfg env v w :
  let raw := strip (str v) in
  (lower (str v) ∈ [""; "nan"; "none"] → Verifier.is_placeholder raw = true)
  ∧ (Verifier.is_placeholder raw = true
     ↔ raw = "" ∨ lower raw = "nan" ∨ lower raw = "none")
  ∧ (Verifier.is_placeholder raw = true →
     Verifier.verify cfg env v w = (Ok ("invalid", "empty url"), w)
     ∧ contains "empty url" "empty url" = true)
  ∧ (Verifier.is_placeholder raw = false →
     let url := if startswith (lower raw) "http://" || startswith (lower raw) "https://"
                then raw else "http://" +:+ raw in
     ∃ tl, log (Verifier.verify cfg env v w).2 = (log w ++ EvRequestsGet url :: tl)%list
         ∧ Forall (render_event url) tl).
Proof.
  cbv zeta. split_and!.
  - apply placeholder_before_strip.
  - apply is_placeholder_spec.
  - intros H. split; [by apply verify_placeholder|reflexivity].
  - intros H. destruct (verify_network cfg env v w H) as (tl & ? & ? & _).
    by exists tl.
Qed.

Lemma verify_normalises_url_witness :
  ∃ tl, log (Verifier.verify source_config (scripted b_hangs []) (Str " a.example ") boot).2
        = EvRequestsGet "http://a.example" :: tl
      ∧ Forall (render_event "http://a.example") tl.
Proof.
  destruct (verify_normalises_url source_config (scripted b_hangs [])
              (Str " a.example ") boot) as (_ & _ & _ & H).
  destruct H as (tl & Hlog & Htl); [reflexivity|].
  exists tl. split; [exact Hlog|exact Htl].
Defined.

(** C8, as stated, at the cells [" http://a.example"] and
    ["HTTP://A.EXAMPLE"]: neither string is a placeholder and neither starts
    with "http://" or "https://", yet the script strips the first, finds the
    prefix, and probes ["http://a.example"], and it probes the second as it
    is; in neither case is "http://" put in front of the string. *)
Lemma verify_strips_before_prefix_test :
  let s := " http://a.example" in
  let t := "HTTP://A.EXAMPLE" in
  (lower (str (Str s)) ∉ [""; "nan"; "none"]
   ∧ startswith s "http://" = false ∧ startswith s "https://" = false
   ∧ "http://" +:+ s ≠ "http://a.example"
   ∧ ∀ cfg env w, ∃ tl,
       log (Verifier.verify cfg env (Str s) w).2
       = (log w ++ EvRequestsGet "http://a.example" :: tl)%list)
  ∧ (lower (str (Str t)) ∉ [""; "nan"; "none"]
     ∧ startswith t "http://" = false ∧ startswith t "https://" = false
     ∧ "http://" +:+ t ≠ t
     ∧ ∀ cfg env w, ∃ tl,
         log (Verifier.verify cfg env (Str t) w).2
         = (log w ++ EvRequestsGet t :: tl)%list).
Proof.
  cbv zeta. split.
  - split_and!; [by apply (bool_decide_unpack _)|done|done|done|].
    intros cfg env w.
    destruct (verify_network cfg env (Str " http://a.example") w) as (tl & Hl & _);
      [reflexivity|].
    by exists tl.
  - split_and!; [by apply (bool_decide_unpack _)|done|done|done|].
    intros cfg env w.
    destruct (verify_network cfg env (Str "HTTP://A.EXAMPLE") w) as (tl & Hl & _);
      [reflexivity|].
    by exists tl.
Qed.

(** ** Verifier: the probe does not decide the verdict *)

Section clock.
Import Verifier.

Lemma sim_ret {A} δ (R : A → A → Prop) a a' : R a a' → sim δ R (ret a) (ret a').
Proof. by intros HR w w' H. Qed.

Lemma sim_time δ : sim δ (λ t t', t' = (t + δ)%Z) time_time time_time.
Proof. intros w w' H. split; [apply H|done]. Qed.

Lemma sim_call {A} δ ev (answer : list event → res A * Z) :
  sim δ eq (call ev answer) (call ev answer).
Proof.
  intros w w' [Hl Hn]. unfold call. rewrite Hl.
  destruct (answer (log w)) as [r d]. cbn. split; [by destruct r|].
  split; cbn; [done|lia].
Qed.

Lemma sim_bind {A B} δ (R : A → A → Prop) (Q : B → B → Prop)
    (m m' : M A) (k k' : A → M B) :
  sim δ R m m' → (∀ a a', R a a' → sim δ Q (k a) (k' a')) →
  sim δ Q (bind m k) (bind m' k').
Proof.
  intros Hm Hk w w' H. unfold bind. destruct (Hm _ _ H) as [Hr Hw].
  destruct (m w) as [[a|e] w1], (m' w') as [[a'|e'] w1']; cbn in Hr, Hw; try done.
  by apply Hk.
Qed.

Lemma sim_try_except {A} δ (R : A → A → Prop) (m : M A) handles (h : exn → M A) :
  sim δ R m m → (∀ e, sim δ R (h e) (h e)) →
  sim δ R (try_except m handles h) (try_except m handles h).
Proof.
  intros Hm Hh w w' H. unfold try_except. destruct (Hm _ _ H) as [Hr Hw].
  destruct (m w) as [[a|e] w1], (m w') as [[a'|e'] w1']; cbn in Hr, Hw; try done.
  subst e'. destruct (handles e); [by apply Hh|done].
Qed.

Context (cfg : Config) (env : Env).

Lemma sim_wait δ t :
  sim δ eq (wait_for_page_complete cfg env t) (wait_for_page_complete cfg env t).
Proof.
  unfold wait_for_page_complete, time_sleep. apply sim_try_except.
  - repeat (eapply sim_bind; [apply sim_call|intros ? ? <-]).
    case_match; by apply sim_ret.
  - intros e. repeat case_match; by apply sim_ret.
Qed.

Lemma sim_navigate δ url : sim δ eq (navigate env url) (navigate env url).
Proof.
  unfold navigate. apply sim_try_except.
  - eapply sim_bind; [apply sim_call|intros ? ? <-]. by apply sim_ret.
  - intros e. repeat case_match; by apply sim_ret.
Qed.

(** The render stage reads the clock only to take differences. *)
Lemma sim_check δ url :
  sim δ eq (check_with_selenium cfg env url) (check_with_selenium cfg env url).
Proof.
  unfold check_with_selenium.
  eapply sim_bind; [apply sim_time|intros s ? ->].
  eapply sim_bind; [apply sim_navigate|intros [result|] ? <-]; [by apply sim_ret|].
  eapply sim_bind; [apply sim_wait|intros [[] detail] ? <-].
  { eapply sim_bind; [apply sim_time|intros t ? ->]. apply sim_ret.
    by replace (t + δ - (s + δ))%Z with (t - s)%Z by lia. }
  eapply sim_bind; [apply sim_time|intros t ? ->].
  replace (t + δ - (s + δ))%Z with (t - s)%Z by lia.
  case_match; [|by apply sim_ret].
  eapply sim_bind; [apply sim_wait|intros [ok2 detail2] ? <-].
  eapply sim_bind; [apply sim_time|intros t2 ? ->].
  replace (t2 + δ - (s + δ))%Z with (t2 - s)%Z by lia.
  destruct ok2; by apply sim_ret.
Qed.
End clock.

Section probe_lemmas.
Import Verifier.
Context (cfg : Config) (env : Env).

Lemma probe_shift probe url w :
  probe_returns (probe (log w) url) →
  ∃ r w1, try_requests_head_or_get (with_probe env probe) url w = (Ok r, w1)
        ∧ shifted (probe (log w) url).2 w
            {| now := now w1; log := log w; fs := fs w1 |}
        ∧ log w1 = (log w ++ [EvRequestsGet url])%list.
Proof.
  unfold probe_returns, try_requests_head_or_get, try_except, bind, call, ret.
  cbn [requests_get with_probe].
  destruct (probe (log w) url) as [[code|e] d]; cbn [fst snd].
  - intros _. by eexists _, _.
  - intros ->. by eexists _, _.
Qed.

End probe_lemmas.

(** C5. For a URL that reaches the network stages, run the verifier in two
    environments that differ only in what the probe answers (any status code, or
    a failed request, after any delay): both runs end the same way, with the
    same status, and their details differ at most in the [requests_ok] flag. *)
Theorem probe_does_not_decide_status cfg env probe1 probe2 v w :
  let url := Verifier.effective_url (strip (str v)) in
  Verifier.is_placeholder (strip (str v)) = false →
  probe_returns (probe1 (log w) url) →
  probe_returns (probe2 (log w) url) →
  res_rel same_verdict
    (Verifier.verify cfg (with_probe env probe1) v w).1
    (Verifier.verify cfg (with_probe env probe2) v w).1.
Proof.
  intros url Hnet H1 H2. unfold Verifier.verify. rewrite Hnet. fold url.
  destruct (probe_shift env probe1 url w H1) as ([ok1 info1] & w1 & E1 & [_ Hn1] & Hl1).
  destruct (probe_shift env probe2 url w H2) as ([ok2 info2] & w2 & E2 & [_ Hn2] & Hl2).
  unfold bind at 1 3. rewrite E1, E2. cbn in Hn1, Hn2.
  change (Verifier.check_with_selenium cfg (with_probe env probe1) url)
    with (Verifier.check_with_selenium cfg env url).
  change (Verifier.check_with_selenium cfg (with_probe env probe2) url)
    with (Verifier.check_with_selenium cfg env url).
  assert (shifted (now w2 - now w1) w1 w2) as Hs.
  { split; [by rewrite Hl1, Hl2|lia]. }
  unfold bind.
  destruct (sim_check cfg env _ url _ _ Hs) as [Hr _].
  destruct (Verifier.check_with_selenium cfg env url w1) as [[r|e] w1'],
           (Verifier.check_with_selenium cfg env url w2) as [[r'|e'] w2'];
    cbn in Hr; try done.
  subst r'. destruct r as [[] detail]; cbn; (split; [done|]).
  - exists ("selenium:" +:+ detail), (Verifier.req_ok_flag ok1 info1),
      (Verifier.req_ok_flag ok2 info2).
    split; reflexivity.
  - exists ("selenium_error:" +:+ detail), (Verifier.req_ok_flag ok1 info1),
      (Verifier.req_ok_flag ok2 info2).
    split; reflexivity.
Qed.

Lemma probe_does_not_decide_status_witness :
  res_rel same_verdict
    (Verifier.verify source_config
       (with_probe (scripted b_hangs []) (λ _ _, (Ok 200%Z, 120%Z)))
       (Str "a.example") boot).1
    (Verifier.verify source_config
       (with_probe (scripted b_hangs [])
          (λ _ _, (Raise (RequestException "Connection refused"), 8000%Z)))
       (Str "a.example") boot).1.
Proof.
  apply (probe_does_not_decide_status source_config (scripted b_hangs [])
           (λ _ _, (Ok 200%Z, 120%Z))
           (λ _ _, (Raise (RequestException "Connection refused"), 8000%Z))
           (Str "a.example") boot).
  - reflexivity.
  - exact I.
  - reflexivity.
Defined.

(** ** Verifier: the escalation to the long wait *)


Section escalation.
Import Verifier.
Context (cfg : Config) (env : Env).



End escalation.



(** ** Checkpoint manager: atomic replace *)

Section atomic_replace.
Import Checkpoint.
Implicit Types (p path tmp data : string) (st : gmap string string).

Lemma prefix_of_all data : prefix_of data (String.length data) = data.
Proof.
  unfold prefix_of. induction data as [|c data IH]; [done|].
  cbn [String.length String.substring]. by rewrite IH.
Qed.

Lemma written_other p data k (fs0 : gmap string string) st q :
  st ∈ written p data k fs0 → q ≠ p → st !! q = fs0 !! q.
Proof.
  unfold written. intros (i & -> & _)%list_elem_of_fmap Hq.
  by rewrite lookup_insert_ne.
Qed.

Lemma final_written p data k (fs0 fs1 : gmap string string) :
  final (written p data k fs0) fs1 = <[p := prefix_of data k]> fs0.
Proof.
  unfold final, written. rewrite seq_S, fmap_app. cbn [fmap list_fmap].
  apply last_last.
Qed.

Lemma append_ne_self path (s : string) : s ≠ "" → path +:+ s ≠ path.
Proof.
  intros Hs. induction path as [|c path IH]; [done|].
  change (String c path +:+ s) with (String c (path +:+ s)). intros [=]. done.
Qed.

Lemma has_sep_app p s : has_sep (p +:+ s) = has_sep p || has_sep s.
Proof.
  unfold has_sep. induction p as [|c p IH]; [done|].
  change (String c p +:+ s) with (String c (p +:+ s)).
  cbn [list_ascii_of_string existsb]. by rewrite IH, orb_assoc.
Qed.

Lemma head_of_no_sep s : has_sep s = false → head_of s = "".
Proof.
  induction s as [|c s IH]; [done|].
  change (has_sep (String c s)) with (is_sep c || has_sep s).
  intros [Hc Hs]%orb_false_elim. cbn [head_of]. by rewrite Hs, Hc.
Qed.

Lemma head_of_app p s : has_sep s = false → head_of (p +:+ s) = head_of p.
Proof.
  intros Hs. induction p as [|c p IH]; [by apply head_of_no_sep|].
  change (String c p +:+ s) with (String c (p +:+ s)).
  cbn [head_of]. by rewrite has_sep_app, Hs, orb_false_r, IH.
Qed.

(** The temporary file of the metadata writer lies beside its target. *)
Lemma dirname_tmp path : dirname (path +:+ ".tmp") = dirname path.
Proof. unfold dirname. by rewrite head_of_app. Qed.

Lemma atomic_write_csv_states data path tmp flt (fs0 : gmap string string) :
  tmp ≠ path →
  Forall (λ st, st !! path = fs0 !! path ∨ st !! path = Some data)
         (atomic_write_csv_steps data path tmp flt fs0).1.
Proof.
  intros Hne.
  assert (∀ k st, st ∈ written tmp data k (<[tmp := ""]> fs0) →
                  st !! path = fs0 !! path) as Hw.
  { intros k st Hst. rewrite (written_other _ _ _ _ _ path Hst) by done.
    by rewrite lookup_insert_ne. }
  assert (∀ k, delete tmp (<[tmp := prefix_of data k]> (<[tmp := ""]> fs0)) !! path
               = fs0 !! path) as Hd.
  { intros k. by rewrite lookup_delete_ne, !lookup_insert_ne. }
  unfold atomic_write_csv_steps.
  destruct flt as [|k e|e]; cbn [fst]; rewrite !final_written;
    (apply Forall_cons_2; [by left|]);
    (apply Forall_cons_2; [left; by rewrite lookup_insert_ne|]);
    (apply Forall_app; split;
     [apply Forall_forall; intros st Hst; left; by eapply Hw|]).
  - unfold os_replace. rewrite lookup_insert_eq, prefix_of_all.
    apply Forall_cons_2; [right; by rewrite lookup_insert_eq|].
    case_bool_decide; [|by apply Forall_nil_2].
    apply Forall_singleton. right.
    by rewrite lookup_delete_ne, lookup_insert_eq.
  - case_bool_decide; [|by apply Forall_nil_2]. apply Forall_singleton. by left.
  - case_bool_decide; [|by apply Forall_nil_2]. apply Forall_singleton. by left.
Qed.

Lemma atomic_write_csv_installs data path tmp (fs0 : gmap string string) :
  tmp ≠ path →
  final (atomic_write_csv_steps data path tmp NoFault fs0).1 fs0
  = <[path := data]> (delete tmp fs0).
Proof.
  intros Hne. unfold atomic_write_csv_steps. cbn [fst]. rewrite final_written.
  unfold os_replace. rewrite lookup_insert_eq, prefix_of_all.
  rewrite bool_decide_eq_false_2; last first.
  { rewrite lookup_insert_ne, lookup_delete_eq by done. by intros [? ?]. }
  unfold final. cbn [List.last].
  replace (fs0 :: <[tmp:=""]> fs0 ::
           (written tmp data (String.length data) (<[tmp:=""]> fs0) ++
            [<[path:=data]> (delete tmp (<[tmp:=data]> (<[tmp:=""]> fs0)))])%list)
    with ((fs0 :: <[tmp:=""]> fs0 ::
           written tmp data (String.length data) (<[tmp:=""]> fs0)) ++
          [<[path:=data]> (delete tmp (<[tmp:=data]> (<[tmp:=""]> fs0)))])%list
    by done.
  rewrite last_last. f_equal.
  apply map_eq. intros q. destruct (decide (q = tmp)) as [->|].
  - by rewrite !lookup_delete_eq.
  - by rewrite !lookup_delete_ne, !lookup_insert_ne.
Qed.

Lemma save_checkpoint_meta_states data path flt (fs0 : gmap string string) :
  Forall (λ st, st !! path = fs0 !! path ∨ st !! path = Some data)
         (save_checkpoint_meta_steps data path flt fs0).1.
Proof.
  assert (path +:+ ".tmp" ≠ path) as Hne by by apply append_ne_self.
  assert (∀ k, Forall (λ st, st !! path = fs0 !! path ∨ st !! path = Some data)
                      (written (path +:+ ".tmp") data k fs0)) as Hw.
  { intros k. apply Forall_forall. intros st Hst. left.
    by rewrite (written_other _ _ _ _ _ path Hst). }
  unfold save_checkpoint_meta_steps.
  destruct flt as [|k e|e]; cbn [fst]; (apply Forall_cons_2; [by left|]); [|done..].
  apply Forall_app. split; [done|]. apply Forall_singleton. right.
  rewrite final_written. unfold os_replace.
  by rewrite lookup_insert_eq, prefix_of_all, lookup_insert_eq.
Qed.

Lemma save_checkpoint_meta_installs data path (fs0 : gmap string string) :
  final (save_checkpoint_meta_steps data path NoFault fs0).1 fs0
  = <[path := data]> (delete (path +:+ ".tmp") fs0).
Proof.
  unfold save_checkpoint_meta_steps. cbn [fst]. rewrite final_written.
  unfold os_replace. rewrite lookup_insert_eq, prefix_of_all.
  unfold final.
  change (fs0 :: ?l ++ [?x])%list with ((fs0 :: l) ++ [x])%list.
  rewrite last_last. f_equal.
  apply map_eq. intros q. destruct (decide (q = path +:+ ".tmp")) as [->|].
  - by rewrite !lookup_delete_eq.
  - by rewrite !lookup_delete_ne, !lookup_insert_ne.
Qed.
End atomic_replace.

(** C4. Both writers put the complete content in a temporary file beside the
    target (the one [mkstemp] makes in the target's directory for the table,
    the target's name with [.tmp] appended for the metadata) and install it
    with one [os.replace].  In every file-system state from the call to its
    return, whether the write succeeds, fails part-way or fails at the
    replace, the target holds either what it held before or the complete new
    content; after a write without failure it holds the new content. *)
Theorem atomic_replace_never_tears env df meta path w :
  let dirn := match Checkpoint.dirname path with EmptyString => "." | d => d end in
  let tmp := mkstemp env (log w) dirn in
  let flt := write_fault env (log w) in
  let table := Checkpoint.atomic_write_csv_steps (to_csv env df) path tmp flt (fs w) in
  let record := Checkpoint.save_checkpoint_meta_steps (json_dumps env meta) path flt (fs w) in
  tmp ≠ path →
  (fs (Checkpoint.atomic_write_csv env df path w).2 = Checkpoint.final table.1 (fs w)
   ∧ Forall (λ st, st !! path = fs w !! path ∨ st !! path = Some (to_csv env df)) table.1
   ∧ (flt = NoFault →
      Checkpoint.final table.1 (fs w) !! path = Some (to_csv env df)))
  ∧ (fs (Checkpoint.save_checkpoint_meta env meta path w).2
     = Checkpoint.final record.1 (fs w)
   ∧ Forall (λ st, st !! path = fs w !! path ∨ st !! path = Some (json_dumps env meta))
            record.1
   ∧ (flt = NoFault →
      Checkpoint.final record.1 (fs w) !! path = Some (json_dumps env meta))
   ∧ Checkpoint.dirname (path +:+ ".tmp") = Checkpoint.dirname path).
Proof.
  intros dirn tmp flt table record Hne. split; split_and!.
  - unfold Checkpoint.atomic_write_csv, Checkpoint.run_steps.
    fold dirn tmp flt table. by destruct table.
  - by apply atomic_write_csv_states.
  - intros Hflt. unfold table. rewrite Hflt, atomic_write_csv_installs by done.
    apply lookup_insert_eq.
  - unfold Checkpoint.save_checkpoint_meta, Checkpoint.run_steps.
    fold flt record. by destruct record.
  - apply save_checkpoint_meta_states.
  - intros Hflt. unfold record. rewrite Hflt, save_checkpoint_meta_installs.
    apply lookup_insert_eq.
  - apply dirname_tmp.
Qed.

Lemma atomic_replace_never_tears_witness :
  Checkpoint.dirname "D:\out\table.csv" = "D:\out"
  ∧ fs (Checkpoint.atomic_write_csv (scripted b_hangs []) abc "D:\out\table.csv" boot).2
      !! "D:\out\table.csv"
    = Some (csv_of abc).
Proof.
  split; [reflexivity|].
  destruct (atomic_replace_never_tears (scripted b_hangs []) abc ∅ "D:\out\table.csv" boot)
    as [(Hfs & _ & Hnew) _]; [done|].
  rewrite Hfs. by apply Hnew.
Defined.

(** ** Driver loop *)

Section to_excel_lemmas.
Import Checkpoint.

Lemma to_excel_steps_other data path flt (fs0 : gmap string string) q :
  q ≠ path → final (to_excel_steps data path flt fs0).1 fs0 !! q = fs0 !! q.
Proof.
  intros Hq. unfold final, to_excel_steps.
  destruct flt as [|k e|e]; cbn [fst];
    change (fs0 :: ?l) with ([fs0] ++ l)%list;
    unfold written; rewrite seq_S, fmap_app, app_assoc; cbn [fmap list_fmap];
    rewrite last_last; by rewrite lookup_insert_ne.
Qed.

Lemma to_excel_steps_done data path flt (fs0 : gmap string string) :
  (to_excel_steps data path flt fs0).2 = Ok () →
  final (to_excel_steps data path flt fs0).1 fs0 !! path = Some data.
Proof.
  unfold final, to_excel_steps.
  destruct flt as [|k e|e]; cbn [fst snd]; intros H; try done;
    change (fs0 :: ?l) with ([fs0] ++ l)%list;
    unfold written; rewrite seq_S, fmap_app, app_assoc; cbn [fmap list_fmap];
    rewrite last_last; by rewrite lookup_insert_eq, prefix_of_all.
Qed.
End to_excel_lemmas.

Section all_processed_lemmas.
Context (cfg : Config) (env : Env).

Lemma resume_all_processed url_col l w :
  first_unprocessed (Driver.df l) = Raise StopIteration →
  Driver.resume cfg env url_col (l, w) = Driver.all_processed cfg env (l, w).
Proof.
  intros H. unfold Driver.resume, bind, Driver.get_df. cbn [fst]. by rewrite H.
Qed.

Lemma all_processed_eq l w :
  Driver.all_processed cfg env (l, w) =
  (let write := Checkpoint.to_excel_steps (to_excel_bytes env (Driver.df l))
                  (OUTPUT_XLSX cfg) (write_fault env (log w)) (fs w) in
   (match write.2 with
    | Ok _ => Ok ()
    | Raise e => if is_Exception e then Ok () else Raise e
    end,
    (l, {| now := now w;
           log := log w ++ [EvToExcel (Driver.df l) (OUTPUT_XLSX cfg)];
           fs := Checkpoint.final write.1 (fs w) |}))).
Proof.
  unfold Driver.all_processed, bind, Driver.get_df, try_except, Driver.io.
  cbn [fst]. unfold Checkpoint.to_excel, Checkpoint.run_steps.
  destruct (Checkpoint.to_excel_steps _ _ _ _) as [states [[]|e]]; cbn [fst snd]; [done|].
  by destruct (is_Exception e).
Qed.
End all_processed_lemmas.

(** C9, amended.  When the working table has no unprocessed row the run
    verifies nothing and skips the loop: the only call it makes is one
    [to_excel] of the table to [OUTPUT_XLSX]; an [Exception] from that write is
    swallowed; every other file, [OUTPUT_CSV] and [CHECKPOINT_JSON] among them,
    is left as it was. *)
Theorem all_processed_writes_xlsx_only cfg env url_col l w :
  let out := Driver.resume cfg env url_col (l, w) in
  let write := Checkpoint.to_excel_steps (to_excel_bytes env (Driver.df l))
                 (OUTPUT_XLSX cfg) (write_fault env (log w)) (fs w) in
  first_unprocessed (Driver.df l) = Raise StopIteration →
  out.2.1 = l
  ∧ log out.2.2 = (log w ++ [EvToExcel (Driver.df l) (OUTPUT_XLSX cfg)])%list
  ∧ (∀ p, p ≠ OUTPUT_XLSX cfg → fs out.2.2 !! p = fs w !! p)
  ∧ (write.2 = Ok () →
     out.1 = Ok ()
     ∧ fs out.2.2 !! OUTPUT_XLSX cfg = Some (to_excel_bytes env (Driver.df l)))
  ∧ (∀ e, write.2 = Raise e → out.1 = if is_Exception e then Ok () else Raise e).
Proof.
  intros out write Hnone. unfold out.
  rewrite resume_all_processed, all_processed_eq by done.
  cbv zeta. fold write. cbn [fst snd log fs]. split_and!.
  - done.
  - done.
  - intros p Hp. by apply to_excel_steps_other.
  - intros Hok. rewrite Hok. split; [done|]. by apply to_excel_steps_done.
  - intros e He. by rewrite He.
Qed.

Lemma all_processed_writes_xlsx_only_witness :
  log (Driver.resume source_config (scripted b_hangs []) "url" (from_row_0 ab_valid)).2.2
  = [EvToExcel ab_valid (OUTPUT_XLSX source_config)].
Proof.
  destruct (all_processed_writes_xlsx_only source_config (scripted b_hangs []) "url"
              (from_row_0 ab_valid).1 (from_row_0 ab_valid).2)
    as (_ & Hlog & _); [reflexivity|].
  exact Hlog.
Defined.

(** C9, as stated, at an input that lost its second line since the previous
    run: the merged table has no unprocessed row, the run writes the
    spreadsheet and nothing else, [OUTPUT_CSV] still holds the previous
    two-row snapshot and no checkpoint record exists. *)
Lemma all_processed_skips_csv_and_checkpoint :
  let env := scripted b_hangs [("input", a_only); ("previous", ab_valid)] in
  let out := Driver.main source_config env (disk "input" "previous") in
  out.1 = Ok ()
  ∧ first_unprocessed (Driver.df out.2.1) = Raise StopIteration
  ∧ log out.2.2 = [EvToExcel (Driver.df out.2.1) (OUTPUT_XLSX source_config)]
  ∧ fs out.2.2 !! OUTPUT_CSV source_config = Some "previous"
  ∧ to_csv env (Driver.df out.2.1) ≠ "previous"
  ∧ fs out.2.2 !! CHECKPOINT_JSON source_config = None.
Proof. cbv zeta. split_and!; try (vm_compute; reflexivity). vm_compute. discriminate. Qed.

(** C1, at an input [A, B] whose previous output holds only B, valid: the
    merged table is [A(unresolved), B(valid)], the loop starts at row 0 and
    runs to the end, so B is probed and rendered again and, its page hanging
    this time, its status is overwritten with invalid. *)
Theorem resolved_row_after_first_unresolved_is_reverified :
  let env := scripted b_hangs [("input", ab); ("previous", b_valid)] in
  let out := Driver.main source_config env (disk "input" "previous") in
  reconcile "url" ab (Loaded b_valid)
  = Ok (output_of [unresolved (url_row "http://a.example");
                   done_row "http://b.example" "valid" "selenium:ok"])
  ∧ first_unprocessed
      (output_of [unresolved (url_row "http://a.example");
                  done_row "http://b.example" "valid" "selenium:ok"]) = Ok 0%nat
  ∧ out.1 = Ok ()
  ∧ EvRequestsGet "http://b.example" ∈ log out.2.2
  ∧ EvDriverGet "http://b.example" ∈ log out.2.2
  ∧ (λ r, value r "status") <$> rows (Driver.df out.2.1) = [Str "valid"; Str "invalid"].
Proof.
  cbv zeta. split_and!; try (vm_compute; reflexivity).
  - apply list_elem_of_In. vm_compute. tauto.
  - apply list_elem_of_In. vm_compute. tauto.
Qed.

Section final_save_lemmas.
Import Checkpoint.
Context (cfg : Config) (env : Env).

Lemma atomic_write_csv_ok d path w :
  write_fault env (log w) = NoFault → tmp_for env path (log w) ≠ path →
  atomic_write_csv env d path w
  = (Ok (), {| now := now w; log := log w ++ [EvAtomicWriteCsv d path];
               fs := <[path := to_csv env d]> (delete (tmp_for env path (log w)) (fs w)) |}).
Proof.
  intros Hflt Hne. unfold atomic_write_csv, run_steps. rewrite Hflt.
  fold (tmp_for env path (log w)).
  rewrite <- (atomic_write_csv_installs _ _ _ (fs w) Hne).
  reflexivity.
Qed.

Lemma save_checkpoint_meta_ok m path w :
  write_fault env (log w) = NoFault →
  save_checkpoint_meta env m path w
  = (Ok (), {| now := now w; log := log w ++ [EvSaveCheckpointMeta m path];
               fs := <[path := json_dumps env m]> (delete (path +:+ ".tmp") (fs w)) |}).
Proof.
  intros Hflt. unfold save_checkpoint_meta, run_steps. rewrite Hflt.
  rewrite <- (save_checkpoint_meta_installs _ _ (fs w)).
  reflexivity.
Qed.

Lemma to_excel_ok d path w :
  write_fault env (log w) = NoFault →
  to_excel env d path w
  = (Ok (), {| now := now w; log := log w ++ [EvToExcel d path];
               fs := <[path := to_excel_bytes env d]> (fs w) |}).
Proof.
  intros Hflt. unfold to_excel, run_steps. rewrite Hflt.
  unfold to_excel_steps, final, written.
  change (fs w :: ?l) with ([fs w] ++ l)%list.
  rewrite seq_S, fmap_app, app_assoc. cbn [fmap list_fmap].
  by rewrite last_last, prefix_of_all.
Qed.

Lemma quit_swallowed l w :
  quit_returns env (log w) →
  try_except (Driver.io (call EvDriverQuit (driver_quit env))) is_Exception
             (λ _, ret ()) (l, w)
  = (Ok (), (l, {| now := now w + (driver_quit env (log w)).2;
                   log := log w ++ [EvDriverQuit]; fs := fs w |})).
Proof.
  unfold quit_returns, try_except, Driver.io, call.
  destruct (driver_quit env (log w)) as [[[]|e] d]; cbn [fst snd]; [done|].
  by intros ->.
Qed.

Lemma final_save_ok l w :
  quit_returns env (log w) →
  (∀ tl, write_fault env (log w ++ EvDriverQuit :: tl) = NoFault) →
  tmp_for env (OUTPUT_CSV cfg) (log w ++ [EvDriverQuit]) ≠ OUTPUT_CSV cfg →
  let m := <["last_processed_index" :=
               default JNull (Driver.meta l !! "last_processed_index")]> (Driver.meta l) in
  let d := Driver.df l in
  Driver.final_save cfg env (l, w)
  = (Ok (),
     ({| Driver.df := d; Driver.meta := m;
         Driver.processed_since_save := Driver.processed_since_save l |},
      {| now := now w + (driver_quit env (log w)).2;
         log := log w ++ [EvDriverQuit; EvAtomicWriteCsv d (OUTPUT_CSV cfg);
                          EvToExcel d (OUTPUT_XLSX cfg);
                          EvSaveCheckpointMeta m (CHECKPOINT_JSON cfg)];
         fs := <[CHECKPOINT_JSON cfg := json_dumps env m]>
                 (delete (CHECKPOINT_JSON cfg +:+ ".tmp")
                    (<[OUTPUT_XLSX cfg := to_excel_bytes env d]>
                       (<[OUTPUT_CSV cfg := to_csv env d]>
                          (delete (tmp_for env (OUTPUT_CSV cfg) (log w ++ [EvDriverQuit]))
                                  (fs w))))) |})).
Proof.
  intros Hquit Hflt Htmp m d. unfold Driver.final_save.
  unfold bind at 1. rewrite quit_swallowed by done.
  unfold try_except, bind, Driver.get_df, Driver.get_meta, Driver.set_meta, Driver.io.
  cbn [fst snd Driver.df Driver.meta Driver.processed_since_save].
  rewrite atomic_write_csv_ok; [|cbn [log]; apply Hflt|done].
  cbn [log]. rewrite to_excel_ok by (cbn [log]; rewrite <- app_assoc; apply Hflt).
  cbn [log]. rewrite save_checkpoint_meta_ok
    by (cbn [log]; rewrite <- !app_assoc; apply Hflt).
  cbn [now log fs]. by rewrite <- !app_assoc.
Qed.
End final_save_lemmas.

(** C3. However the row loop ends (it ran to the end, a row raised an
    exception, or the run was interrupted), the [finally] block then quits the
    driver and saves once: the table as the loop left it to [OUTPUT_CSV] and
    [OUTPUT_XLSX], and the metadata record to [CHECKPOINT_JSON]; afterwards the
    way the loop ended is the way the run ends.  The statement is for a final
    block that is not itself interrupted and whose writes do not fail. *)
Theorem final_save_on_every_exit cfg env url_col first l w :
  let loop := Driver.for_each cfg env url_col
                (seq first (len (Driver.df l) - first)) (l, w) in
  let out := Driver.run_loop cfg env url_col first (l, w) in
  let d := Driver.df loop.2.1 in
  let m := <["last_processed_index" :=
               default JNull (Driver.meta loop.2.1 !! "last_processed_index")]>
             (Driver.meta loop.2.1) in
  let hist := log loop.2.2 in
  quit_returns env hist →
  (∀ tl, write_fault env (hist ++ EvDriverQuit :: tl) = NoFault) →
  tmp_for env (OUTPUT_CSV cfg) (hist ++ [EvDriverQuit]) ≠ OUTPUT_CSV cfg →
  separate_paths cfg →
  out.1 = loop.1
  ∧ Driver.df out.2.1 = d
  ∧ Driver.meta out.2.1 = m
  ∧ log out.2.2 = (hist ++ [EvDriverQuit;
                            EvAtomicWriteCsv d (OUTPUT_CSV cfg);
                            EvToExcel d (OUTPUT_XLSX cfg);
                            EvSaveCheckpointMeta m (CHECKPOINT_JSON cfg)])%list
  ∧ fs out.2.2 !! OUTPUT_CSV cfg = Some (to_csv env d)
  ∧ fs out.2.2 !! CHECKPOINT_JSON cfg = Some (json_dumps env m).
Proof.
  intros loop out d m hist Hquit Hflt Htmp (Hx & Hj & Hjt).
  unfold out, Driver.run_loop, bind, Driver.get_df, try_finally. cbn [fst].
  fold loop. unfold d, m, hist in *. clear d m hist out.
  destruct loop as [r [l1 w1]]. cbn [fst snd] in *.
  rewrite final_save_ok by done. cbn [fst snd Driver.df Driver.meta log fs].
  split_and!; try done.
  - by rewrite !lookup_insert_ne, lookup_delete_ne, lookup_insert_ne, lookup_insert_eq.
  - by rewrite lookup_insert_eq.
Qed.

Lemma final_save_on_every_exit_witness :
  let out := Driver.run_loop source_config interrupted_at_b "url" 0 (from_row_0 (fresh ab)) in
  out.1 = Raise KeyboardInterrupt
  ∧ (λ r, value r "status") <$> rows (Driver.df out.2.1) = [Str "valid"; Str ""]
  ∧ fs out.2.2 !! OUTPUT_CSV source_config
    = Some (to_csv interrupted_at_b (Driver.df out.2.1)).
Proof.
  cbv zeta.
  destruct (final_save_on_every_exit source_config interrupted_at_b "url" 0
              (from_row_0 (fresh ab)).1 (from_row_0 (fresh ab)).2)
    as (Hr & Hd & _ & _ & Hcsv & _).
  - vm_compute. exact I.
  - intros tl. reflexivity.
  - vm_compute. discriminate.
  - by apply (bool_decide_unpack _).
  - change ((from_row_0 (fresh ab)).1, (from_row_0 (fresh ab)).2)
      with (from_row_0 (fresh ab)) in *.
    split_and!.
    + rewrite Hr. vm_compute. reflexivity.
    + rewrite Hd. vm_compute. reflexivity.
    + rewrite Hcsv, Hd. reflexivity.
Defined.

(** ** What the loop leaves alone *)

Section untouched.
Import Driver.

Context (d0 : DataFrame) (S : nat → Prop).

Lemma keeps_ret {A} (a : A) : keeps d0 S (ret a).
Proof. by intros s. Qed.

Lemma keeps_raise {A} e : keeps d0 S (raise (A:=A) e).
Proof. by intros s. Qed.

Lemma keeps_lift {A} (r : res A) : keeps d0 S (lift r).
Proof. by intros s. Qed.

Lemma keeps_io {A} (m : M A) : keeps d0 S (io m).
Proof. intros [l w] H. unfold io. by destruct (m w). Qed.

Lemma keeps_bind {A B} (m : D A) (k : A → D B) :
  keeps d0 S m → (∀ a, keeps d0 S (k a)) → keeps d0 S (bind m k).
Proof.
  intros Hm Hk s H. unfold bind. specialize (Hm s H).
  destruct (m s) as [[a|e] s1]; [by apply Hk|done].
Qed.

Lemma keeps_try_except {A} (m : D A) handles (h : exn → D A) :
  keeps d0 S m → (∀ e, keeps d0 S (h e)) → keeps d0 S (try_except m handles h).
Proof.
  intros Hm Hh s H. unfold try_except. specialize (Hm s H).
  destruct (m s) as [[a|e] s1]; [done|]. destruct (handles e); [by apply Hh|done].
Qed.

Lemma keeps_try_finally {A} (m : D A) (f : D ()) :
  keeps d0 S m → keeps d0 S f → keeps d0 S (try_finally m f).
Proof.
  intros Hm Hf s H. unfold try_finally. specialize (Hm s H).
  destruct (m s) as [r s1]. specialize (Hf s1 Hm).
  by destruct (f s1) as [[[]|e] s2].
Qed.

Lemma keeps_get_df : keeps d0 S get_df.
Proof. by intros s. Qed.

Lemma keeps_get_meta : keeps d0 S get_meta.
Proof. by intros s. Qed.

Lemma keeps_get_counter : keeps d0 S get_counter.
Proof. by intros s. Qed.

Lemma keeps_set_meta m : keeps d0 S (set_meta m).
Proof. by intros [l w]. Qed.

Lemma keeps_set_counter n : keeps d0 S (set_counter n).
Proof. by intros [l w]. Qed.

Lemma keeps_set_cell idx c v : c ∈ columns d0 → S idx → keeps d0 S (set_cell idx c v).
Proof.
  intros Hc Hidx [l w] [Hcols Hrows]. cbn [fst snd set_cell Driver.df] in *.
  unfold outside. cbn [Driver.df].
  unfold set_at. rewrite has_column_true by by rewrite Hcols.
  split; [done|]. cbn [rows]. intros j Hj.
  rewrite list_lookup_alter_ne by by intros ->. by apply Hrows.
Qed.
End untouched.

Section untouched_loop.
Import Driver.
Context (cfg : Config) (env : Env) (url_col : string).
Context (d0 : DataFrame) (S : nat → Prop).
Context (Hstatus : "status" ∈ columns d0) (Hdetail : "status_detail" ∈ columns d0).

Lemma keeps_checkpoint : keeps d0 S (checkpoint cfg env).
Proof.
  unfold checkpoint.
  apply keeps_bind; [apply keeps_get_df|intros ?].
  apply keeps_bind; [apply keeps_io|intros ?].
  apply keeps_bind; [apply keeps_get_meta|intros ?]. apply keeps_io.
Qed.

Lemma keeps_loop_body idx : S idx → keeps d0 S (loop_body cfg env url_col idx).
Proof.
  intros Hidx. unfold loop_body.
  apply keeps_bind; [apply keeps_get_df|intros ?].
  apply keeps_bind; [apply keeps_lift|intros ?].
  apply keeps_bind; [apply keeps_io|intros [status detail]].
  apply keeps_bind; [by apply keeps_set_cell|intros ?].
  apply keeps_bind; [by apply keeps_set_cell|intros ?].
  apply keeps_bind; [apply keeps_get_meta|intros ?].
  apply keeps_bind; [apply keeps_set_meta|intros ?].
  apply keeps_bind; [apply keeps_get_counter|intros ?].
  apply keeps_bind; [apply keeps_set_counter|intros ?].
  case_match; [|apply keeps_ret].
  apply keeps_bind; [|intros ?; apply keeps_set_counter].
  apply keeps_try_except; [apply keeps_checkpoint|intros ?; apply keeps_ret].
Qed.

Lemma keeps_for_each idxs :
  Forall S idxs → keeps d0 S (for_each cfg env url_col idxs).
Proof.
  induction 1 as [|idx idxs Hidx _ IH]; cbn [for_each]; [apply keeps_ret|].
  apply keeps_bind; [by apply keeps_loop_body|intros ?; apply IH].
Qed.

Lemma keeps_final_save : keeps d0 S (final_save cfg env).
Proof.
  unfold final_save.
  apply keeps_bind; [|intros ?].
  { apply keeps_try_except; [apply keeps_io|intros ?; apply keeps_ret]. }
  apply keeps_try_except; [|intros ?; apply keeps_ret].
  apply keeps_bind; [apply keeps_get_df|intros ?].
  apply keeps_bind; [apply keeps_io|intros ?].
  apply keeps_bind; [apply keeps_io|intros ?].
  apply keeps_bind; [apply keeps_get_meta|intros ?].
  apply keeps_bind; [apply keeps_set_meta|intros ?].
  apply keeps_bind; [apply keeps_get_meta|intros ?]. apply keeps_io.
Qed.
End untouched_loop.

(** Rows before the first unprocessed row are left as they were: the loop and
    the final save keep the columns of the table and every row the loop does
    not visit. *)
Theorem rows_before_first_unprocessed_untouched cfg env url_col first l w :
  let out := Driver.run_loop cfg env url_col first (l, w) in
  "status" ∈ columns (Driver.df l) → "status_detail" ∈ columns (Driver.df l) →
  columns (Driver.df out.2.1) = columns (Driver.df l)
  ∧ ∀ j, (j < first)%nat → rows (Driver.df out.2.1) !! j = rows (Driver.df l) !! j.
Proof.
  intros out Hstatus Hdetail.
  assert (keeps (Driver.df l) (λ j, first ≤ j)%nat
                (Driver.run_loop cfg env url_col first)) as Hkeeps.
  { unfold Driver.run_loop. apply keeps_bind; [apply keeps_get_df|intros d].
    apply keeps_try_finally; [|apply keeps_final_save].
    apply keeps_for_each; [done..|].
    apply Forall_forall. intros j Hj%list_elem_of_In%in_seq. lia. }
  destruct (Hkeeps (l, w)) as [Hcols Hrows]; [by split|].
  split; [done|]. intros j Hj. apply Hrows. lia.
Qed.

Lemma rows_before_first_unprocessed_untouched_witness :
  let out := Driver.run_loop source_config (scripted b_hangs []) "url" 1
               (from_row_0 ab_valid) in
  rows (Driver.df out.2.1) !! 0%nat
  = Some (done_row "http://a.example" "valid" "selenium:ok").
Proof.
  cbv zeta.
  destruct (rows_before_first_unprocessed_untouched source_config (scripted b_hangs [])
              "url" 1 (from_row_0 ab_valid).1 (from_row_0 ab_valid).2)
    as [_ Hrows]; [by apply (bool_decide_unpack _)..|].
  change ((from_row_0 ab_valid).1, (from_row_0 ab_valid).2)
    with (from_row_0 ab_valid) in Hrows.
  rewrite Hrows by (apply Nat.lt_0_1). reflexivity.
Defined.

(** ** Row store: column detection *)

Section find_lemmas.
Context {A : Type} (p : A → bool).

Lemma find_first_with (l : list A) x : List.find p l = Some x ↔ first_with p l x.
Proof.
  unfold first_with. split.
  - induction l as [|y l IH]; [done|]. cbn [List.find].
    destruct (p y) eqn:Hy.
    + intros [= ->]. by exists [], l.
    + intros (before & after & -> & Hx & Hb)%IH.
      exists (y :: before), after. split_and!; [done|done|by constructor].
  - intros (before & after & -> & Hx & Hb).
    induction Hb as [|y before Hy _ IH]; cbn [List.find app].
    + by rewrite Hx.
    + by rewrite Hy.
Qed.

Lemma find_none_Forall (l : list A) : List.find p l = None ↔ Forall (λ y, p y = false) l.
Proof.
  induction l as [|y l IH]; cbn [List.find].
  - split; [constructor|done].
  - destruct (p y) eqn:Hy.
    + split; [done|]. intros H. inversion H; congruence.
    + rewrite IH. split; [by constructor|]. intros H. by inversion H.
Qed.

Lemma find_agree (q : A → bool) (l : list A) :
  (∀ x, p x = q x) → List.find p l = List.find q l.
Proof.
  intros H. induction l as [|y l IH]; [done|]. cbn [List.find]. by rewrite H, IH.
Qed.

Lemma first_with_elem (l : list A) x : first_with p l x → x ∈ l ∧ p x = true.
Proof.
  intros (before & after & -> & Hx & _). split; [|done].
  apply elem_of_app. right. apply list_elem_of_here.
Qed.
End find_lemmas.

Section find_url_column_lemmas.

Lemma find_url_column_eq df :
  find_url_column df =
  match List.find named_url (columns df) with
  | Some col => Ok col
  | None =>
      match List.find (links_in_head df) (columns df) with
      | Some col => Ok col
      | None => Raise (ValueError no_url_column)
      end
  end.
Proof. reflexivity. Qed.

End find_url_column_lemmas.

(** The column [find_url_column] returns is a label of the table: the first
    one named url, link or website, or, when no label is so named, the first
    one with a link among its first 20 values.  It raises [ValueError] exactly
    when no label is so named and no column has such a link. *)
Theorem find_url_column_result df :
  match find_url_column df with
  | Ok col =>
      col ∈ columns df
      ∧ (first_with named_url (columns df) col
         ∨ (Forall (λ c, named_url c = false) (columns df)
            ∧ first_with (links_in_head df) (columns df) col))
  | Raise e =>
      (∃ msg, e = ValueError msg)
      ∧ Forall (λ c, named_url c = false ∧ links_in_head df c = false) (columns df)
  end.
Proof.
  rewrite find_url_column_eq.
  destruct (List.find named_url (columns df)) as [col|] eqn:Hn.
  { apply find_first_with in Hn. split; [by eapply first_with_elem|by left]. }
  apply find_none_Forall in Hn.
  destruct (List.find (links_in_head df) (columns df)) as [col|] eqn:Hl.
  { apply find_first_with in Hl. split; [by eapply first_with_elem|by right]. }
  apply find_none_Forall in Hl. split; [by eexists|].
  rewrite Forall_forall in Hn, Hl. apply Forall_forall. intros c Hc. split; auto.
Qed.

Lemma find_url_column_named df col rs :
  first_with named_url (columns df) col →
  find_url_column (with_rows df rs) = Ok col.
Proof.
  intros H%find_first_with. rewrite find_url_column_eq. cbn [columns with_rows].
  by rewrite H.
Qed.

Lemma find_url_column_head df rs :
  take 20 rs = take 20 (rows df) →
  find_url_column (with_rows df rs) = find_url_column df.
Proof.
  intros H. rewrite !find_url_column_eq. cbn [columns with_rows].
  destruct (List.find named_url (columns df)); [done|].
  assert (∀ c, links_in_head (with_rows df rs) c = links_in_head df c) as Hl.
  { intros c. unfold links_in_head. cbn [rows with_rows]. by rewrite H. }
  by rewrite (find_agree _ _ _ Hl).
Qed.

(** How much of the table [find_url_column] reads.  A label named url, link
    or website wins whatever the rows hold: the first such label is returned
    for every content of the table, also when an earlier column holds links
    and the named one holds none.  Otherwise only the first 20 rows are
    sampled: two tables with the same labels and the same first 20 rows get
    the same answer, so a column whose first link stands in a later row is not
    found. *)
Theorem find_url_column_reads_names_then_20_rows df rs :
  (∀ col, first_with named_url (columns df) col →
          find_url_column (with_rows df rs) = Ok col)
  ∧ (take 20 rs = take 20 (rows df) →
     find_url_column (with_rows df rs) = find_url_column df).
Proof.
  split.
  - intros col. apply find_url_column_named.
  - apply find_url_column_head.
Qed.

Lemma find_url_column_reads_names_then_20_rows_witness :
  find_url_column two_candidates = Ok " Link "
  ∧ find_url_column late_link
    = find_url_column (with_rows late_link (take 20 (rows late_link)))
  ∧ ∃ msg, find_url_column late_link = Raise (ValueError msg).
Proof.
  split_and!.
  - apply (proj1 (find_url_column_reads_names_then_20_rows two_candidates
                    (rows two_candidates)) " Link ").
    exists ["homepage"], []. split_and!; [reflexivity|reflexivity|].
    apply Forall_singleton. reflexivity.
  - symmetry.
    apply (proj2 (find_url_column_reads_names_then_20_rows late_link
                    (take 20 (rows late_link)))).
    reflexivity.
  - eexists. reflexivity.
Defined.

(** ** Status cells *)

Section blank_lemmas.

Lemma lstrip_blank s : blank s = true → lstrip s = "".
Proof.
  induction s as [|c s IH]; [done|]. cbn [blank lstrip].
  intros [-> Hs]%andb_prop. by apply IH.
Qed.

Lemma blank_lstrip s : blank (lstrip s) = blank s.
Proof.
  induction s as [|c s IH]; [done|]. cbn [lstrip].
  destruct (isspace c) eqn:Hc; [|done]. cbn [blank]. by rewrite Hc, IH.
Qed.

Lemma rstrip_empty s : rstrip s = "" ↔ blank s = true.
Proof.
  induction s as [|c s IH]; [done|]. cbn [rstrip blank].
  destruct (rstrip s) as [|c' t] eqn:Hr.
  - destruct IH as [IH _]. rewrite IH by done. rewrite andb_true_r.
    by destruct (isspace c).
  - split; [done|]. intros [_ Hs]%andb_prop. by apply IH in Hs.
Qed.

Lemma strip_empty s : strip s = "" ↔ blank s = true.
Proof. unfold strip. by rewrite rstrip_empty, blank_lstrip. Qed.

Lemma isspace_digit x : isspace (pretty_N_char x) = false.
Proof. unfold pretty_N_char. by repeat case_match. Qed.

Lemma pretty_N_go_not_blank x s : blank s = false → blank (pretty_N_go x s) = false.
Proof.
  revert s. induction (N.lt_wf_0 x) as [x _ IH]. intros s Hs.
  destruct (decide (x = 0%N)) as [->|Hx]; [by rewrite pretty_N_go_0|].
  rewrite pretty_N_go_step by lia. apply IH.
  - apply N.div_lt; lia.
  - cbn [blank]. by rewrite isspace_digit.
Qed.

Lemma pretty_positive_not_blank (p : positive) : blank (pretty p) = false.
Proof.
  unfold pretty, pretty_positive, pretty, pretty_N.
  rewrite decide_False by done.
  rewrite pretty_N_go_step by lia. apply pretty_N_go_not_blank.
  cbn [blank]. by rewrite isspace_digit.
Qed.

Lemma pretty_Z_not_blank (z : Z) : blank (pretty z) = false.
Proof.
  destruct z as [|p|p]; [done|apply pretty_positive_not_blank|].
  unfold pretty, pretty_Z. reflexivity.
Qed.

Lemma is_unprocessed_eq v :
  is_unprocessed v = isna v || blank (str v).
Proof.
  unfold is_unprocessed. f_equal.
  destruct (blank (str v)) eqn:Hb.
  - apply bool_decide_eq_true_2. by apply strip_empty.
  - apply bool_decide_eq_false_2. rewrite strip_empty. congruence.
Qed.

End blank_lemmas.

(** A status cell counts as unprocessed exactly when it is a missing value
    or a string of nothing but white space (the empty string among them); a
    number never does. *)
Theorem is_unprocessed_iff_missing_or_blank v :
  is_unprocessed v = true ↔ v = NaN ∨ v = PyNone ∨ ∃ s, v = Str s ∧ blank s = true.
Proof.
  rewrite is_unprocessed_eq. destruct v as [| |z|s]; cbn [isna str orb].
  - split; auto.
  - split; auto.
  - rewrite pretty_Z_not_blank. split; [done|].
    intros [?|[?|(s & ? & _)]]; done.
  - split; [eauto|]. intros [?|[?|(s' & [= <-] & ?)]]; done.
Qed.

Section first_unprocessed_lemmas.

Lemma first_index_spec {A} (p : A → bool) (l : list A) :
  match first_index p l with
  | Some i => (∃ x, l !! i = Some x ∧ p x = true)
              ∧ ∀ j x, (j < i)%nat → l !! j = Some x → p x = false
  | None => ∀ j x, l !! j = Some x → p x = false
  end.
Proof.
  induction l as [|y l IH]; cbn [first_index]; [done|].
  destruct (p y) eqn:Hy.
  - split; [by exists y|]. intros j x Hj. lia.
  - destruct (first_index p l) as [i|]; cbn [fmap option_fmap option_map].
    + destruct IH as [(x & Hx & Hpx) Hlt]. split; [by exists x|].
      intros [|j] x' Hj; cbn; [by intros [= <-]|]. apply Hlt. lia.
    + intros [|j] x; cbn; [by intros [= <-]|]. apply IH.
Qed.

Lemma first_unprocessed_eq d :
  "status" ∈ columns d →
  first_unprocessed d =
  match first_index is_unprocessed ((λ r, value r "status") <$> rows d) with
  | Some i => Ok i
  | None => Raise StopIteration
  end.
Proof.
  intros H. unfold first_unprocessed, column_tolist.
  by rewrite has_column_true.
Qed.

Lemma status_of_lookup d j :
  status_of d j = ((λ r, value r "status") <$> rows d) !! j.
Proof. unfold status_of. by rewrite list_lookup_fmap. Qed.

(** The three ways [first_unprocessed] ends. *)
Lemma first_unprocessed_spec d :
  match first_unprocessed d with
  | Ok i =>
      "status" ∈ columns d
      ∧ (∃ v, status_of d i = Some v ∧ is_unprocessed v = true)
      ∧ ∀ j v, (j < i)%nat → status_of d j = Some v → is_unprocessed v = false
  | Raise e =>
      (e = KeyError "status" ∧ "status" ∉ columns d)
      ∨ (e = StopIteration ∧ "status" ∈ columns d
         ∧ ∀ j v, status_of d j = Some v → is_unprocessed v = false)
  end.
Proof.
  destruct (decide ("status" ∈ columns d)) as [Hc|Hc].
  - rewrite first_unprocessed_eq by done.
    pose proof (first_index_spec is_unprocessed ((λ r, value r "status") <$> rows d)) as H.
    destruct (first_index _ _) as [i|].
    + destruct H as [Hi Hlt]. split; [done|].
      split; [by rewrite status_of_lookup|].
      intros j v. rewrite status_of_lookup. apply Hlt.
    + right. split_and!; [done|done|]. intros j v. rewrite status_of_lookup. apply H.
  - unfold first_unprocessed, column_tolist. rewrite has_column_false by done.
    by left.
Qed.

Lemma first_unprocessed_none d :
  "status" ∈ columns d →
  (∀ j v, status_of d j = Some v → is_unprocessed v = false) →
  first_unprocessed d = Raise StopIteration.
Proof.
  intros Hc Hall. pose proof (first_unprocessed_spec d) as H.
  destruct (first_unprocessed d) as [i|e].
  - destruct H as (_ & (v & Hv & Hu) & _). rewrite (Hall _ _ Hv) in Hu. done.
  - destruct H as [[_ ?]|[-> _]]; done.
Qed.

End first_unprocessed_lemmas.

(** [first_unprocessed] returns the least row index whose status is
    unprocessed: the rows before it are all processed.  It raises
    [StopIteration] exactly when the table has a status column and no
    unprocessed row, and [KeyError] exactly when it has no status column. *)
Theorem first_unprocessed_is_least d :
  match first_unprocessed d with
  | Ok i =>
      "status" ∈ columns d
      ∧ (∃ v, status_of d i = Some v ∧ is_unprocessed v = true)
      ∧ ∀ j v, (j < i)%nat → status_of d j = Some v → is_unprocessed v = false
  | Raise e =>
      (e = KeyError "status" ∧ "status" ∉ columns d)
      ∨ (e = StopIteration ∧ "status" ∈ columns d
         ∧ ∀ j v, status_of d j = Some v → is_unprocessed v = false)
  end.
Proof. apply first_unprocessed_spec. Qed.

(** ** Row store: the status columns of the working table *)

Section status_columns.
Implicit Types (c : string) (cs : list string) (df : DataFrame).

Lemma add_label_here c cs : c ∈ add_label c cs.
Proof. unfold add_label. case_bool_decide; [done|]. set_solver. Qed.

Lemma add_label_further c c' cs : c' ∈ cs → c' ∈ add_label c cs.
Proof. unfold add_label. case_bool_decide; [done|]. set_solver. Qed.

Lemma setitem_get_columns c src df :
  columns (setitem_get c src df) = add_label c (columns df).
Proof. unfold setitem_get. by destruct (has_column src df). Qed.

Lemma ensure_column c src df :
  c ∈ columns (if has_column c df then df else setitem_get c src df).
Proof.
  destruct (has_column c df) eqn:H.
  - by apply bool_decide_eq_true in H.
  - rewrite setitem_get_columns. apply add_label_here.
Qed.

Lemma ensure_column_keeps c c' src df :
  c' ∈ columns df → c' ∈ columns (if has_column c df then df else setitem_get c src df).
Proof.
  intros H. destruct (has_column c df); [done|].
  rewrite setitem_get_columns. by apply add_label_further.
Qed.

Lemma drop_columns_keeps (p : string → bool) c df :
  c ∈ columns df → p c = false → c ∈ columns (drop_columns p df).
Proof.
  intros Hc Hp. unfold drop_columns. cbn [columns].
  apply list_elem_of_In, filter_In. split; [by apply list_elem_of_In|by rewrite Hp].
Qed.

Lemma fresh_columns df :
  "status" ∈ columns (fresh df) ∧ "status_detail" ∈ columns (fresh df).
Proof.
  unfold fresh, setitem_scalar. cbn [columns]. split.
  - apply add_label_further, add_label_here.
  - apply add_label_here.
Qed.

Lemma merge_by_url_columns url_col original_df prev d :
  merge_by_url url_col original_df prev = Ok d →
  "status" ∈ columns d ∧ "status_detail" ∈ columns d.
Proof.
  unfold merge_by_url.
  destruct (if has_column "status" prev then _ else _) as [prev_subset|e]; [|done].
  cbn [res_bind]. destruct (merge_left _ _ _ _) as [merged|e]; [|done].
  cbn [res_bind]. intros [= <-]. split.
  - do 2 (apply drop_columns_keeps; [|reflexivity]).
    apply ensure_column_keeps, ensure_column.
  - do 2 (apply drop_columns_keeps; [|reflexivity]).
    apply ensure_column.
Qed.

End status_columns.

(** Unless the previous output is taken over row for row (it has the URL
    column and as many rows as the input), the working table has the columns
    [status] and [status_detail], whatever the input and the previous output
    look like, so the search for the first unprocessed row cannot fail with
    [KeyError]. *)
Theorem reconcile_has_status_columns url_col original_df out d :
  reconcile url_col original_df out = Ok d →
  (∀ prev, out = Loaded prev → url_col ∈ columns prev → len prev ≠ len original_df) →
  "status" ∈ columns d ∧ "status_detail" ∈ columns d
  ∧ ∀ e, first_unprocessed d = Raise e → e = StopIteration.
Proof.
  intros Hd Hout.
  assert ("status" ∈ columns d ∧ "status_detail" ∈ columns d) as [Hs Hsd].
  { unfold reconcile in Hd. destruct out as [|e|prev].
    - injection Hd as <-. apply fresh_columns.
    - destruct (is_Exception e); [|done]. injection Hd as <-. apply fresh_columns.
    - destruct (has_column url_col prev) eqn:Hu; last first.
      { injection Hd as <-. apply fresh_columns. }
      apply bool_decide_eq_true in Hu.
      rewrite (proj2 (Nat.eqb_neq _ _)) in Hd by by apply Hout.
      destruct (merge_by_url url_col original_df prev) as [merged|e] eqn:Hm.
      + injection Hd as <-. by eapply merge_by_url_columns.
      + destruct (is_Exception e); [|done]. injection Hd as <-. apply fresh_columns. }
  split_and!; [done|done|].
  intros e. unfold first_unprocessed, column_tolist. rewrite has_column_true by done.
  cbn [res_bind]. destruct (first_index _ _); [done|]. by intros [= <-].
Qed.

Lemma reconcile_has_status_columns_witness :
  ∃ d, reconcile "url" abc (Loaded ac_valid) = Ok d
     ∧ "status" ∈ columns d ∧ "status_detail" ∈ columns d.
Proof.
  eexists. split; [reflexivity|].
  destruct (reconcile_has_status_columns "url" abc (Loaded ac_valid)
              (output_of [done_row "http://a.example" "valid" "selenium:ok";
                          unresolved (url_row "http://b.example");
                          done_row "http://c.example" "valid" "selenium:ok"]))
    as (Hs & Hsd & _).
  - reflexivity.
  - intros prev [= <-] _. discriminate.
  - split; [exact Hs|exact Hsd].
Defined.

(** When the previous output has the URL column and as many rows as the
    input, it becomes the working table as it is: the rows of the input are
    not consulted, so any input with that many rows gives the same table;
    and if that previous output has no status column the run stops with
    [KeyError] before the browser is started or anything is written. *)
Theorem positional_resume_takes_previous_output cfg env url_col original_df prev w :
  url_col ∈ columns prev → len prev = len original_df →
  reconcile url_col original_df (Loaded prev) = Ok prev
  ∧ (∀ other, len other = len original_df →
              reconcile url_col other (Loaded prev) = Ok prev)
  ∧ ("status" ∉ columns prev →
     Driver.resume cfg env url_col (Driver.start prev, w)
     = (Raise (KeyError "status"), (Driver.start prev, w))).
Proof.
  intros Hu Hlen.
  assert (∀ other, len other = len original_df →
                   reconcile url_col other (Loaded prev) = Ok prev) as H.
  { intros other Ho. unfold reconcile. rewrite has_column_true by done.
    by rewrite (proj2 (Nat.eqb_eq _ _)) by congruence. }
  split_and!; [by apply H|done|].
  intros Hs. unfold Driver.resume, bind, Driver.get_df. cbn [fst Driver.df Driver.start].
  unfold first_unprocessed, column_tolist. by rewrite has_column_false.
Qed.

Lemma positional_resume_takes_previous_output_witness :
  reconcile "url" abc (Loaded (input_of ["x"; "y"; "z"])) = Ok (input_of ["x"; "y"; "z"])
  ∧ (Driver.resume source_config (scripted b_hangs []) "url"
       (Driver.start (input_of ["x"; "y"; "z"]), boot)).1
    = Raise (KeyError "status").
Proof.
  destruct (positional_resume_takes_previous_output source_config (scripted b_hangs [])
              "url" abc (input_of ["x"; "y"; "z"]) boot) as (H1 & _ & H2).
  - by apply (bool_decide_unpack _).
  - reflexivity.
  - split; [exact H1|]. rewrite H2; [reflexivity|].
    by apply (bool_decide_unpack _).
Defined.

(** ** Verifier: what a stage can raise *)

Section raised.
Import Verifier.

Lemma caught_no_Exception {S A} (m : St S A) (h : exn → St S A) w :
  (∀ e w', no_Exception (h e w').1) →
  no_Exception (try_except m is_Exception h w).1.
Proof.
  intros Hh. unfold try_except. destruct (m w) as [[a|e] w1]; [done|].
  destruct (is_Exception e) eqn:He; [apply Hh|done].
Qed.

Lemma bind_no_Exception {S A B} (m : St S A) (k : A → St S B) w :
  no_Exception (m w).1 → (∀ a w', no_Exception (k a w').1) →
  no_Exception (bind m k w).1.
Proof.
  intros Hm Hk. unfold bind. destruct (m w) as [[a|e] w1]; [apply Hk|done].
Qed.

Context (cfg : Config) (env : Env).

Lemma probe_no_Exception url w : no_Exception (try_requests_head_or_get env url w).1.
Proof. apply caught_no_Exception. done. Qed.

Lemma wait_no_Exception t w : no_Exception (wait_for_page_complete cfg env t w).1.
Proof.
  apply caught_no_Exception. intros e w'. by repeat case_match.
Qed.

Lemma navigate_no_Exception url w : no_Exception (navigate env url w).1.
Proof.
  apply caught_no_Exception. intros e w'. by repeat case_match.
Qed.

Lemma check_no_Exception url w : no_Exception (check_with_selenium cfg env url w).1.
Proof.
  unfold check_with_selenium.
  apply bind_no_Exception; [done|intros start_ts w1].
  apply bind_no_Exception; [apply navigate_no_Exception|intros [result|] w2]; [done|].
  apply bind_no_Exception; [apply wait_no_Exception|intros [[] detail] w3]; [done|].
  apply bind_no_Exception; [done|intros t w4].
  case_match; [|done].
  apply bind_no_Exception; [apply wait_no_Exception|intros [ok2 detail2] w5].
  apply bind_no_Exception; [done|intros t2 w6]. by destruct ok2.
Qed.

Lemma verify_no_Exception v w : no_Exception (verify cfg env v w).1.
Proof.
  unfold verify. case_match; [done|].
  apply bind_no_Exception; [apply probe_no_Exception|intros [ok_req req_info] w1].
  apply bind_no_Exception; [apply check_no_Exception|intros [[] detail] w2]; done.
Qed.

Lemma string_prefix_app (p s : string) : String.prefix p (p +:+ s) = true.
Proof.
  induction p as [|c p IH]; [by destruct s|].
  change (String c p +:+ s) with (String c (p +:+ s)). cbn [String.prefix].
  by destruct (ascii_dec c c).
Qed.

Lemma verify_status v w status detail w' :
  verify cfg env v w = (Ok (status, detail), w') →
  (status = "valid" ∧ String.prefix "selenium:" detail = true)
  ∨ (status = "invalid"
     ∧ (detail = "empty url" ∨ String.prefix "selenium_error:" detail = true)).
Proof.
  unfold verify. case_match.
  { unfold ret. intros [= <- <- ?]. right. split; [done|by left]. }
  unfold bind.
  destruct (try_requests_head_or_get env _ w) as [[[ok_req req_info]|e] w1]; [|done].
  destruct (check_with_selenium cfg env _ w1) as [[[[] d]|e] w2]; [| |done].
  - unfold ret. intros [= <- <- ?]. left. split; [done|apply string_prefix_app].
  - unfold ret. intros [= <- <- ?]. right. split; [done|right; apply string_prefix_app].
Qed.

End raised.

(** The probe never fails the run: whatever [requests.get] raises, short of an
    interrupt, comes back as the pair [(False, text of the error)], and exactly
    one request is made.  The flag the loop derives from the answer is true
    exactly when the request returned a status code below 400. *)
Theorem probe_absorbs_request_errors env url w :
  let answer := (requests_get env (log w) url).1 in
  let out := Verifier.try_requests_head_or_get env url w in
  log out.2 = (log w ++ [EvRequestsGet url])%list
  ∧ fs out.2 = fs w
  ∧ match answer with
    | Ok code => out.1 = Ok (true, inl code)
    | Raise e => out.1 = if is_Exception e then Ok (false, inr (exn_str e)) else Raise e
    end
  ∧ match out.1 with
    | Ok (ok_req, req_info) =>
        Verifier.req_ok_flag ok_req req_info = true
        ↔ ∃ code, answer = Ok code ∧ (code < 400)%Z
    | Raise e => is_Exception e = false
    end.
Proof.
  cbv zeta. destruct (probe_log env url w) as [Hlog Hfs].
  split_and!; [done|done|..];
    unfold Verifier.try_requests_head_or_get, try_except, bind, call, ret;
    destruct (requests_get env (log w) url) as [[code|e] d]; cbn [fst snd].
  - done.
  - by destruct (is_Exception e).
  - cbn [Verifier.req_ok_flag andb]. rewrite Z.ltb_lt.
    split; [eauto|]. by intros (? & [= <-] & ?).
  - destruct (is_Exception e) eqn:He; cbn [fst Verifier.req_ok_flag]; [|done].
    split; [done|]. by intros (? & ? & _).
Qed.

(** ** Verifier: failures of the navigation *)

Section navigation.
Import Verifier.
Context (cfg : Config) (env : Env).

Lemma navigate_eq url w :
  navigate env url w =
  (match (driver_get env (log w) url).1 with
   | Ok _ => Ok None
   | Raise e =>
       if is_Exception e then
         match e with
         | TimeoutException _ => Ok None
         | InvalidArgumentException _ => Ok (Some (false, "invalid_url:" +:+ exn_str e))
         | _ => if is_WebDriverException e
                then Ok (Some (false, "webdriver_get_error:" +:+ exn_str e))
                else Ok (Some (false, "get_exception:" +:+ exn_str e))
         end
       else Raise e
   end,
   {| now := now w + (driver_get env (log w) url).2;
      log := log w ++ [EvDriverGet url]; fs := fs w |}).
Proof.
  unfold navigate, try_except, bind, call, ret.
  destruct (driver_get env (log w) url) as [[[]|e] d]; cbn [fst snd]; [done|].
  destruct e; done.
Qed.

Lemma navigation_failed url w e :
  (driver_get env (log w) url).1 = Raise e → is_Exception e = true →
  (∀ msg, e ≠ TimeoutException msg) →
  ∃ detail,
    check_with_selenium cfg env url w
    = (Ok (false, detail),
       {| now := now w + (driver_get env (log w) url).2;
          log := log w ++ [EvDriverGet url]; fs := fs w |})
    ∧ detail = (match e with
                | InvalidArgumentException _ => "invalid_url:"
                | WebDriverException _ => "webdriver_get_error:"
                | _ => "get_exception:"
                end) +:+ exn_str e.
Proof.
  intros Hget He Hno. unfold check_with_selenium.
  unfold bind at 1. unfold time_time at 1. cbv iota beta.
  unfold bind at 1. rewrite navigate_eq, Hget, He.
  destruct e; try done; try (eexists; split; reflexivity).
  by destruct (Hno msg).
Qed.

Lemma navigation_timed_out url w msg d :
  driver_get env (log w) url = (Raise (TimeoutException msg), d) →
  check_with_selenium cfg env url w
  = check_with_selenium cfg (with_navigation env (λ _ _, (Ok (), d))) url w.
Proof.
  intros Hget. unfold check_with_selenium.
  unfold bind at 1 3. unfold time_time at 1 3. cbv iota beta.
  unfold bind at 1 3. rewrite !navigate_eq. cbn [driver_get with_navigation].
  rewrite Hget. reflexivity.
Qed.

End navigation.

(** When [driver.get] fails with anything but a page-load timeout (and short of
    an interrupt) the URL is invalid at once: no readiness wait is made, the
    only call is the navigation itself, and the detail names the kind of
    failure.  A page-load timeout is no failure: the render stage goes on as
    if the navigation had returned after the same time. *)
Theorem navigation_error_skips_waits cfg env url w :
  (∀ e, (driver_get env (log w) url).1 = Raise e → is_Exception e = true →
        (∀ msg, e ≠ TimeoutException msg) →
        ∃ detail,
          Verifier.check_with_selenium cfg env url w
          = (Ok (false, detail),
             {| now := now w + (driver_get env (log w) url).2;
                log := log w ++ [EvDriverGet url]; fs := fs w |})
          ∧ detail = (match e with
                      | InvalidArgumentException _ => "invalid_url:"
                      | WebDriverException _ => "webdriver_get_error:"
                      | _ => "get_exception:"
                      end) +:+ exn_str e)
  ∧ (∀ msg d, driver_get env (log w) url = (Raise (TimeoutException msg), d) →
              Verifier.check_with_selenium cfg env url w
              = Verifier.check_with_selenium cfg
                  (with_navigation env (λ _ _, (Ok (), d))) url w).
Proof.
  split.
  - intros e. apply navigation_failed.
  - intros msg d. apply navigation_timed_out.
Qed.

Lemma navigation_error_skips_waits_witness :
  let env := with_navigation (scripted b_hangs [])
               (λ _ _, (Raise (InvalidArgumentException "Message: invalid argument"), 3%Z)) in
  Verifier.check_with_selenium source_config env "http://" boot
  = (Ok (false, "invalid_url:Message: invalid argument"),
     {| now := 3; log := [EvDriverGet "http://"]; fs := ∅ |}).
Proof.
  cbv zeta.
  destruct (proj1 (navigation_error_skips_waits source_config
                     (with_navigation (scripted b_hangs [])
                        (λ _ _, (Raise (InvalidArgumentException "Message: invalid argument"),
                                 3%Z)))
                     "http://" boot)
              (InvalidArgumentException "Message: invalid argument"))
    as (detail & Hrun & Hdetail); [reflexivity|reflexivity|discriminate|].
  rewrite Hrun, Hdetail. reflexivity.
Defined.

(** Whatever the network and the browser do, short of an interrupt, the
    verification of a cell ends with a verdict and never with an exception:
    the status is valid, with a detail that starts with [selenium:], or
    invalid, with the detail [empty url] or one that starts with
    [selenium_error:]; and no file is touched. *)
Theorem verify_always_gives_a_verdict cfg env v w :
  let out := Verifier.verify cfg env v w in
  fs out.2 = fs w
  ∧ match out.1 with
    | Ok (status, detail) =>
        (status = "valid" ∧ String.prefix "selenium:" detail = true)
        ∨ (status = "invalid"
           ∧ (detail = "empty url" ∨ String.prefix "selenium_error:" detail = true))
    | Raise e => is_Exception e = false
    end.
Proof.
  cbv zeta. split.
  - destruct (Verifier.is_placeholder (strip (str v))) eqn:Hp.
    + by rewrite verify_placeholder.
    + by destruct (verify_network cfg env v w Hp) as (tl & _ & _ & Hfs).
  - pose proof (verify_no_Exception cfg env v w) as Hsafe.
    destruct (Verifier.verify cfg env v w) as [[[status detail]|e] w'] eqn:Hv; [|done].
    by eapply verify_status.
Qed.

(** ** Verifier: how many calls a row costs *)

Section at_most.
Import Verifier.
Implicit Types (f : event → bool).

Lemma count_app f (l k : list event) : count f (l ++ k) = (count f l + count f k)%nat.
Proof. unfold count. by rewrite List.filter_app, length_app. Qed.

Lemma at_most_ret {A} f (a : A) : at_most f 0 (ret a).
Proof. intros w. exists []. by rewrite app_nil_r. Qed.

Lemma at_most_time f : at_most f 0 time_time.
Proof. intros w. exists []. by rewrite app_nil_r. Qed.

Lemma at_most_call {A} f ev (answer : list event → res A * Z) :
  at_most f (count f [ev]) (call ev answer).
Proof.
  intros w. exists [ev]. unfold call. by destruct (answer (log w)) as [r d].
Qed.

Lemma at_most_weaken {A} f n n' (m : M A) : (n ≤ n')%nat → at_most f n m → at_most f n' m.
Proof. intros Hn Hm w. destruct (Hm w) as (tl & ? & ?). exists tl. split; [done|lia]. Qed.

Lemma at_most_bind {A B} f n k (m : M A) (g : A → M B) :
  at_most f n m → (∀ a, at_most f k (g a)) → at_most f (n + k) (bind m g).
Proof.
  intros Hm Hg w. unfold bind. destruct (Hm w) as (tl & Hl & Hc).
  destruct (m w) as [[a|e] w1]; cbn [snd] in *.
  - destruct (Hg a w1) as (tl' & Hl' & Hc'). exists (tl ++ tl')%list.
    rewrite Hl', Hl, app_assoc, count_app. split; [done|lia].
  - exists tl. split; [done|lia].
Qed.

Lemma at_most_try_except {A} f n k (m : M A) handles (h : exn → M A) :
  at_most f n m → (∀ e, at_most f k (h e)) → at_most f (n + k) (try_except m handles h).
Proof.
  intros Hm Hh w. unfold try_except. destruct (Hm w) as (tl & Hl & Hc).
  destruct (m w) as [[a|e] w1]; cbn [snd] in *; [exists tl; split; [done|lia]|].
  destruct (handles e); [|exists tl; split; [done|lia]].
  destruct (Hh e w1) as (tl' & Hl' & Hc'). exists (tl ++ tl')%list.
  rewrite Hl', Hl, app_assoc, count_app. split; [done|lia].
Qed.

Context (cfg : Config) (env : Env).

Lemma at_most_probe f url :
  at_most f (count f [EvRequestsGet url]) (try_requests_head_or_get env url).
Proof.
  intros w. exists [EvRequestsGet url]. by rewrite (proj1 (probe_log env url w)).
Qed.

Lemma at_most_navigate f url :
  at_most f (count f [EvDriverGet url]) (navigate env url).
Proof. intros w. exists [EvDriverGet url]. by rewrite navigate_eq. Qed.

Lemma at_most_wait f t :
  at_most f (count f (wait_events cfg t)) (wait_for_page_complete cfg env t).
Proof.
  unfold wait_for_page_complete, time_sleep, wait_events.
  eapply at_most_weaken; last first.
  - eapply (at_most_try_except f _ 0).
    + apply at_most_bind; [apply at_most_call|intros ?].
      apply at_most_bind; [apply at_most_call|intros ?].
      apply at_most_bind; [apply at_most_call|intros ?].
      eapply (at_most_bind f _ 0); [apply at_most_call|intros ?].
      case_match; apply at_most_ret.
    + intros e. repeat case_match; apply at_most_ret.
  - change [EvUntilReady t; EvUntilBody t; EvSleep (EXTRA_JS_SETTLE cfg); EvBodyLength]
      with ([EvUntilReady t] ++ [EvUntilBody t] ++ [EvSleep (EXTRA_JS_SETTLE cfg)]
            ++ [EvBodyLength])%list.
    rewrite !count_app. lia.
Qed.

Lemma at_most_check f W url :
  (∀ t, count f (wait_events cfg t) ≤ W)%nat →
  at_most f (count f [EvDriverGet url] + 2 * W) (check_with_selenium cfg env url).
Proof.
  intros HW.
  assert (∀ t, at_most f W (wait_for_page_complete cfg env t)) as Hwait.
  { intros t. eapply at_most_weaken; [apply HW|apply at_most_wait]. }
  unfold check_with_selenium.
  apply (at_most_bind f 0); [apply at_most_time|intros start_ts].
  apply at_most_bind; [apply at_most_navigate|intros [result|]].
  { eapply at_most_weaken; [|apply at_most_ret]. lia. }
  replace (2 * W)%nat with (W + W)%nat by lia.
  apply at_most_bind; [apply Hwait|intros [[] detail]].
  { apply (at_most_bind f 0); [apply at_most_time|intros ?].
    eapply at_most_weaken; [|apply at_most_ret]. lia. }
  apply (at_most_bind f 0); [apply at_most_time|intros t].
  case_match; [|eapply at_most_weaken; [|apply at_most_ret]; lia].
  apply (at_most_weaken f (W + 0)); [lia|].
  apply at_most_bind; [apply Hwait|intros [ok2 detail2]].
  apply (at_most_bind f 0 0); [apply at_most_time|intros ?].
  destruct ok2; apply at_most_ret.
Qed.

Lemma at_most_verify f W v :
  (∀ t, count f (wait_events cfg t) ≤ W)%nat →
  let url := effective_url (strip (str v)) in
  at_most f (count f [EvRequestsGet url] + (count f [EvDriverGet url] + 2 * W))
          (verify cfg env v).
Proof.
  intros HW url. unfold verify. fold url.
  case_match; [eapply at_most_weaken; [|apply at_most_ret]; lia|].
  apply at_most_bind; [apply at_most_probe|intros [ok_req req_info]].
  apply (at_most_weaken f (count f [EvDriverGet url] + 2 * W + 0)); [lia|].
  apply at_most_bind; [by apply at_most_check|intros [[] detail]]; apply at_most_ret.
Qed.

End at_most.

(** One row costs at most one [requests.get], one [driver.get] and two
    readiness waits, whatever they answer: nothing is retried but the
    readiness wait, and that only once. *)
Theorem verify_makes_few_calls cfg env v w :
  ∃ tl, log (Verifier.verify cfg env v w).2 = (log w ++ tl)%list
      ∧ (count is_probe tl ≤ 1)%nat
      ∧ (count is_navigation tl ≤ 1)%nat
      ∧ (count is_ready_wait tl ≤ 2)%nat.
Proof.
  destruct (at_most_verify cfg env is_probe 0 v) with (w := w) as (tl & Hl & Hp);
    [done|].
  destruct (at_most_verify cfg env is_navigation 0 v) with (w := w) as (tl' & Hl' & Hn);
    [done|].
  destruct (at_most_verify cfg env is_ready_wait 1 v) with (w := w) as (tl'' & Hl'' & Hr);
    [done|].
  rewrite Hl in Hl', Hl''. apply app_inv_head in Hl', Hl''. subst tl' tl''.
  exists tl. split_and!; [done|..]; [exact Hp|exact Hn|exact Hr].
Qed.

(** ** Verifier: the body-length threshold *)

Section body_length.
Import Verifier.

Lemma sim_handlers {A} δ (R : A → A → Prop) (m m' : M A) handles (h h' : exn → M A) :
  sim δ R m m' → (∀ e, sim δ R (h e) (h' e)) →
  sim δ R (try_except m handles h) (try_except m' handles h').
Proof.
  intros Hm Hh w w' H. unfold try_except. destruct (Hm _ _ H) as [Hr Hw].
  destruct (m w) as [[a|e] w1], (m' w') as [[a'|e'] w1']; cbn in Hr, Hw; try done.
  subst e'. destruct (handles e); [by apply Hh|done].
Qed.

Context (cfg : Config) (env : Env) (n : Z).

Lemma sim_wait_threshold t :
  sim 0 same_flag (wait_for_page_complete cfg env t)
                  (wait_for_page_complete (with_body_min cfg n) env t).
Proof.
  unfold wait_for_page_complete, time_sleep. cbn [EXTRA_JS_SETTLE BODY_MIN_LENGTH with_body_min].
  apply sim_handlers.
  - repeat (eapply sim_bind; [apply sim_call|intros ? ? <-]).
    repeat case_match; by apply sim_ret.
  - intros e. repeat case_match; by apply sim_ret.
Qed.

Lemma sim_check_threshold url :
  sim 0 same_flag (check_with_selenium cfg env url)
                  (check_with_selenium (with_body_min cfg n) env url).
Proof.
  unfold check_with_selenium.
  cbn [SELENIUM_WAIT_SHORT SELENIUM_WAIT_LONG SELENIUM_MAX_WAIT_PER_URL with_body_min].
  eapply sim_bind; [apply sim_time|intros s ? ->]. rewrite Z.add_0_r.
  eapply sim_bind; [apply sim_navigate|intros [result|] ? <-]; [by apply sim_ret|].
  eapply sim_bind; [apply sim_wait_threshold|intros [ok detail] [ok' detail'] Hok].
  unfold same_flag in Hok. cbn [fst] in Hok. subst ok'. destruct ok.
  { eapply sim_bind; [apply sim_time|intros t ? ->]. by apply sim_ret. }
  eapply sim_bind; [apply sim_time|intros t ? ->]. rewrite Z.add_0_r.
  case_match; [|by apply sim_ret].
  eapply sim_bind; [apply sim_wait_threshold|intros [ok2 detail2] [ok2' detail2'] Hok2].
  unfold same_flag in Hok2. cbn [fst] in Hok2. subst ok2'.
  eapply sim_bind; [apply sim_time|intros t2 ? ->].
  destruct ok2; by apply sim_ret.
Qed.

Lemma sim_probe url :
  sim 0 eq (try_requests_head_or_get env url) (try_requests_head_or_get env url).
Proof.
  unfold try_requests_head_or_get. apply sim_try_except.
  - eapply sim_bind; [apply sim_call|intros ? ? <-]. by apply sim_ret.
  - intros e. by apply sim_ret.
Qed.

Lemma sim_verify_threshold v :
  sim 0 (λ r r' : string * string, r.1 = r'.1)
      (verify cfg env v) (verify (with_body_min cfg n) env v).
Proof.
  unfold verify. case_match; [by apply sim_ret|].
  eapply sim_bind; [apply sim_probe|intros [ok_req req_info] ? <-].
  eapply sim_bind; [apply sim_check_threshold|intros [ok detail] [ok' detail'] Hok].
  unfold same_flag in Hok. cbn [fst] in Hok. subst ok'.
  destruct ok; by apply sim_ret.
Qed.

End body_length.

(** [BODY_MIN_LENGTH] never changes a verdict: a page whose readiness waits
    return counts as loaded however short its body is, and with any other
    threshold the run makes the same calls, takes the same time and gives every
    cell the same status; only the wording of the detail depends on it. *)
Theorem body_length_never_changes_status cfg env n v w :
  let out := Verifier.verify cfg env v w in
  let out' := Verifier.verify (with_body_min cfg n) env v w in
  res_rel (λ r r', r.1 = r'.1) out.1 out'.1
  ∧ log out'.2 = log out.2
  ∧ now out'.2 = now out.2.
Proof.
  cbv zeta.
  destruct (sim_verify_threshold cfg env n v w w) as (Hr & Hl & Hn).
  { split; [done|lia]. }
  split_and!; [done|done|lia].
Qed.

(** ** Driver loop: one row *)

Section set_at_lemmas.
Implicit Types (df : DataFrame) (c : string) (v : cell).

Lemma set_at_len df idx c v : len (set_at df idx c v) = len df.
Proof.
  unfold set_at, len. destruct (has_column c df); cbn [rows].
  - apply length_alter.
  - apply length_imap.
Qed.

Lemma set_at_keeps_label df idx c c' v :
  c' ∈ columns df → c' ∈ columns (set_at df idx c v).
Proof.
  intros H. unfold set_at. destruct (has_column c df); cbn [columns]; [done|].
  set_solver.
Qed.

Lemma set_at_lookup df idx c v j :
  rows (set_at df idx c v) !! j =
  (λ r, if has_column c df
        then (if decide (idx = j) then <[c := v]> r else r)
        else <[c := if bool_decide (j = idx) then v else NaN]> r) <$> rows df !! j.
Proof.
  unfold set_at. destruct (has_column c df); cbn [rows].
  - rewrite list_lookup_alter. destruct (decide (idx = j)) as [->|]; [done|].
    by destruct (rows df !! j).
  - by rewrite list_lookup_imap.
Qed.

Lemma status_of_set_at_other df idx c v j :
  c ≠ "status" → status_of (set_at df idx c v) j = status_of df j.
Proof.
  intros Hc. unfold status_of. rewrite set_at_lookup.
  destruct (rows df !! j) as [r|]; [|done]. cbn [fmap option_fmap option_map].
  f_equal. destruct (has_column c df); [destruct (decide (idx = j))|];
    by rewrite ?value_insert_ne.
Qed.

Lemma status_of_set_at_status df idx v j :
  "status" ∈ columns df →
  status_of (set_at df idx "status" v) j
  = if decide (idx = j) then (λ _, v) <$> rows df !! j else status_of df j.
Proof.
  intros Hc. unfold status_of. rewrite set_at_lookup, has_column_true by done.
  destruct (decide (idx = j)); [|by destruct (rows df !! j)].
  destruct (rows df !! j) as [r|]; [|done]. cbn [fmap option_fmap option_map].
  unfold value. by rewrite lookup_insert_eq.
Qed.



Lemma at_some df idx c v : at_ df idx c = Ok v → (idx < len df)%nat.
Proof.
  unfold at_. destruct (rows df !! idx) as [r|] eqn:Hr; [|done].
  intros _. by apply lookup_lt_Some in Hr.
Qed.

End set_at_lemmas.

Section loop_lemmas.
Import Driver.
Context (cfg : Config) (env : Env) (url_col : string).

Lemma checkpoint_eq l w :
  checkpoint cfg env (l, w) =
  match Checkpoint.atomic_write_csv env (df l) (OUTPUT_CSV cfg) w with
  | (Ok _, w1) =>
      ((Checkpoint.save_checkpoint_meta env (meta l) (CHECKPOINT_JSON cfg) w1).1,
       (l, (Checkpoint.save_checkpoint_meta env (meta l) (CHECKPOINT_JSON cfg) w1).2))
  | (Raise e, w1) => (Raise e, (l, w1))
  end.
Proof.
  unfold checkpoint, bind, get_df, get_meta, io. cbn [fst snd].
  destruct (Checkpoint.atomic_write_csv env (df l) (OUTPUT_CSV cfg) w) as [[[]|e] w1];
    [|done].
  cbn [fst].
  by destruct (Checkpoint.save_checkpoint_meta env (meta l) (CHECKPOINT_JSON cfg) w1).
Qed.

Lemma checkpoint_locals l w : (checkpoint cfg env (l, w)).2.1 = l.
Proof.
  rewrite checkpoint_eq.
  by destruct (Checkpoint.atomic_write_csv env (df l) (OUTPUT_CSV cfg) w) as [[[]|e] w1].
Qed.

(** The loop body, outcome by outcome. *)
Lemma loop_body_eq idx l w :
  loop_body cfg env url_col idx (l, w) =
  match at_ (df l) idx url_col with
  | Raise e => (Raise e, (l, w))
  | Ok v =>
      match Verifier.verify cfg env v w with
      | (Raise e, w1) => (Raise e, (l, w1))
      | (Ok (status, detail), w1) =>
          let l1 := recorded idx status detail l in
          if (AUTOSAVE_EVERY cfg <=? processed_since_save l + 1)%Z then
            let saved := checkpoint cfg env (l1, w1) in
            match saved.1 with
            | Ok _ => (Ok (), (counted_from_0 l1, saved.2.2))
            | Raise e =>
                if is_Exception e then (Ok (), (counted_from_0 l1, saved.2.2))
                else (Raise e, (l1, saved.2.2))
            end
          else (Ok (), (l1, w1))
      end
  end.
Proof.
  unfold loop_body. unfold bind at 1. unfold get_df at 1. cbn [fst].
  unfold bind at 1. unfold lift at 1.
  destruct (at_ (df l) idx url_col) as [v|e]; [|done].
  unfold bind at 1. unfold io at 1.
  destruct (Verifier.verify cfg env v w) as [[[status detail]|e] w1]; [|done].
  cbv zeta.
  unfold bind at 1, set_cell at 1. unfold bind at 1, set_cell at 1.
  unfold bind at 1, get_meta at 1. unfold bind at 1, set_meta at 1.
  unfold bind at 1, get_counter at 1. unfold bind at 1, set_counter at 1.
  cbn [fst snd df meta processed_since_save].
  fold (recorded idx status detail l).
  destruct (AUTOSAVE_EVERY cfg <=? processed_since_save l + 1)%Z; [|done].
  unfold bind, try_except.
  pose proof (checkpoint_locals (recorded idx status detail l) w1) as Hl.
  destruct (checkpoint cfg env (recorded idx status detail l, w1)) as [[[]|e] [l2 w2]];
    cbn [fst snd] in *; subst l2; [done|].
  by destruct (is_Exception e).
Qed.

End loop_lemmas.

Section loop_outcomes.
Import Driver.
Context (cfg : Config) (env : Env) (url_col : string).






Lemma run_loop_eq first l w :
  run_loop cfg env url_col first (l, w) =
  let loop := for_each cfg env url_col (seq first (len (df l) - first)) (l, w) in
  let saved := final_save cfg env loop.2 in
  (match saved.1 with Ok _ => loop.1 | Raise e => Raise e end, saved.2).
Proof.
  unfold run_loop, bind, get_df, try_finally. cbn [fst]. cbv zeta.
  destruct (for_each cfg env url_col _ (l, w)) as [r s1]. cbn [fst snd].
  by destruct (final_save cfg env s1) as [[[]|e] s2].
Qed.

End loop_outcomes.



(** ** Driver loop: a run that completes *)

Section completed.
Import Driver.
Context (cfg : Config) (env : Env) (url_col : string).

Lemma terminal_processed v : terminal v → is_unprocessed v = false.
Proof. by intros [->| ->]. Qed.

(** What a row that was processed without interruption leaves behind. *)
Lemma loop_body_done idx l w s' :
  loop_body cfg env url_col idx (l, w) = (Ok (), s') →
  "status" ∈ columns (df l) →
  "status" ∈ columns (df s'.1)
  ∧ len (df s'.1) = len (df l)
  ∧ (idx < len (df l))%nat
  ∧ (∃ v, status_of (df s'.1) idx = Some v ∧ terminal v)
  ∧ (∀ j, j ≠ idx → status_of (df s'.1) j = status_of (df l) j)
  ∧ meta s'.1 !! "last_processed_index" = Some (JNum (Z.of_nat idx)).
Proof.
  rewrite loop_body_eq. intros Hrun Hst.
  destruct (at_ (df l) idx url_col) as [v|e] eqn:Hat; [|done].
  apply at_some in Hat.
  destruct (Verifier.verify cfg env v w) as [[[status detail]|e] w1] eqn:Hv; [|done].
  apply verify_status in Hv.
  assert (terminal (Str status)) as Hterm.
  { destruct Hv as [[-> _]|[-> _]]; [by left|by right]. }
  assert (df s'.1 = df (recorded idx status detail l)
          ∧ meta s'.1 = meta (recorded idx status detail l)) as [Hdf Hmeta].
  { cbv zeta in Hrun.
    destruct (AUTOSAVE_EVERY cfg <=? processed_since_save l + 1)%Z;
      [|by injection Hrun as <-].
    destruct (checkpoint cfg env _).1 as [[]|e]; [by injection Hrun as <-|].
    destruct (is_Exception e); [by injection Hrun as <-|done]. }
  rewrite Hdf, Hmeta. unfold recorded. cbn [df meta].
  split_and!.
  - by do 2 apply set_at_keeps_label.
  - by rewrite !set_at_len.
  - done.
  - exists (Str status). split; [|done].
    rewrite status_of_set_at_other, status_of_set_at_status by done.
    rewrite decide_True by done.
    destruct (lookup_lt_is_Some_2 (rows (df l)) idx Hat) as [r ->]. done.
  - intros j Hj.
    rewrite status_of_set_at_other, status_of_set_at_status by done.
    by rewrite decide_False.
  - by rewrite lookup_insert_eq.
Qed.

Lemma for_each_done idxs l w s' :
  for_each cfg env url_col idxs (l, w) = (Ok (), s') →
  "status" ∈ columns (df l) →
  "status" ∈ columns (df s'.1)
  ∧ len (df s'.1) = len (df l)
  ∧ Forall (λ idx, idx < len (df l))%nat idxs
  ∧ (∀ j, j ∈ idxs → ∃ v, status_of (df s'.1) j = Some v ∧ terminal v)
  ∧ (∀ j, j ∉ idxs → status_of (df s'.1) j = status_of (df l) j)
  ∧ (∀ idx, last idxs = Some idx →
            meta s'.1 !! "last_processed_index" = Some (JNum (Z.of_nat idx))).
Proof.
  revert l w. induction idxs as [|idx idxs IH]; intros l w Hrun Hst.
  { injection Hrun as <-. cbn [fst]. split_and!; try done.
    intros j Hj. by apply elem_of_nil in Hj. }
  cbn [for_each] in Hrun. unfold bind in Hrun.
  destruct (loop_body cfg env url_col idx (l, w)) as [[[]|e] [l1 w1]] eqn:Hbody; [|done].
  destruct (loop_body_done _ _ _ _ Hbody Hst)
    as (Hst1 & Hlen1 & Hidx & (v & Hv & Hterm) & Hother & Hmeta).
  cbn [fst] in *.
  destruct (IH _ _ Hrun Hst1) as (Hst' & Hlen' & Hidxs & Hin & Hout & Hlast).
  split_and!.
  - done.
  - congruence.
  - apply Forall_cons. split; [done|]. by rewrite <- Hlen1.
  - intros j [->|Hj]%elem_of_cons; [|by apply Hin].
    destruct (decide (idx ∈ idxs)) as [Hi|Hi]; [by apply Hin|].
    exists v. by rewrite Hout.
  - intros j [Hne Hj]%not_elem_of_cons. rewrite Hout by done. by apply Hother.
  - intros i Hi. destruct idxs as [|idx' idxs'].
    + injection Hi as <-. injection Hrun as <-. done.
    + apply Hlast. by rewrite last_cons_cons in Hi.
Qed.

Lemma final_save_locals l w :
  df (final_save cfg env (l, w)).2.1 = df l
  ∧ ∀ x, meta l !! "last_processed_index" = Some x →
         meta (final_save cfg env (l, w)).2.1 !! "last_processed_index" = Some x.
Proof.
  unfold final_save, bind, try_except, io, get_df, get_meta, set_meta, ret, call.
  cbn [fst snd].
  repeat (case_match; cbn [fst snd df meta] in *; simplify_eq);
    cbn [fst snd df meta];
    (split; [done|]; intros x Hx; by rewrite ?lookup_insert_eq, ?Hx).
Qed.

End completed.

(** The table and the record after a run that returned. *)
Lemma run_loop_done cfg env url_col first l w :
  let out := Driver.run_loop cfg env url_col first (l, w) in
  let d' := Driver.df out.2.1 in
  first_unprocessed (Driver.df l) = Ok first →
  out.1 = Ok () →
  len d' = len (Driver.df l)
  ∧ (∀ j, (first ≤ j < len d')%nat → ∃ v, status_of d' j = Some v ∧ terminal v)
  ∧ (∀ j, (j < first)%nat → status_of d' j = status_of (Driver.df l) j)
  ∧ first_unprocessed d' = Raise StopIteration
  ∧ Driver.meta out.2.1 !! "last_processed_index"
    = Some (JNum (Z.of_nat (len d' - 1))).
Proof.
  intros out d' Hfirst Hout.
  pose proof (first_unprocessed_spec (Driver.df l)) as Hspec. rewrite Hfirst in Hspec.
  destruct Hspec as (Hst & (v0 & Hv0 & _) & Hbefore).
  assert (first < len (Driver.df l))%nat as Hlt.
  { unfold status_of in Hv0. destruct (rows (Driver.df l) !! first) eqn:Hr; [|done].
    by apply lookup_lt_Some in Hr. }
  subst d' out. rewrite run_loop_eq in *. cbv zeta in *.
  cbn [fst snd] in *.
  destruct (Driver.for_each cfg env url_col _ (l, w)) as [r [l1 w1]] eqn:Hloop.
  cbn [fst snd] in *.
  destruct (final_save_locals cfg env l1 w1) as [Hdf Hmeta].
  destruct (Driver.final_save cfg env (l1, w1)) as [[[]|e] [l2 w2]]; [|done].
  cbn [fst snd] in *. subst r.
  destruct (for_each_done _ _ _ _ _ _ _ Hloop Hst)
    as (Hst1 & Hlen & _ & Hin & Hnotin & Hlast).
  cbn [fst] in *. rewrite Hdf.
  assert (∀ j, (first ≤ j < len (Driver.df l1))%nat →
               ∃ v, status_of (Driver.df l1) j = Some v ∧ terminal v) as Hterm.
  { intros j Hj. apply Hin. apply list_elem_of_In, in_seq. lia. }
  assert (∀ j, (j < first)%nat →
               status_of (Driver.df l1) j = status_of (Driver.df l) j) as Hkept.
  { intros j Hj. apply Hnotin. intros Hin'%list_elem_of_In%in_seq. lia. }
  split_and!; [done|done|done| |].
  - apply first_unprocessed_none; [done|]. intros j v Hv.
    destruct (decide (j < first)%nat) as [Hj|Hj].
    + rewrite Hkept in Hv by done. by eapply Hbefore.
    + assert (j < len (Driver.df l1))%nat as Hjl.
      { unfold status_of in Hv. destruct (rows (Driver.df l1) !! j) eqn:Hr; [|done].
        by apply lookup_lt_Some in Hr. }
      destruct (Hterm j) as (v' & Hv' & Ht); [lia|].
      rewrite Hv in Hv'. injection Hv' as <-. by apply terminal_processed.
  - apply Hmeta, Hlast.
    replace (len (Driver.df l) - first)%nat with (S (len (Driver.df l) - first - 1)) by lia.
    rewrite seq_S, last_snoc. f_equal. lia.
Qed.

(** A run that completes leaves nothing to do.  When the row loop and the
    final save return, the table has as many rows as before, every row from
    the first unprocessed one on has status valid or invalid, the rows before
    it have the status they had, the checkpoint record names the last row, and
    the search for an unprocessed row now raises [StopIteration]: a second run
    on this table takes the exit for a finished table and verifies nothing. *)
Theorem completed_run_leaves_nothing_to_do cfg env url_col first l w :
  let out := Driver.run_loop cfg env url_col first (l, w) in
  let d' := Driver.df out.2.1 in
  first_unprocessed (Driver.df l) = Ok first →
  out.1 = Ok () →
  len d' = len (Driver.df l)
  ∧ (∀ j, (first ≤ j < len d')%nat → ∃ v, status_of d' j = Some v ∧ terminal v)
  ∧ (∀ j, (j < first)%nat → status_of d' j = status_of (Driver.df l) j)
  ∧ first_unprocessed d' = Raise StopIteration
  ∧ Driver.meta out.2.1 !! "last_processed_index"
    = Some (JNum (Z.of_nat (len d' - 1))).
Proof. apply run_loop_done. Qed.

Lemma completed_run_leaves_nothing_to_do_witness :
  first_unprocessed
    (Driver.df (Driver.run_loop source_config (scripted b_hangs []) "url" 0
                  (from_row_0 (fresh ab))).2.1)
  = Raise StopIteration.
Proof.
  destruct (completed_run_leaves_nothing_to_do source_config (scripted b_hangs []) "url" 0
              (from_row_0 (fresh ab)).1 (from_row_0 (fresh ab)).2)
    as (_ & _ & _ & H & _); [reflexivity|vm_compute; reflexivity|].
  exact H.
Defined.

(** ** Driver loop: how often it saves *)

Section cadence.
Import Driver.
Context (cfg : Config) (env : Env) (url_col : string).

Lemma atomic_write_csv_log d path w :
  log (Checkpoint.atomic_write_csv env d path w).2 = (log w ++ [EvAtomicWriteCsv d path])%list.
Proof.
  unfold Checkpoint.atomic_write_csv, Checkpoint.run_steps.
  by destruct (Checkpoint.atomic_write_csv_steps _ _ _ _ _).
Qed.

Lemma save_checkpoint_meta_log m path w :
  log (Checkpoint.save_checkpoint_meta env m path w).2
  = (log w ++ [EvSaveCheckpointMeta m path])%list.
Proof.
  unfold Checkpoint.save_checkpoint_meta, Checkpoint.run_steps.
  by destruct (Checkpoint.save_checkpoint_meta_steps _ _ _ _).
Qed.

Lemma checkpoint_log l w :
  ∃ tl, log (checkpoint cfg env (l, w)).2.2 = (log w ++ tl)%list
      ∧ count is_csv_write tl = 1%nat.
Proof.
  rewrite checkpoint_eq.
  pose proof (atomic_write_csv_log (df l) (OUTPUT_CSV cfg) w) as Hcsv.
  destruct (Checkpoint.atomic_write_csv env (df l) (OUTPUT_CSV cfg) w) as [[[]|e] w1];
    cbn [fst snd] in *.
  - rewrite save_checkpoint_meta_log, Hcsv, <- app_assoc. by eexists.
  - rewrite Hcsv. by eexists.
Qed.

Lemma verify_no_csv_write v w :
  ∃ tl, log (Verifier.verify cfg env v w).2 = (log w ++ tl)%list
      ∧ count is_csv_write tl = 0%nat.
Proof.
  destruct (at_most_verify cfg env is_csv_write 0 v) with (w := w) as (tl & Hl & Hc);
    [done|].
  exists tl. split; [done|]. cbn in Hc. lia.
Qed.

Lemma loop_body_saves idx l w s' :
  loop_body cfg env url_col idx (l, w) = (Ok (), s') →
  ∃ tl, log s'.2 = (log w ++ tl)%list
      ∧ if (AUTOSAVE_EVERY cfg <=? processed_since_save l + 1)%Z
        then count is_csv_write tl = 1%nat ∧ processed_since_save s'.1 = 0%Z
        else count is_csv_write tl = 0%nat
             ∧ processed_since_save s'.1 = (processed_since_save l + 1)%Z.
Proof.
  rewrite loop_body_eq.
  destruct (at_ (df l) idx url_col) as [v|e]; [|done].
  destruct (verify_no_csv_write v w) as (tl & Hl & Hc).
  destruct (Verifier.verify cfg env v w) as [[[status detail]|e] w1]; [|done].
  cbn [snd] in Hl. cbv zeta.
  destruct (AUTOSAVE_EVERY cfg <=? processed_since_save l + 1)%Z.
  - destruct (checkpoint_log (recorded idx status detail l) w1) as (tl' & Hl' & Hc').
    intros Hrun.
    assert (s' = (counted_from_0 (recorded idx status detail l),
                  (checkpoint cfg env (recorded idx status detail l, w1)).2.2)) as ->.
    { destruct (checkpoint cfg env _).1 as [[]|e]; [by injection Hrun|].
      destruct (is_Exception e); [by injection Hrun|done]. }
    cbn [fst snd]. exists (tl ++ tl')%list.
    rewrite Hl', Hl, app_assoc, count_app, Hc, Hc'. done.
  - intros [= <-]. exists tl. done.
Qed.

Lemma for_each_saves idxs l w s' :
  let k := AUTOSAVE_EVERY cfg in
  let c := processed_since_save l in
  for_each cfg env url_col idxs (l, w) = (Ok (), s') →
  (0 ≤ c < k)%Z →
  ∃ tl, log s'.2 = (log w ++ tl)%list
      ∧ Z.of_nat (count is_csv_write tl) = ((c + Z.of_nat (length idxs)) / k)%Z
      ∧ processed_since_save s'.1 = ((c + Z.of_nat (length idxs)) mod k)%Z.
Proof.
  cbv zeta. revert l w. induction idxs as [|idx idxs IH]; intros l w Hrun Hc.
  { injection Hrun as <-. exists []. cbn [fst snd length].
    rewrite app_nil_r, Z.add_0_r, Z.div_small, Z.mod_small by lia. done. }
  cbn [for_each] in Hrun. unfold bind in Hrun.
  destruct (loop_body cfg env url_col idx (l, w)) as [[[]|e] [l1 w1]] eqn:Hbody; [|done].
  destruct (loop_body_saves _ _ _ _ Hbody) as (tl & Hl & Hcase). cbn [fst snd] in *.
  destruct (AUTOSAVE_EVERY cfg <=? processed_since_save l + 1)%Z eqn:Hk;
    destruct Hcase as [Hcount Hcounter];
    (destruct (IH _ _ Hrun) as (tl' & Hl' & Hcount' & Hcounter'); [lia|]);
    exists (tl ++ tl')%list;
    rewrite Hl', Hl, app_assoc, count_app, Hcounter', Nat2Z.inj_add, Hcount', Hcount,
      Hcounter;
    (split; [done|]).
  - apply Z.leb_le in Hk.
    assert (processed_since_save l + 1 = AUTOSAVE_EVERY cfg)%Z as Heq by lia.
    replace (processed_since_save l + Z.of_nat (length (idx :: idxs)))%Z
      with (1 * AUTOSAVE_EVERY cfg + (0 + Z.of_nat (length idxs)))%Z
      by (cbn [length]; lia).
    rewrite Z.div_add_l by lia.
    rewrite (Z.add_comm (1 * AUTOSAVE_EVERY cfg)), Z_mod_plus_full.
    split; [lia|done].
  - replace (processed_since_save l + Z.of_nat (length (idx :: idxs)))%Z
      with (processed_since_save l + 1 + Z.of_nat (length idxs))%Z
      by (cbn [length]; lia).
    done.
Qed.

End cadence.

(** With [AUTOSAVE_EVERY = k], k at least 1, a loop that runs over n rows
    without being interrupted writes the table n div k times, once after every
    k-th row, and ends with n mod k processed rows not yet saved (which the
    final save then writes); with k = 1 the table is written after every
    row. *)
Theorem checkpoint_every_kth_row cfg env url_col idxs l w s' :
  let k := AUTOSAVE_EVERY cfg in
  let n := Z.of_nat (length idxs) in
  (1 ≤ k)%Z →
  Driver.processed_since_save l = 0%Z →
  Driver.for_each cfg env url_col idxs (l, w) = (Ok (), s') →
  ∃ tl, log s'.2 = (log w ++ tl)%list
      ∧ Z.of_nat (count is_csv_write tl) = (n / k)%Z
      ∧ Driver.processed_since_save s'.1 = (n mod k)%Z.
Proof.
  intros k n Hk Hc Hrun.
  destruct (for_each_saves cfg env url_col idxs l w s' Hrun) as (tl & Hl & Hn & Hm);
    [lia|].
  rewrite Hc, Z.add_0_l in Hn, Hm. by exists tl.
Qed.

Lemma checkpoint_every_kth_row_witness :
  let run := Driver.for_each (with_autosave source_config 2) (scripted b_hangs []) "url"
               [0; 1; 2]%nat (from_row_0 (fresh abc)) in
  count is_csv_write (log run.2.2) = 1%nat
  ∧ Driver.processed_since_save run.2.1 = 1%Z.
Proof.
  cbv zeta.
  destruct (checkpoint_every_kth_row (with_autosave source_config 2) (scripted b_hangs [])
              "url" [0; 1; 2]%nat (from_row_0 (fresh abc)).1 (from_row_0 (fresh abc)).2
              (Driver.for_each (with_autosave source_config 2) (scripted b_hangs []) "url"
                 [0; 1; 2]%nat (from_row_0 (fresh abc))).2)
    as (tl & Hl & Hn & Hm); [done|reflexivity|vm_compute; reflexivity|].
  split; [|exact Hm].
  cbn [log snd from_row_0 boot app] in Hl. rewrite Hl.
  apply Nat2Z.inj. exact Hn.
Defined.

(** ** Checkpoint manager: temporary files *)

Section temporary_files.
Import Checkpoint.
Implicit Types (path tmp data : string).

Lemma final_cons (st : gmap string string) (l : list (gmap string string)) fs0 :
  final (st :: l) fs0 = final l st.
Proof.
  unfold final. revert st fs0. induction l as [|x l IH]; intros st fs0; [done|].
  change (List.last (st :: x :: l) fs0) with (List.last (x :: l) fs0).
  by rewrite !IH.
Qed.

Lemma final_snoc (st : gmap string string) (l : list (gmap string string)) fs0 :
  final (l ++ [st]) fs0 = st.
Proof. apply last_last. Qed.

(** A table write that fails ends where it started, but for the temporary file. *)
Lemma atomic_write_csv_fails data path tmp flt (fs0 : gmap string string) e q :
  fault_exn flt = Some e →
  (atomic_write_csv_steps data path tmp flt fs0).2 = Raise e
  ∧ final (atomic_write_csv_steps data path tmp flt fs0).1 fs0 !! q
    = if decide (q = tmp) then None else fs0 !! q.
Proof.
  intros Hflt. unfold atomic_write_csv_steps.
  destruct flt as [|k e'|e']; [done|injection Hflt as ->..]; cbn [fst snd];
    (split; [done|]); rewrite !final_cons, !final_written;
    rewrite bool_decide_eq_true_2 by (by rewrite lookup_insert_eq);
    rewrite final_snoc; destruct (decide (q = tmp)) as [->|];
    by rewrite ?lookup_delete_eq, ?lookup_delete_ne, ?lookup_insert_ne.
Qed.

(** A record write that fails leaves its temporary file behind. *)
Lemma save_checkpoint_meta_fails data path flt (fs0 : gmap string string) e :
  fault_exn flt = Some e →
  (save_checkpoint_meta_steps data path flt fs0).2 = Raise e
  ∧ ∃ k, final (save_checkpoint_meta_steps data path flt fs0).1 fs0
         = <[path +:+ ".tmp" := prefix_of data k]> fs0
       ∧ (k ≤ String.length data)%nat
       ∧ ((∃ e', flt = ReplaceFails e') → k = String.length data).
Proof.
  intros Hflt. unfold save_checkpoint_meta_steps.
  destruct flt as [|k e'|e']; [done|injection Hflt as ->..]; cbn [fst snd];
    (split; [done|]); rewrite final_cons, final_written.
  - exists (Nat.min k (String.length data)). split_and!; [done|lia|].
    by intros [? ?].
  - exists (String.length data). done.
Qed.

End temporary_files.

(** [atomic_write_csv] removes its temporary file however it ends, and when
    it fails every other file, the target among them, is as it was;
    [save_checkpoint_meta] removes its temporary file only when it succeeds:
    when the write or the replace fails, [<path>.tmp] stays behind with the
    part of the record that was written, the whole record if it was the
    replace that failed. *)
Theorem temporary_files_after_a_write env df meta path w :
  let tmp := tmp_for env path (log w) in
  let flt := write_fault env (log w) in
  let table := Checkpoint.atomic_write_csv env df path w in
  let record := Checkpoint.save_checkpoint_meta env meta path w in
  tmp ≠ path →
  fs table.2 !! tmp = None
  ∧ (∀ e, fault_exn flt = Some e →
          table.1 = Raise e ∧ ∀ q, q ≠ tmp → fs table.2 !! q = fs w !! q)
  ∧ (flt = NoFault → fs record.2 !! (path +:+ ".tmp") = None)
  ∧ (∀ e, fault_exn flt = Some e →
          record.1 = Raise e
          ∧ (∀ q, q ≠ path +:+ ".tmp" → fs record.2 !! q = fs w !! q)
          ∧ ∃ k, fs record.2 !! (path +:+ ".tmp")
                 = Some (Checkpoint.prefix_of (json_dumps env meta) k)
               ∧ ((∃ e', flt = ReplaceFails e') →
                  Checkpoint.prefix_of (json_dumps env meta) k = json_dumps env meta)).
Proof.
  intros tmp flt table record Hne.
  assert (table = ((Checkpoint.atomic_write_csv_steps (to_csv env df) path tmp flt (fs w)).2,
                   {| now := now w; log := log w ++ [EvAtomicWriteCsv df path];
                      fs := Checkpoint.final
                              (Checkpoint.atomic_write_csv_steps
                                 (to_csv env df) path tmp flt (fs w)).1 (fs w) |}))
    as Htable.
  { unfold table, Checkpoint.atomic_write_csv, Checkpoint.run_steps.
    fold (tmp_for env path (log w)). fold tmp flt.
    by destruct (Checkpoint.atomic_write_csv_steps _ _ _ _ _). }
  assert (record
          = ((Checkpoint.save_checkpoint_meta_steps (json_dumps env meta) path flt (fs w)).2,
             {| now := now w; log := log w ++ [EvSaveCheckpointMeta meta path];
                fs := Checkpoint.final
                        (Checkpoint.save_checkpoint_meta_steps
                           (json_dumps env meta) path flt (fs w)).1 (fs w) |}))
    as Hrecord.
  { unfold record, Checkpoint.save_checkpoint_meta, Checkpoint.run_steps. fold flt.
    by destruct (Checkpoint.save_checkpoint_meta_steps _ _ _ _). }
  rewrite Htable, Hrecord. cbn [fst snd fs]. split_and!.
  - destruct flt as [|k e|e] eqn:Hflt.
    + rewrite atomic_write_csv_installs by done.
      by rewrite lookup_insert_ne, lookup_delete_eq.
    + destruct (atomic_write_csv_fails (to_csv env df) path tmp (WriteFails k e)
                  (fs w) e tmp) as [_ ->]; [done|]. by rewrite decide_True.
    + destruct (atomic_write_csv_fails (to_csv env df) path tmp (ReplaceFails e)
                  (fs w) e tmp) as [_ ->]; [done|]. by rewrite decide_True.
  - intros e He. split.
    + by destruct (atomic_write_csv_fails (to_csv env df) path tmp flt (fs w) e tmp He).
    + intros q Hq.
      destruct (atomic_write_csv_fails (to_csv env df) path tmp flt (fs w) e q He)
        as [_ ->].
      by rewrite decide_False.
  - intros ->. rewrite save_checkpoint_meta_installs.
    rewrite lookup_insert_ne
      by (intros Heq; symmetry in Heq; revert Heq; by apply append_ne_self).
    by rewrite lookup_delete_eq.
  - intros e He.
    destruct (save_checkpoint_meta_fails (json_dumps env meta) path flt (fs w) e He)
      as (Hr & k & Hfs & _ & Hall).
    rewrite Hfs. split_and!; [done| |].
    + intros q Hq. by rewrite lookup_insert_ne.
    + exists k. split; [by rewrite lookup_insert_eq|].
      intros Hrep. rewrite (Hall Hrep). apply prefix_of_all.
Qed.

Lemma temporary_files_after_a_write_witness :
  let env := with_write_fault (scripted b_hangs [])
               (λ _, ReplaceFails (OSError "Access is denied")) in
  let record := Checkpoint.save_checkpoint_meta env after_row_1 "D:\out\ck.json" boot in
  record.1 = Raise (OSError "Access is denied")
  ∧ ∃ k, fs record.2 !! "D:\out\ck.json.tmp"
         = Some (Checkpoint.prefix_of (json_of after_row_1) k).
Proof.
  cbv zeta.
  destruct (temporary_files_after_a_write
              (with_write_fault (scripted b_hangs [])
                 (λ _, ReplaceFails (OSError "Access is denied")))
              abc after_row_1 "D:\out\ck.json" boot) as (_ & _ & _ & Hrecord);
    [done|].
  destruct (Hrecord (OSError "Access is denied")) as (Hr & _ & k & Hk & _);
    [reflexivity|].
  split; [exact Hr|]. exists k. exact Hk.
Defined.

(** ** Checkpoint manager: reading back what was saved *)

(** What [save_checkpoint_meta] writes, [load_checkpoint_meta] reads back:
    after a save without failure the file holds the serialised record and no
    temporary file remains, and loading gives the record that [json.load]
    parses out of it, the saved record itself when the parser inverts the
    serialiser; a record that cannot be parsed loads as [None]. *)
Theorem save_then_load_checkpoint_meta env meta path w :
  let saved := Checkpoint.save_checkpoint_meta env meta path w in
  let loaded := Checkpoint.load_checkpoint_meta env path saved.2 in
  write_fault env (log w) = NoFault →
  saved.1 = Ok ()
  ∧ fs saved.2 !! path = Some (json_dumps env meta)
  ∧ fs saved.2 !! (path +:+ ".tmp") = None
  ∧ loaded.2 = saved.2
  ∧ (json_loads env (json_dumps env meta) = Ok meta → loaded.1 = Ok (Some meta))
  ∧ (∀ e, json_loads env (json_dumps env meta) = Raise e → is_Exception e = true →
          loaded.1 = Ok None).
Proof.
  intros saved loaded Hflt. unfold loaded, saved.
  rewrite save_checkpoint_meta_ok by done. cbn [fst snd fs].
  assert (path ≠ path +:+ ".tmp") as Hne.
  { intros Heq. symmetry in Heq. revert Heq. by apply append_ne_self. }
  unfold Checkpoint.load_checkpoint_meta. cbn [fs].
  rewrite lookup_insert_eq.
  split_and!.
  - done.
  - done.
  - by rewrite lookup_insert_ne, lookup_delete_eq.
  - destruct (json_loads env (json_dumps env meta)) as [m|e]; [done|].
    by destruct (is_Exception e).
  - by intros ->.
  - by intros e -> ->.
Qed.

Lemma save_then_load_checkpoint_meta_witness :
  let env := with_json_loads (scripted b_hangs []) loads_after_row_1 in
  (Checkpoint.load_checkpoint_meta env "D:\out\ck.json"
     (Checkpoint.save_checkpoint_meta env after_row_1 "D:\out\ck.json" boot).2).1
  = Ok (Some after_row_1).
Proof.
  cbv zeta.
  destruct (save_then_load_checkpoint_meta
              (with_json_loads (scripted b_hangs []) loads_after_row_1)
              after_row_1 "D:\out\ck.json" boot) as (_ & _ & _ & _ & Hload & _);
    [reflexivity|].
  apply Hload. reflexivity.
Defined.

(** ** Driver loop: a checkpoint and the next start *)

Section restart.
Import Driver.
Context (cfg : Config) (env : Env).

Lemma checkpoint_ok l w :
  write_fault env (log w) = NoFault →
  write_fault env (log w ++ [EvAtomicWriteCsv (df l) (OUTPUT_CSV cfg)]) = NoFault →
  tmp_for env (OUTPUT_CSV cfg) (log w) ≠ OUTPUT_CSV cfg →
  checkpoint cfg env (l, w)
  = (Ok (),
     (l, {| now := now w;
            log := log w ++ [EvAtomicWriteCsv (df l) (OUTPUT_CSV cfg);
                             EvSaveCheckpointMeta (meta l) (CHECKPOINT_JSON cfg)];
            fs := <[CHECKPOINT_JSON cfg := json_dumps env (meta l)]>
                    (delete (CHECKPOINT_JSON cfg +:+ ".tmp")
                       (<[OUTPUT_CSV cfg := to_csv env (df l)]>
                          (delete (tmp_for env (OUTPUT_CSV cfg) (log w)) (fs w)))) |})).
Proof.
  intros Hflt Hflt' Htmp. rewrite checkpoint_eq.
  rewrite atomic_write_csv_ok by done.
  rewrite save_checkpoint_meta_ok by done.
  cbn [fst snd now log fs]. by rewrite <- app_assoc.
Qed.

End restart.

(** What a checkpoint saves is what the next start resumes from.  After a
    checkpoint whose writes do not fail, [OUTPUT_CSV] holds the table with
    every status set so far and [CHECKPOINT_JSON] the record; and if the run
    dies right then, the next start, reading that file back into a table with
    the URL column and as many rows as the input, takes that table as its
    working table. *)
Theorem checkpoint_is_what_a_restart_resumes cfg env url_col original_df l w d' :
  let out := Driver.checkpoint cfg env (l, w) in
  write_fault env (log w) = NoFault →
  write_fault env (log w ++ [EvAtomicWriteCsv (Driver.df l) (OUTPUT_CSV cfg)]) = NoFault →
  tmp_for env (OUTPUT_CSV cfg) (log w) ≠ OUTPUT_CSV cfg →
  separate_paths cfg →
  read_csv env (to_csv env (Driver.df l)) = Ok d' →
  url_col ∈ columns d' → len d' = len original_df →
  out.1 = Ok ()
  ∧ fs out.2.2 !! OUTPUT_CSV cfg = Some (to_csv env (Driver.df l))
  ∧ fs out.2.2 !! CHECKPOINT_JSON cfg = Some (json_dumps env (Driver.meta l))
  ∧ reconcile url_col original_df (Driver.previous cfg env (fs out.2.2)) = Ok d'.
Proof.
  intros out Hflt Hflt' Htmp (_ & Hj & Hjt) Hread Hurl Hlen.
  unfold out. rewrite checkpoint_ok by done. cbn [fst snd fs].
  assert ((<[CHECKPOINT_JSON cfg := json_dumps env (Driver.meta l)]>
             (delete (CHECKPOINT_JSON cfg +:+ ".tmp")
                (<[OUTPUT_CSV cfg := to_csv env (Driver.df l)]>
                   (delete (tmp_for env (OUTPUT_CSV cfg) (log w)) (fs w)))))
          !! OUTPUT_CSV cfg = Some (to_csv env (Driver.df l))) as Hcsv.
  { by rewrite lookup_insert_ne, lookup_delete_ne, lookup_insert_eq. }
  split_and!; [done|done|by rewrite lookup_insert_eq|].
  unfold Driver.previous. rewrite Hcsv, Hread.
  unfold reconcile. rewrite has_column_true by done.
  by rewrite (proj2 (Nat.eqb_eq _ _)).
Qed.

Lemma checkpoint_is_what_a_restart_resumes_witness :
  let env := scripted b_hangs [(csv_of (fresh ab), fresh ab)] in
  let out := Driver.checkpoint source_config env (from_row_0 (fresh ab)) in
  reconcile "url" ab (Driver.previous source_config env (fs out.2.2)) = Ok (fresh ab).
Proof.
  cbv zeta.
  destruct (checkpoint_is_what_a_restart_resumes source_config
              (scripted b_hangs [(csv_of (fresh ab), fresh ab)]) "url" ab
              (from_row_0 (fresh ab)).1 (from_row_0 (fresh ab)).2 (fresh ab))
    as (_ & _ & _ & H).
  - reflexivity.
  - reflexivity.
  - vm_compute. discriminate.
  - by apply (bool_decide_unpack _).
  - vm_compute. reflexivity.
  - by apply (bool_decide_unpack _).
  - reflexivity.
  - exact H.
Defined.

(** ** Driver loop: a final save that fails *)

Section failed_save.
Import Driver.
Context (cfg : Config) (env : Env).

Lemma atomic_write_csv_raises d path w e :
  fault_exn (write_fault env (log w)) = Some e →
  ∃ files,
    Checkpoint.atomic_write_csv env d path w
    = (Raise e, {| now := now w; log := log w ++ [EvAtomicWriteCsv d path]; fs := files |})
    ∧ ∀ q, q ≠ tmp_for env path (log w) → files !! q = fs w !! q.
Proof.
  intros Hflt. unfold Checkpoint.atomic_write_csv, Checkpoint.run_steps.
  fold (tmp_for env path (log w)).
  pose proof (atomic_write_csv_fails (to_csv env d) path (tmp_for env path (log w))
                (write_fault env (log w)) (fs w) e) as Hfails.
  destruct (Checkpoint.atomic_write_csv_steps _ _ _ _ _) as [states r].
  cbn [fst snd] in Hfails. eexists. split.
  - f_equal. by destruct (Hfails path Hflt).
  - intros q Hq. destruct (Hfails q Hflt) as [_ ->]. by rewrite decide_False.
Qed.

Lemma final_save_fails l w e :
  quit_returns env (log w) →
  fault_exn (write_fault env (log w ++ [EvDriverQuit])) = Some e →
  is_Exception e = true →
  ∃ files,
    final_save cfg env (l, w)
    = (Ok (),
       (l, {| now := now w + (driver_quit env (log w)).2;
              log := log w ++ [EvDriverQuit; EvAtomicWriteCsv (df l) (OUTPUT_CSV cfg)];
              fs := files |}))
    ∧ ∀ q, q ≠ tmp_for env (OUTPUT_CSV cfg) (log w ++ [EvDriverQuit]) →
           files !! q = fs w !! q.
Proof.
  intros Hquit Hflt He. unfold final_save.
  unfold bind at 1. rewrite quit_swallowed by done.
  unfold try_except, bind, get_df, io. cbn [fst snd].
  destruct (atomic_write_csv_raises (df l) (OUTPUT_CSV cfg)
              {| now := now w + (driver_quit env (log w)).2;
                 log := log w ++ [EvDriverQuit]; fs := fs w |} e)
    as (files & -> & Hfiles); [done|].
  rewrite He. exists files. split; [|done].
  unfold ret. cbn [log]. by rewrite <- app_assoc.
Qed.

End failed_save.

(** When the table write of the final save fails with an [Exception], the
    spreadsheet and the checkpoint record are not written either: the only
    calls after the loop are the driver's [quit] and the failed write, no file
    changes but the temporary one, the error is swallowed, and the run ends the
    way the loop ended. *)
Theorem failed_final_save_is_silent cfg env url_col first l w e :
  let loop := Driver.for_each cfg env url_col
                (seq first (len (Driver.df l) - first)) (l, w) in
  let out := Driver.run_loop cfg env url_col first (l, w) in
  let hist := log loop.2.2 in
  quit_returns env hist →
  fault_exn (write_fault env (hist ++ [EvDriverQuit])) = Some e →
  is_Exception e = true →
  out.1 = loop.1
  ∧ out.2.1 = loop.2.1
  ∧ log out.2.2 = (hist ++ [EvDriverQuit;
                            EvAtomicWriteCsv (Driver.df loop.2.1) (OUTPUT_CSV cfg)])%list
  ∧ ∀ q, q ≠ tmp_for env (OUTPUT_CSV cfg) (hist ++ [EvDriverQuit]) →
         fs out.2.2 !! q = fs loop.2.2 !! q.
Proof.
  intros loop out hist Hquit Hflt He. unfold out. rewrite run_loop_eq. cbv zeta.
  fold loop. unfold hist in *. clear out hist.
  destruct loop as [r [l1 w1]]. cbn [fst snd] in *.
  destruct (final_save_fails cfg env l1 w1 e) as (files & -> & Hfiles); done.
Qed.

Lemma failed_final_save_is_silent_witness :
  let env := with_write_fault (scripted b_hangs []) full_after_quit in
  let out := Driver.run_loop source_config env "url" 0 (from_row_0 (fresh a_only)) in
  out.1 = Ok ()
  ∧ fs out.2.2 !! OUTPUT_XLSX source_config = None.
Proof.
  cbv zeta.
  destruct (failed_final_save_is_silent source_config
              (with_write_fault (scripted b_hangs []) full_after_quit)
              "url" 0 (from_row_0 (fresh a_only)).1 (from_row_0 (fresh a_only)).2
              (OSError "No space left on device"))
    as (Hr & _ & _ & Hfs).
  - vm_compute. exact I.
  - vm_compute. reflexivity.
  - reflexivity.
  - change ((from_row_0 (fresh a_only)).1, (from_row_0 (fresh a_only)).2)
      with (from_row_0 (fresh a_only)) in *.
    split.
    + rewrite Hr. vm_compute. reflexivity.
    + rewrite Hfs; [vm_compute; reflexivity|]. vm_compute. discriminate.
Defined.

(** ** The start of [main] *)

Section start.
Import Driver.
Context (cfg : Config) (env : Env).

Lemma previous_after_restart w :
  FORCE_RESTART cfg = true → previous cfg env (fs (force_restart cfg w).2) = NoFile.
Proof.
  intros H. unfold previous, force_restart. cbn [snd fs]. rewrite H.
  destruct (decide (OUTPUT_CSV cfg = CHECKPOINT_JSON cfg)) as [Heq|Hne].
  - by rewrite <- Heq, lookup_delete_eq.
  - by rewrite lookup_delete_ne, lookup_delete_eq.
Qed.

End start.

(** With [FORCE_RESTART] set, nothing of an earlier run is used.  Once the
    input is read and its URL column found, the previous output and the
    checkpoint record are deleted, no other file is touched, and the run goes
    on with every status blank and no checkpoint record to load.  If no URL
    column is found the run stops with the error before anything is
    deleted. *)
Theorem force_restart_discards_previous_run cfg env w original_df :
  let w' := (Driver.force_restart cfg w).2 in
  FORCE_RESTART cfg = true →
  Driver.read_input cfg env w = (Ok original_df, w) →
  fs w' !! OUTPUT_CSV cfg = None
  ∧ fs w' !! CHECKPOINT_JSON cfg = None
  ∧ (∀ p, p ≠ OUTPUT_CSV cfg → p ≠ CHECKPOINT_JSON cfg → fs w' !! p = fs w !! p)
  ∧ match find_url_column original_df with
    | Ok url_col =>
        Driver.main cfg env w
        = Driver.resume cfg env url_col (Driver.start (fresh original_df), w')
        ∧ Checkpoint.load_checkpoint_meta env (CHECKPOINT_JSON cfg) w' = (Ok None, w')
    | Raise e => Driver.main cfg env w = (Raise e, (Driver.start original_df, w))
    end.
Proof.
  intros w' Hforce Hread.
  assert (fs w' = delete (CHECKPOINT_JSON cfg) (delete (OUTPUT_CSV cfg) (fs w))) as Hfs.
  { unfold w', Driver.force_restart. cbn [snd fs]. by rewrite Hforce. }
  assert (fs w' !! CHECKPOINT_JSON cfg = None) as Hck.
  { by rewrite Hfs, lookup_delete_eq. }
  split_and!.
  - rewrite Hfs. destruct (decide (OUTPUT_CSV cfg = CHECKPOINT_JSON cfg)) as [Heq|Hne].
    + by rewrite <- Heq, lookup_delete_eq.
    + by rewrite lookup_delete_ne, lookup_delete_eq.
  - done.
  - intros p Hp Hp'. by rewrite Hfs, !lookup_delete_ne.
  - unfold Driver.main. rewrite Hread.
    destruct (find_url_column original_df) as [url_col|e]; [|done].
    fold w'. split.
    + unfold w'. by rewrite previous_after_restart.
    + unfold Checkpoint.load_checkpoint_meta. by rewrite Hck.
Qed.

Lemma force_restart_discards_previous_run_witness :
  let cfg := with_force_restart source_config true in
  let env := scripted b_hangs [("input", ab); ("previous", ab_valid)] in
  Driver.main cfg env (disk "input" "previous")
  = Driver.resume cfg env "url"
      (Driver.start (fresh ab), (Driver.force_restart cfg (disk "input" "previous")).2).
Proof.
  cbv zeta.
  destruct (force_restart_discards_previous_run (with_force_restart source_config true)
              (scripted b_hangs [("input", ab); ("previous", ab_valid)])
              (disk "input" "previous") ab) as (_ & _ & _ & H);
    [reflexivity|reflexivity|].
  change (find_url_column ab) with (Ok (A:=string) "url") in H.
  exact (proj1 H).
Defined.

(** ** Driver loop: the cells it writes *)

Section written_cells.
Import Driver.
Context (cfg : Config) (env : Env) (url_col : string).

Lemma cell_at_set_at d idx c v j c' :
  c' ≠ c → cell_at (set_at d idx c v) j c' = cell_at d j c'.
Proof.
  intros Hc. unfold cell_at. rewrite set_at_lookup.
  destruct (rows d !! j) as [r|]; [|done]. cbn [fmap option_fmap option_map mbind option_bind].
  destruct (has_column c d); [destruct (decide (idx = j))|];
    by rewrite ?lookup_insert_ne.
Qed.

Lemma recorded_cells idx status detail l j c :
  c ≠ "status" → c ≠ "status_detail" →
  len (df (recorded idx status detail l)) = len (df l)
  ∧ cell_at (df (recorded idx status detail l)) j c = cell_at (df l) j c.
Proof.
  intros Hs Hd. unfold recorded. cbn [df]. split.
  - by rewrite !set_at_len.
  - by rewrite !cell_at_set_at.
Qed.

Lemma loop_body_df idx l w :
  df (loop_body cfg env url_col idx (l, w)).2.1 = df l
  ∨ ∃ status detail,
      df (loop_body cfg env url_col idx (l, w)).2.1 = df (recorded idx status detail l).
Proof.
  rewrite loop_body_eq.
  destruct (at_ (df l) idx url_col) as [v|e]; [|by left].
  destruct (Verifier.verify cfg env v w) as [[[status detail]|e] w1]; [|by left].
  right. exists status, detail. cbv zeta.
  destruct (AUTOSAVE_EVERY cfg <=? processed_since_save l + 1)%Z; [|done].
  destruct (checkpoint cfg env _).1 as [[]|e]; [done|]. by destruct (is_Exception e).
Qed.

Lemma loop_body_cells idx l w j c :
  c ≠ "status" → c ≠ "status_detail" →
  len (df (loop_body cfg env url_col idx (l, w)).2.1) = len (df l)
  ∧ cell_at (df (loop_body cfg env url_col idx (l, w)).2.1) j c = cell_at (df l) j c.
Proof.
  intros Hs Hd.
  destruct (loop_body_df idx l w) as [->|(status & detail & ->)]; [done|].
  by apply recorded_cells.
Qed.

Lemma for_each_cells idxs l w j c :
  c ≠ "status" → c ≠ "status_detail" →
  len (df (for_each cfg env url_col idxs (l, w)).2.1) = len (df l)
  ∧ cell_at (df (for_each cfg env url_col idxs (l, w)).2.1) j c = cell_at (df l) j c.
Proof.
  intros Hs Hd. revert l w. induction idxs as [|idx idxs IH]; intros l w; [done|].
  cbn [for_each]. unfold bind.
  destruct (loop_body_cells idx l w j c Hs Hd) as [Hlen Hcell].
  destruct (loop_body cfg env url_col idx (l, w)) as [[[]|e] [l1 w1]];
    cbn [fst snd] in *; [|done].
  destruct (IH l1 w1) as [Hlen' Hcell']. split; congruence.
Qed.

End written_cells.

(** The cells a run leaves as they were. *)
Lemma run_loop_cells cfg env url_col first l w j c :
  let out := Driver.run_loop cfg env url_col first (l, w) in
  c ≠ "status" → c ≠ "status_detail" →
  len (Driver.df out.2.1) = len (Driver.df l)
  ∧ cell_at (Driver.df out.2.1) j c = cell_at (Driver.df l) j c.
Proof.
  intros out Hs Hd. unfold out. rewrite run_loop_eq. cbv zeta. cbn [snd].
  destruct (for_each_cells cfg env url_col (seq first (len (Driver.df l) - first))
              l w j c Hs Hd) as [Hlen Hcell].
  destruct (Driver.for_each cfg env url_col _ (l, w)) as [r [l1 w1]].
  cbn [fst snd] in *.
  destruct (final_save_locals cfg env l1 w1) as [-> _]. done.
Qed.

(** The loop writes nothing but the [status] and [status_detail] cells.
    However a run ends (it returned, or it was interrupted at some row),
    the table has as many rows as at the start, and in every row every cell
    under any other label, the URL among them, is the cell it was. *)
Theorem loop_writes_only_status_cells cfg env url_col first l w j c :
  let out := Driver.run_loop cfg env url_col first (l, w) in
  c ≠ "status" → c ≠ "status_detail" →
  len (Driver.df out.2.1) = len (Driver.df l)
  ∧ cell_at (Driver.df out.2.1) j c = cell_at (Driver.df l) j c.
Proof. apply run_loop_cells. Qed.

Lemma loop_writes_only_status_cells_witness :
  cell_at (Driver.df (Driver.run_loop source_config interrupted_at_b "url" 0
                        (from_row_0 (fresh ab))).2.1) 1 "url"
  = Some (Str "http://b.example").
Proof.
  destruct (loop_writes_only_status_cells source_config interrupted_at_b "url" 0
              (from_row_0 (fresh ab)).1 (from_row_0 (fresh ab)).2 1 "url")
    as [_ Hcell]; [done|done|].
  change ((from_row_0 (fresh ab)).1, (from_row_0 (fresh ab)).2)
    with (from_row_0 (fresh ab)) in Hcell.
  rewrite Hcell. reflexivity.
Defined.

(** ** Verifier: the URLs it calls *)

Section schemes.
Import Verifier.

Lemma effective_url_scheme raw : is_http (lower (effective_url raw)) = true.
Proof.
  unfold effective_url, is_http.
  destruct (startswith (lower raw) "http://" || startswith (lower raw) "https://")
    eqn:H; [done|].
  change (lower ("http://" +:+ raw)) with ("http://" +:+ lower raw).
  unfold startswith. by rewrite string_prefix_app.
Qed.

End schemes.

(** Every URL handed to [requests.get] and to the browser starts, up to
    case, with [http://] or [https://]: it is the stripped cell itself when
    that does, and the stripped cell behind [http://] when it does not. *)
Theorem called_urls_have_a_scheme cfg env v w :
  ∃ tl, log (Verifier.verify cfg env v w).2 = (log w ++ tl)%list
      ∧ Forall (λ ev, ∀ u, url_of ev = Some u →
                           u = Verifier.effective_url (strip (str v))
                           ∧ is_http (lower u) = true) tl.
Proof.
  destruct (Verifier.is_placeholder (strip (str v))) eqn:Hp.
  - exists []. rewrite verify_placeholder by done. cbn [snd].
    by rewrite app_nil_r.
  - destruct (verify_network cfg env v w Hp) as (tl & Hl & Htl & _).
    eexists. split; [exact Hl|].
    apply Forall_cons. split.
    + intros u [= <-]. split; [done|apply effective_url_scheme].
    + eapply Forall_impl; [exact Htl|]. intros ev Hev u Hu.
      destruct ev; try done. cbn in Hev, Hu. injection Hu as <-. subst.
      split; [done|apply effective_url_scheme].
Qed.

(** ** Driver loop: the order of the rows *)

Section order.
Import Driver.
Context (cfg : Config) (env : Env) (url_col : string).

Lemma probed_app (l k : list event) : probed (l ++ k) = (probed l ++ probed k)%list.
Proof. unfold probed. apply omap_app. Qed.

Lemma probed_render url (tl : list event) : Forall (render_event url) tl → probed tl = [].
Proof.
  induction 1 as [|ev tl Hev _ IH]; [done|].
  unfold probed in *. cbn [omap list_omap]. rewrite IH. by destruct ev.
Qed.

Lemma at_cell_at d idx v : at_ d idx url_col = Ok v → cell_at d idx url_col = Some v.
Proof.
  unfold at_, cell_at. destruct (rows d !! idx) as [r|]; [|done].
  cbn [mbind option_bind]. destruct (r !! url_col); [|done]. by intros [= ->].
Qed.

Lemma verify_probed v w :
  ∃ tl, log (Verifier.verify cfg env v w).2 = (log w ++ tl)%list
      ∧ probed tl = if Verifier.is_placeholder (strip (str v)) then []
                    else [Verifier.effective_url (strip (str v))].
Proof.
  destruct (Verifier.is_placeholder (strip (str v))) eqn:Hp.
  - exists []. rewrite verify_placeholder by done. by rewrite app_nil_r.
  - destruct (verify_network cfg env v w Hp) as (tl & Hl & Htl & _).
    eexists. split; [exact Hl|].
    change (EvRequestsGet ?u :: tl) with ([EvRequestsGet u] ++ tl)%list.
    by rewrite probed_app, (probed_render _ _ Htl).
Qed.

Lemma checkpoint_probed l w :
  ∃ tl, log (checkpoint cfg env (l, w)).2.2 = (log w ++ tl)%list ∧ probed tl = [].
Proof.
  rewrite checkpoint_eq.
  pose proof (atomic_write_csv_log env (df l) (OUTPUT_CSV cfg) w) as Hcsv.
  destruct (Checkpoint.atomic_write_csv env (df l) (OUTPUT_CSV cfg) w) as [[[]|e] w1];
    cbn [fst snd] in *.
  - rewrite save_checkpoint_meta_log, Hcsv, <- app_assoc. by eexists.
  - rewrite Hcsv. by eexists.
Qed.

Lemma loop_body_probed idx l w s' :
  loop_body cfg env url_col idx (l, w) = (Ok (), s') →
  ∃ tl, log s'.2 = (log w ++ tl)%list
      ∧ probed tl = option_list (to_verify url_col (df l) idx).
Proof.
  rewrite loop_body_eq.
  destruct (at_ (df l) idx url_col) as [v|e] eqn:Hat; [|done].
  unfold to_verify. rewrite (at_cell_at _ _ _ Hat). cbv zeta.
  destruct (verify_probed v w) as (tl & Hl & Hp).
  destruct (Verifier.verify cfg env v w) as [[[status detail]|e] w1]; [|done].
  cbn [snd] in Hl.
  assert (probed tl
          = option_list (if Verifier.is_placeholder (strip (str v)) then None
                         else Some (Verifier.effective_url (strip (str v))))) as Hp'.
  { rewrite Hp. by destruct (Verifier.is_placeholder _). }
  destruct (AUTOSAVE_EVERY cfg <=? processed_since_save l + 1)%Z.
  - destruct (checkpoint_probed (recorded idx status detail l) w1) as (tl' & Hl' & Hp'').
    intros Hrun.
    assert (s'.2 = (checkpoint cfg env (recorded idx status detail l, w1)).2.2) as ->.
    { destruct (checkpoint cfg env _).1 as [[]|e]; [by injection Hrun as <-|].
      destruct (is_Exception e); [by injection Hrun as <-|done]. }
    exists (tl ++ tl')%list.
    by rewrite Hl', Hl, app_assoc, probed_app, Hp'', app_nil_r.
  - intros [= <-]. by exists tl.
Qed.

Lemma to_verify_after_row idx l w j :
  url_col ≠ "status" → url_col ≠ "status_detail" →
  to_verify url_col (df (loop_body cfg env url_col idx (l, w)).2.1) j
  = to_verify url_col (df l) j.
Proof.
  intros Hs Hd. unfold to_verify.
  by destruct (loop_body_cells cfg env url_col idx l w j url_col Hs Hd) as [_ ->].
Qed.

Lemma for_each_probed idxs l w s' :
  url_col ≠ "status" → url_col ≠ "status_detail" →
  for_each cfg env url_col idxs (l, w) = (Ok (), s') →
  ∃ tl, log s'.2 = (log w ++ tl)%list
      ∧ probed tl = omap (to_verify url_col (df l)) idxs.
Proof.
  intros Hs Hd. revert l w. induction idxs as [|idx idxs IH]; intros l w Hrun.
  { injection Hrun as <-. exists []. by rewrite app_nil_r. }
  cbn [for_each] in Hrun. unfold bind in Hrun.
  pose proof (λ j, to_verify_after_row idx l w j Hs Hd) as Hsame.
  destruct (loop_body cfg env url_col idx (l, w)) as [[[]|e] [l1 w1]] eqn:Hbody; [|done].
  destruct (loop_body_probed _ _ _ _ Hbody) as (tl & Hl & Hp).
  destruct (IH _ _ Hrun) as (tl' & Hl' & Hp'). cbn [fst snd] in *.
  exists (tl ++ tl')%list. rewrite Hl', Hl, app_assoc, probed_app, Hp, Hp'.
  split; [done|]. cbn [omap list_omap].
  rewrite (list_omap_ext _ (to_verify url_col (df l)) idxs idxs); last first.
  { apply Forall2_same_length_lookup_2; [done|]. intros i x y Hx Hy.
    rewrite Hx in Hy. injection Hy as <-. apply Hsame. }
  by destruct (to_verify url_col (df l) idx).
Qed.

End order.

(** Within one run every row is verified once, and in the order of the
    table: the requests a loop makes that runs to its end are, in this
    order, one for each row it visits whose URL cell is no placeholder, with the
    URL that cell gave at the start of the run (the URL column being another
    one than the two status columns). *)
Theorem rows_are_verified_once_in_order cfg env url_col first l w s' :
  let idxs := seq first (len (Driver.df l) - first) in
  url_col ≠ "status" → url_col ≠ "status_detail" →
  Driver.for_each cfg env url_col idxs (l, w) = (Ok (), s') →
  ∃ tl, log s'.2 = (log w ++ tl)%list
      ∧ probed tl = omap (to_verify url_col (Driver.df l)) idxs.
Proof. intros idxs. apply for_each_probed. Qed.

Lemma rows_are_verified_once_in_order_witness :
  probed (log (Driver.for_each source_config (scripted b_hangs []) "url" [0; 1; 2]%nat
                 (from_row_0 (fresh abc))).2.2)
  = ["http://a.example"; "http://b.example"; "http://c.example"].
Proof.
  destruct (rows_are_verified_once_in_order source_config (scripted b_hangs []) "url" 0
              (from_row_0 (fresh abc)).1 (from_row_0 (fresh abc)).2
              (Driver.for_each source_config (scripted b_hangs []) "url" [0; 1; 2]%nat
                 (from_row_0 (fresh abc))).2)
    as (tl & Hl & Hp); [done|done|vm_compute; reflexivity|].
  cbn [log snd from_row_0 boot app] in Hl. rewrite Hl, Hp.
  vm_compute. reflexivity.
Defined.

(** ** The start of the browser *)

Section browser.
Import Driver.
Context (cfg : Config) (env : Env).

Lemma resume_from first url_col l w :
  first_unprocessed (df l) = Ok first →
  resume cfg env url_col (l, w) =
  match Verifier.setup_driver env w with
  | (Ok _, w1) => bind (load_meta cfg env) (λ _, run_loop cfg env url_col first) (l, w1)
  | (Raise e, w1) => (Raise e, (l, w1))
  end.
Proof.
  intros H. unfold resume. unfold bind at 1. unfold get_df at 1. cbn [fst]. rewrite H.
  unfold bind at 1. unfold io at 1.
  by destruct (Verifier.setup_driver env w) as [[[]|e] w1].
Qed.

End browser.

(** A browser that cannot be started ends the run on the spot.  The driver
    is created before the [try], so when its creation raises, no row is
    verified, no file is written, not even by the final save, and [main]
    ends with that exception; the only call made is the creation of the
    driver. *)
Theorem failed_browser_start_saves_nothing cfg env url_col first l w e :
  let out := Driver.resume cfg env url_col (l, w) in
  first_unprocessed (Driver.df l) = Ok first →
  (webdriver_chrome env (log w)).1 = Raise e →
  out.1 = Raise e
  ∧ out.2.1 = l
  ∧ log out.2.2 = (log w ++ [EvSetupDriver])%list
  ∧ fs out.2.2 = fs w.
Proof.
  intros out Hfirst Hchrome. unfold out. rewrite (resume_from _ _ first) by done.
  unfold Verifier.setup_driver, call.
  destruct (webdriver_chrome env (log w)) as [r d]. cbn [fst] in Hchrome. by subst r.
Qed.

Lemma failed_browser_start_saves_nothing_witness :
  let env := with_chrome (scripted b_hangs [])
               (λ _, (Raise (WebDriverException "Message: session not created"), 900%Z)) in
  let out := Driver.resume source_config env "url" (from_row_0 (fresh ab)) in
  out.1 = Raise (WebDriverException "Message: session not created")
  ∧ fs out.2.2 = ∅.
Proof.
  cbv zeta.
  destruct (failed_browser_start_saves_nothing source_config
              (with_chrome (scripted b_hangs [])
                 (λ _, (Raise (WebDriverException "Message: session not created"), 900%Z)))
              "url" 0 (from_row_0 (fresh ab)).1 (from_row_0 (fresh ab)).2
              (WebDriverException "Message: session not created"))
    as (Hr & _ & _ & Hfs); [reflexivity|reflexivity|].
  split; [exact Hr|exact Hfs].
Defined.

(** ** A first run, from the input to the last row *)

Section first_run.
Import Driver.
Context (cfg : Config) (env : Env).

Lemma fresh_rows original_df :
  rows (fresh original_df)
  = (λ r, <["status_detail" := Str ""]> (<["status" := Str ""]> r)) <$> rows original_df.
Proof. unfold fresh, setitem_scalar. cbn [rows]. by rewrite <- list_fmap_compose. Qed.

Lemma fresh_cells original_df j c :
  c ≠ "status" → c ≠ "status_detail" →
  cell_at (fresh original_df) j c = cell_at original_df j c.
Proof.
  intros Hs Hd. unfold cell_at. rewrite fresh_rows, list_lookup_fmap.
  destruct (rows original_df !! j) as [r|]; [|done].
  cbn [fmap option_fmap option_map mbind option_bind].
  by rewrite !lookup_insert_ne.
Qed.

Lemma fresh_len original_df : len (fresh original_df) = len original_df.
Proof. unfold len. by rewrite fresh_rows, length_fmap. Qed.

Lemma first_unprocessed_fresh original_df :
  first_unprocessed (fresh original_df)
  = match rows original_df with [] => Raise StopIteration | _ => Ok 0%nat end.
Proof.
  rewrite first_unprocessed_eq by apply fresh_columns. rewrite fresh_rows.
  destruct (rows original_df) as [|r rs]; [done|].
  cbn [fmap list_fmap first_index]. unfold value.
  by rewrite lookup_insert_ne, lookup_insert_eq.
Qed.

Lemma load_meta_df l w :
  ∃ l', load_meta cfg env (l, w) = ((load_meta cfg env (l, w)).1, (l', w)) ∧ df l' = df l.
Proof.
  unfold load_meta, bind, io, set_meta, Checkpoint.load_checkpoint_meta.
  destruct (fs w !! CHECKPOINT_JSON cfg) as [data|]; [|by eexists].
  destruct (json_loads env data) as [m|e]; [by eexists|].
  destruct (is_Exception e); by eexists.
Qed.

Lemma main_first_run w original_df url_col :
  read_input cfg env w = (Ok original_df, w) →
  find_url_column original_df = Ok url_col →
  fs (force_restart cfg w).2 !! OUTPUT_CSV cfg = None →
  main cfg env w = resume cfg env url_col (start (fresh original_df), (force_restart cfg w).2).
Proof.
  intros Hread Hurl Hnone. unfold main. rewrite Hread, Hurl.
  unfold previous. by rewrite Hnone.
Qed.

End first_run.

(** A first run, from the input to the last row.  When there is no previous
    output (or [FORCE_RESTART] removed it), the input is read, its URL column
    found, and [main] returns, then the table it leaves has the rows of the
    input, in order and with every cell of the input as it was, each with a
    status valid or invalid, and no row is left unprocessed. *)
Theorem first_run_verifies_every_row cfg env w original_df url_col s' :
  let d := Driver.df s'.1 in
  Driver.read_input cfg env w = (Ok original_df, w) →
  find_url_column original_df = Ok url_col →
  fs (Driver.force_restart cfg w).2 !! OUTPUT_CSV cfg = None →
  Driver.main cfg env w = (Ok (), s') →
  len d = len original_df
  ∧ (∀ j, (j < len d)%nat → ∃ v, status_of d j = Some v ∧ terminal v)
  ∧ (∀ j c, c ≠ "status" → c ≠ "status_detail" →
            cell_at d j c = cell_at original_df j c)
  ∧ first_unprocessed d = Raise StopIteration.
Proof.
  intros d Hread Hurl Hnone Hmain. subst d.
  rewrite (main_first_run cfg env w original_df url_col) in Hmain by done.
  set (w' := (Driver.force_restart cfg w).2) in *. clearbody w'.
  pose proof (first_unprocessed_fresh original_df) as Hfirst.
  destruct (rows original_df) as [|r rs] eqn:Hrows.
  - rewrite resume_all_processed, all_processed_eq in Hmain by done.
    cbv zeta in Hmain. injection Hmain as _ <-. cbn [fst Driver.df Driver.start].
    assert (len (fresh original_df) = 0%nat) as Hlen.
    { rewrite fresh_len. unfold len. by rewrite Hrows. }
    split_and!.
    + apply fresh_len.
    + intros j Hj. lia.
    + intros j c. apply fresh_cells.
    + done.
  - rewrite (resume_from cfg env 0) in Hmain by done.
    destruct (Verifier.setup_driver env w') as [[[]|e] w1]; [|done].
    unfold bind in Hmain.
    destruct (load_meta_df cfg env (Driver.start (fresh original_df)) w1)
      as (l' & Hload & Hdf).
    rewrite Hload in Hmain.
    destruct (Driver.load_meta cfg env _).1 as [[]|e]; [|done].
    cbn [Driver.df Driver.start] in Hdf.
    destruct (run_loop_done cfg env url_col 0 l' w1) as (Hlen & Hterm & _ & Hnone' & _).
    { by rewrite Hdf. }
    { by rewrite Hmain. }
    rewrite Hmain in *. cbn [fst snd] in *. rewrite Hdf, fresh_len in Hlen.
    split_and!.
    + done.
    + intros j Hj. apply Hterm. lia.
    + intros j c Hs Hd.
      destruct (run_loop_cells cfg env url_col 0 l' w1 j c Hs Hd) as [_ Hcell].
      rewrite Hmain in Hcell. cbn [fst snd] in Hcell.
      rewrite Hcell, Hdf. by apply fresh_cells.
    + done.
Qed.

Lemma first_run_verifies_every_row_witness :
  let env := scripted b_hangs [("input", ab)] in
  let out := Driver.main source_config env (input_only "input") in
  out.1 = Ok ()
  ∧ first_unprocessed (Driver.df out.2.1) = Raise StopIteration.
Proof.
  cbv zeta. split; [vm_compute; reflexivity|].
  destruct (first_run_verifies_every_row source_config (scripted b_hangs [("input", ab)])
              (input_only "input") ab "url"
              (Driver.main source_config (scripted b_hangs [("input", ab)])
                 (input_only "input")).2)
    as (_ & _ & _ & H); [reflexivity|reflexivity|reflexivity|vm_compute; reflexivity|].
  exact H.
Defined.

(** ** Driver loop: a run that is cut short *)

Section progress.
Import Driver.
Context (cfg : Config) (env : Env) (url_col : string).

(** A row is either left as it was, and then the loop ends there, or it has
    its verdict. *)
Lemma loop_body_progress idx l w :
  "status" ∈ columns (df l) →
  let out := loop_body cfg env url_col idx (l, w) in
  "status" ∈ columns (df out.2.1)
  ∧ ((df out.2.1 = df l ∧ ∃ e, out.1 = Raise e)
     ∨ ((∃ v, status_of (df out.2.1) idx = Some v ∧ terminal v)
        ∧ ∀ j, j ≠ idx → status_of (df out.2.1) j = status_of (df l) j)).
Proof.
  intros Hst. cbv zeta. rewrite loop_body_eq.
  destruct (at_ (df l) idx url_col) as [v|e] eqn:Hat; [|split; [done|left; eauto]].
  apply at_some in Hat.
  destruct (Verifier.verify cfg env v w) as [[[status detail]|e] w1] eqn:Hv;
    [|split; [done|left; eauto]].
  apply verify_status in Hv.
  assert (terminal (Str status)) as Hterm.
  { destruct Hv as [[-> _]|[-> _]]; [by left|by right]. }
  assert (df (if (AUTOSAVE_EVERY cfg <=? processed_since_save l + 1)%Z
              then
                let saved := checkpoint cfg env (recorded idx status detail l, w1) in
                match saved.1 with
                | Ok _ => (Ok (), (counted_from_0 (recorded idx status detail l), saved.2.2))
                | Raise e =>
                    if is_Exception e
                    then (Ok (), (counted_from_0 (recorded idx status detail l), saved.2.2))
                    else (Raise e, (recorded idx status detail l, saved.2.2))
                end
              else (Ok (), (recorded idx status detail l, w1))).2.1
          = df (recorded idx status detail l)) as Hdf.
  { destruct (AUTOSAVE_EVERY cfg <=? processed_since_save l + 1)%Z; [|done].
    cbv zeta. destruct (checkpoint cfg env _).1 as [[]|e]; [done|].
    by destruct (is_Exception e). }
  cbv zeta in Hdf |- *. rewrite Hdf. unfold recorded. cbn [df].
  split; [by do 2 apply set_at_keeps_label|]. right. split.
  - exists (Str status). split; [|done].
    rewrite status_of_set_at_other, status_of_set_at_status by done.
    rewrite decide_True by done.
    destruct (lookup_lt_is_Some_2 (rows (df l)) idx Hat) as [r ->]. done.
  - intros j Hj.
    rewrite status_of_set_at_other, status_of_set_at_status by done.
    by rewrite decide_False.
Qed.

Lemma for_each_progress idxs l w :
  NoDup idxs → "status" ∈ columns (df l) →
  let out := for_each cfg env url_col idxs (l, w) in
  ∃ n, (n ≤ length idxs)%nat
     ∧ (∀ j, j ∈ take n idxs → ∃ v, status_of (df out.2.1) j = Some v ∧ terminal v)
     ∧ (∀ j, j ∉ take n idxs → status_of (df out.2.1) j = status_of (df l) j)
     ∧ (out.1 = Ok () → n = length idxs).
Proof.
  cbv zeta. revert l w. induction idxs as [|idx idxs IH]; intros l w Hnd Hst.
  { exists 0%nat. split_and!; try done. intros j Hj. by apply elem_of_nil in Hj. }
  apply NoDup_cons in Hnd as [Hidx Hnd]. cbn [for_each]. unfold bind.
  destruct (loop_body_progress idx l w Hst) as (Hst1 & Hcase).
  destruct (loop_body cfg env url_col idx (l, w)) as [r [l1 w1]] eqn:Hbody.
  cbn [fst snd] in *.
  destruct Hcase as [[Hdf (e & ->)]|[(v & Hv & Hterm) Hother]].
  { exists 0%nat. cbn [fst snd take]. rewrite Hdf. split_and!; try done; [lia|].
    intros j Hj. by apply elem_of_nil in Hj. }
  destruct r as [[]|e].
  - destruct (IH l1 w1 Hnd Hst1) as (n & Hn & Hin & Hout & Hall).
    exists (S n). cbn [take length]. split_and!.
    + lia.
    + intros j [->|Hj]%elem_of_cons; [|by apply Hin].
      exists v. rewrite Hout; [done|].
      intros Hin'. apply Hidx. by eapply subseteq_take.
    + intros j [Hne Hj]%not_elem_of_cons. rewrite Hout by done. by apply Hother.
    + intros Hok. by rewrite Hall.
  - exists 1%nat. cbn [fst snd take length]. split_and!.
    + lia.
    + intros j ->%list_elem_of_singleton. eauto.
    + intros j Hj%not_elem_of_cons. apply Hother. by destruct Hj.
    + done.
Qed.

End progress.

(** A run that is cut short keeps its progress.  However the row loop ends,
    the table it leaves to the final save, and the table left after it, is
    the table of the start with a verdict on the first [n] rows the loop was to
    visit, for some [n], and every other status as it was; and [n] is the
    number of all rows it was to visit when the run returns. *)
Theorem run_keeps_its_progress cfg env url_col first l w :
  let out := Driver.run_loop cfg env url_col first (l, w) in
  let d' := Driver.df out.2.1 in
  "status" ∈ columns (Driver.df l) →
  ∃ n, (n ≤ len (Driver.df l) - first)%nat
     ∧ (∀ j, (first ≤ j < first + n)%nat → ∃ v, status_of d' j = Some v ∧ terminal v)
     ∧ (∀ j, ¬ (first ≤ j < first + n)%nat → status_of d' j = status_of (Driver.df l) j)
     ∧ (out.1 = Ok () → n = (len (Driver.df l) - first)%nat).
Proof.
  intros out d' Hst. subst d' out. rewrite run_loop_eq. cbv zeta. cbn [fst snd].
  destruct (for_each_progress cfg env url_col (seq first (len (Driver.df l) - first))
              l w (NoDup_seq _ _) Hst) as (n & Hn & Hin & Hout & Hall).
  rewrite length_seq in Hn, Hall.
  rewrite take_seq, Nat.min_l in Hin, Hout by done.
  destruct (Driver.for_each cfg env url_col _ (l, w)) as [r [l1 w1]].
  cbn [fst snd] in *.
  destruct (final_save_locals cfg env l1 w1) as [-> _].
  exists n. split_and!.
  - done.
  - intros j Hj. apply Hin. apply list_elem_of_In, in_seq. lia.
  - intros j Hj. apply Hout. intros Hin'%list_elem_of_In%in_seq. lia.
  - intros Hok. apply Hall. by destruct (Driver.final_save cfg env (l1, w1)).1.
Qed.

Lemma run_keeps_its_progress_witness :
  let out := Driver.run_loop source_config interrupted_at_b "url" 0 (from_row_0 (fresh ab)) in
  out.1 = Raise KeyboardInterrupt
  ∧ ∃ n, (n ≤ 2)%nat
       ∧ (∀ j, (0 ≤ j < 0 + n)%nat →
               ∃ v, status_of (Driver.df out.2.1) j = Some v ∧ terminal v)
       ∧ (∀ j, ¬ (0 ≤ j < 0 + n)%nat →
               status_of (Driver.df out.2.1) j = status_of (fresh ab) j).
Proof.
  cbv zeta. split; [vm_compute; reflexivity|].
  destruct (run_keeps_its_progress source_config interrupted_at_b "url" 0
              (from_row_0 (fresh ab)).1 (from_row_0 (fresh ab)).2)
    as (n & Hn & Hin & Hout & _); [by apply (bool_decide_unpack _)|].
  exists n. split_and!; [exact Hn|exact Hin|exact Hout].
Defined.

(** ** The college list *)

Section college_strings.

Lemma rstrip_idemp s : rstrip (rstrip s) = rstrip s.
Proof.
  induction s as [|c s IH]; [done|]. cbn [rstrip].
  destruct (rstrip s) as [|c' t] eqn:Hr.
  - destruct (isspace c) eqn:Hc; [done|]. cbn [rstrip]. by rewrite Hc.
  - cbn [rstrip] in *. by rewrite IH.
Qed.

Lemma lstrip_head s :
  match lstrip s with
  | EmptyString => True
  | String c _ => isspace c = false
  end.
Proof.
  induction s as [|c s IH]; [done|]. cbn [lstrip].
  by destruct (isspace c) eqn:Hc.
Qed.

Lemma lstrip_rstrip c s :
  isspace c = false → lstrip (rstrip (String c s)) = rstrip (String c s).
Proof.
  intros Hc. cbn [rstrip]. destruct (rstrip s); rewrite ?Hc; cbn [lstrip]; by rewrite Hc.
Qed.

Lemma strip_idemp s : strip (strip s) = strip s.
Proof.
  unfold strip. pose proof (lstrip_head s) as H.
  destruct (lstrip s) as [|c t]; [done|].
  by rewrite lstrip_rstrip, rstrip_idemp.
Qed.

Lemma one_line_replace s : one_line (Makaut.replace Makaut.newline " " s) = true.
Proof.
  induction s as [|c s IH]; [done|]. cbn [Makaut.replace].
  case_bool_decide as Hc.
  - change (" " +:+ ?t) with (String " " t). cbn [one_line]. by rewrite IH.
  - cbn [one_line]. by rewrite bool_decide_eq_false_2, IH.
Qed.

Lemma one_line_lstrip s : one_line s = true → one_line (lstrip s) = true.
Proof.
  induction s as [|c s IH]; [done|]. cbn [lstrip one_line].
  intros [Hc Hs]%andb_prop. destruct (isspace c); [by apply IH|].
  cbn [one_line]. by rewrite Hc, Hs.
Qed.

Lemma one_line_rstrip s : one_line s = true → one_line (rstrip s) = true.
Proof.
  induction s as [|c s IH]; [done|]. cbn [rstrip one_line].
  intros [Hc Hs]%andb_prop. specialize (IH Hs).
  destruct (rstrip s) as [|c' t].
  - destruct (isspace c); [done|]. cbn [one_line]. by rewrite Hc.
  - cbn [one_line] in *. by rewrite Hc, IH.
Qed.

Lemma one_line_clean s : one_line (strip (Makaut.replace Makaut.newline " " s)) = true.
Proof. apply one_line_rstrip, one_line_lstrip, one_line_replace. Qed.

End college_strings.

Section college_records.
Import Makaut.

Lemma record_of_cases cols :
  match record_of cols with
  | Some record =>
      ∃ c0 c1 c2 more, cols = c0 :: c1 :: c2 :: more
        ∧ record = [("Sr No", Str (strip (text c0)));
                    ("College Code", Str (strip (text c1)));
                    ("College Name", (name_and_url c2).1);
                    ("College Website URL", (name_and_url c2).2)]
  | None => (length cols < 3)%nat
  end.
Proof.
  unfold record_of. destruct cols as [|c0 [|c1 [|c2 more]]]; cbn; try lia.
  destruct (name_and_url c2) as [n u] eqn:E. exists c0, c1, c2, more.
  by rewrite E.
Qed.

Lemma collect_from (acc : list (list (string * cell))) rows :
  foldl (λ data cols, match record_of cols with
                      | Some record => (data ++ [record])%list
                      | None => data
                      end) acc rows
  = (acc ++ omap record_of rows)%list.
Proof.
  revert acc. induction rows as [|cols rows IH]; intros acc; cbn [foldl omap list_omap].
  - by rewrite app_nil_r.
  - rewrite IH. destruct (record_of cols); [|done]. by rewrite <- app_assoc.
Qed.

Lemma collect_eq rows : collect rows = omap record_of rows.
Proof. unfold collect. by rewrite collect_from. Qed.

Lemma omap_record_of_length rows :
  length (omap record_of rows)
  = length (List.filter (λ cols, 3 <=? length cols)%nat rows).
Proof.
  induction rows as [|cols rows IH]; [done|]. cbn [omap list_omap List.filter].
  pose proof (record_of_cases cols) as H.
  destruct (record_of cols) as [record|].
  - destruct H as (c0 & c1 & c2 & more & -> & _). cbn. by rewrite IH.
  - rewrite (proj2 (Nat.leb_gt _ _)) by done. done.
Qed.

Lemma collect_labels rows : Forall (λ record, record.*1 = college_labels) (collect rows).
Proof.
  rewrite collect_eq. induction rows as [|cols rows IH]; cbn [omap list_omap]; [done|].
  pose proof (record_of_cases cols) as H.
  destruct (record_of cols) as [record|]; [|done].
  destruct H as (c0 & c1 & c2 & more & _ & ->). by constructor.
Qed.

Lemma labels_of_uniform (data : list (list (string * cell))) (seen : list string) :
  Forall (λ record, record.*1 = college_labels) data →
  (∀ c, c ∈ college_labels → c ∈ seen) →
  foldl (λ cs c, add_label c cs) seen (data ≫= fmap fst) = seen.
Proof.
  induction 1 as [|record data Hr _ IH]; intros Hseen; [done|].
  cbn [mbind list_bind]. rewrite foldl_app.
  change (fst <$> record) with (record.*1). rewrite Hr.
  assert (foldl (λ cs c, add_label c cs) seen college_labels = seen) as ->; [|by apply IH].
  assert (∀ c cs, c ∈ cs → add_label c cs = cs) as Hin.
  { intros c cs Hc. unfold add_label. by rewrite bool_decide_eq_true_2. }
  unfold college_labels in *. cbn [foldl].
  rewrite (Hin "Sr No"), (Hin "College Code"), (Hin "College Name"),
    (Hin "College Website URL"); [done|apply Hseen; set_solver..].
Qed.

Lemma DataFrame_of_columns (data : list (list (string * cell))) :
  Forall (λ record, record.*1 = college_labels) data →
  columns (DataFrame_of data) = match data with [] => [] | _ => college_labels end.
Proof.
  intros H. unfold DataFrame_of. cbn [columns].
  destruct H as [|record data Hr Hdata]; [done|].
  cbn [mbind list_bind]. rewrite foldl_app.
  change (fst <$> record) with (record.*1). rewrite Hr.
  change (foldl (λ cs c, add_label c cs) [] college_labels) with college_labels.
  by apply labels_of_uniform.
Qed.

End college_records.

(** The spreadsheet follows the table: the script keeps one record for every
    row with at least three cells, in the order of the page, and skips the
    others; every record has the four labels, in the same order; and the data
    frame written has one row per record under these four labels, or no row
    and no label at all when no row of the page has three cells. *)
Theorem college_records_follow_the_table rows :
  let data := Makaut.collect rows in
  let df := Makaut.DataFrame_of data in
  data = omap Makaut.record_of rows
  ∧ length data = length (List.filter (λ cols, 3 <=? length cols)%nat rows)
  ∧ Forall (λ record, record.*1 = college_labels) data
  ∧ columns df = match data with [] => [] | _ => college_labels end
  ∧ len df = length data.
Proof.
  cbv zeta. split_and!.
  - apply collect_eq.
  - rewrite collect_eq. apply omap_record_of_length.
  - apply collect_labels.
  - apply DataFrame_of_columns, collect_labels.
  - unfold len, Makaut.DataFrame_of. cbn [Frame.rows]. by rewrite length_fmap.
Qed.

Lemma college_records_follow_the_table_witness :
  Makaut.collect sample_table
  = [ [("Sr No", Str "1"); ("College Code", Str "101");
       ("College Name", Str "A College");
       ("College Website URL", Str "http://a.example")];
      [("Sr No", Str "2"); ("College Code", Str "102");
       ("College Name", Str "B College"); ("College Website URL", Str "")] ]
  ∧ columns (Makaut.DataFrame_of (Makaut.collect sample_table)) = college_labels.
Proof.
  destruct (college_records_follow_the_table sample_table) as (Hdata & _ & _ & Hcols & _).
  split.
  - rewrite Hdata. vm_compute. reflexivity.
  - rewrite Hcols, Hdata. reflexivity.
Defined.

(** What a record holds: the serial number and the code are the texts of the
    first two cells without surrounding white space; the name is the text of
    the link in the third cell, or of the cell itself when it has no link, on
    one line and without surrounding white space; the URL is the [href] of
    the link as it is ([None] when the link has none), and the empty string
    when the cell has no link. *)
Theorem college_record_is_trimmed cols record :
  Makaut.record_of cols = Some record →
  ∃ c0 c1 c2 more sr code name url,
    cols = c0 :: c1 :: c2 :: more
    ∧ record = [("Sr No", Str sr); ("College Code", Str code);
                ("College Name", Str name); ("College Website URL", url)]
    ∧ sr = strip (Makaut.text c0) ∧ code = strip (Makaut.text c1)
    ∧ strip sr = sr ∧ strip code = code ∧ strip name = name ∧ one_line name = true
    ∧ name = strip (Makaut.replace Makaut.newline " "
                      (match Makaut.anchor c2 with
                       | Some link => Makaut.a_text link
                       | None => Makaut.text c2
                       end))
    ∧ url = match Makaut.anchor c2 with
            | Some link => from_option Str PyNone (Makaut.href link)
            | None => Str ""
            end.
Proof.
  intros Hrec. pose proof (record_of_cases cols) as H. rewrite Hrec in H.
  destruct H as (c0 & c1 & c2 & more & -> & ->).
  exists c0, c1, c2, more, (strip (Makaut.text c0)), (strip (Makaut.text c1)).
  unfold Makaut.name_and_url, Makaut.find_element_a.
  destruct (Makaut.anchor c2) as [link|]; cbn [fst snd].
  - eexists _, _. split_and!; try done; try apply strip_idemp; apply one_line_clean.
  - eexists _, _. split_and!; try done; try apply strip_idemp; apply one_line_clean.
Qed.

Lemma college_record_is_trimmed_witness :
  ∃ name, Makaut.record_of linked_row
          = Some [("Sr No", Str "1"); ("College Code", Str "101");
                  ("College Name", Str name);
                  ("College Website URL", Str "http://a.example")]
        ∧ one_line name = true.
Proof.
  destruct (college_record_is_trimmed linked_row
              [("Sr No", Str "1"); ("College Code", Str "101");
               ("College Name", Str "A College");
               ("College Website URL", Str "http://a.example")])
    as (c0 & c1 & c2 & more & sr & code & name & url & _ & Hrec & _ & _ & _ & _ & _
        & Hone & _); [vm_compute; reflexivity|].
  injection Hrec as _ _ Hname _. exists name. split; [|exact Hone].
  rewrite <- Hname. vm_compute. reflexivity.
Defined.

Section college_script.
Import Makaut.
Context (site : Site).

Lemma scrape_eq w :
  scrape site w =
  match get site URL with
  | Raise e => (Raise e, {| log := log w ++ [EvGet URL]; fs := fs w |})
  | Ok _ =>
      match until_tbody site 30 with
      | Raise e => (Raise e, {| log := log w ++ [EvGet URL; EvUntilTbody 30]; fs := fs w |})
      | Ok _ =>
          let df := DataFrame_of (collect (table site)) in
          let write := Checkpoint.to_excel_steps (to_excel_bytes site df) OUTPUT
                         (write_fault site) (fs w) in
          (write.2, {| log := log w ++ [EvGet URL; EvUntilTbody 30; EvFindRows;
                                        EvToExcel df OUTPUT];
                       fs := Checkpoint.final write.1 (fs w) |})
      end
  end.
Proof.
  unfold scrape, bind, call, to_excel. cbn [log fs].
  destruct (get site URL) as [[]|e]; [|done].
  destruct (until_tbody site 30) as [[]|e]; [|by rewrite <- app_assoc].
  cbv zeta. destruct (Checkpoint.to_excel_steps _ _ _ _) as [states r].
  cbn [fst snd]. by rewrite <- !app_assoc.
Qed.

Lemma scrape_log w : log (scrape site w).2 = (log w ++ scrape_trace site)%list.
Proof.
  rewrite scrape_eq. unfold scrape_trace.
  destruct (get site URL) as [[]|e]; [|done].
  by destruct (until_tbody site 30) as [[]|e].
Qed.

Lemma scrape_files w q : q ≠ OUTPUT → fs (scrape site w).2 !! q = fs w !! q.
Proof.
  intros Hq. rewrite scrape_eq.
  destruct (get site URL) as [[]|e]; [|done].
  destruct (until_tbody site 30) as [[]|e]; [|done].
  cbv zeta. cbn [snd fs]. by apply to_excel_steps_other.
Qed.

Lemma script_eq w :
  script site w =
  let w0 := {| log := log w ++ [EvChrome]; fs := fs w |} in
  match chrome site with
  | Raise e => (Raise e, w0)
  | Ok _ =>
      (match quit site with Ok _ => (scrape site w0).1 | Raise e => Raise e end,
       {| log := log (scrape site w0).2 ++ [EvQuit]; fs := fs (scrape site w0).2 |})
  end.
Proof.
  unfold script, bind, try_finally, call. cbv zeta.
  destruct (chrome site) as [[]|e]; [|done].
  destruct (scrape site _) as [r w1]. by destruct (quit site) as [[]|e].
Qed.

End college_script.

(** The driver is quit exactly once, as the last call, on every path that
    got a driver: after a navigation that failed, after a table that did not
    appear in 30 seconds, after a spreadsheet that could not be written, and
    after a run without failure; the spreadsheet is written only when the
    navigation and the wait returned, and no other file is touched.  The
    script ends with the exception of [quit] if it raised one, and else the
    way the scraping ended.  When the browser cannot be started nothing else
    is called. *)
Theorem college_script_always_quits site w :
  let out := Makaut.script site w in
  match Makaut.chrome site with
  | Raise e =>
      out = (Raise e, {| Makaut.log := Makaut.log w ++ [Makaut.EvChrome];
                         Makaut.fs := Makaut.fs w |})
  | Ok _ =>
      Makaut.log out.2
      = (Makaut.log w ++ [Makaut.EvChrome] ++ scrape_trace site ++ [Makaut.EvQuit])%list
      ∧ (∀ q, q ≠ Makaut.OUTPUT → Makaut.fs out.2 !! q = Makaut.fs w !! q)
      ∧ out.1 = match Makaut.quit site with
                | Ok _ => (Makaut.scrape site
                             {| Makaut.log := Makaut.log w ++ [Makaut.EvChrome];
                                Makaut.fs := Makaut.fs w |}).1
                | Raise e => Raise e
                end
  end.
Proof.
  cbv zeta. rewrite script_eq. cbv zeta.
  destruct (Makaut.chrome site) as [[]|e]; [|done].
  cbn [fst snd Makaut.log Makaut.fs]. split_and!.
  - rewrite scrape_log. cbn [Makaut.log]. by rewrite <- !app_assoc.
  - intros q Hq. by rewrite scrape_files.
  - done.
Qed.

Lemma college_script_always_quits_witness :
  Makaut.log (Makaut.script no_table_site empty_disk).2
  = [Makaut.EvChrome; Makaut.EvGet Makaut.URL; Makaut.EvUntilTbody 30; Makaut.EvQuit]
  ∧ (Makaut.script no_table_site empty_disk).1 = Raise (TimeoutException "Message: ").
Proof.
  pose proof (college_script_always_quits no_table_site empty_disk) as H.
  cbv zeta in H. cbn [Makaut.chrome no_table_site] in H.
  destruct H as (Hlog & _ & Hr).
  split; [rewrite Hlog|rewrite Hr]; reflexivity.
Defined.
